(** * JSF2NG: the resilient run orchestrator of [my_agent/JSF2NG.py]

    A shallow embedding of the session registry, the memory bank, payload
    compaction, the retrying executor [observe_run] and the aggregation
    pass of [run_mod5_safe], with the properties the specification states
    about them.

    Modelling conventions.
    - A Python [str] is a [string] whose characters are the code points
      0..255 (Latin-1); [str.lower] and [repr] are written out for that
      range.
    - A Python [float] or [int] used as a delay, a duration or a score is a
      rational [Q], the exact value of the number; a float operation that
      can round is written with [round64].
    - Writing a file that can be opened succeeds ([write_log], [json.dump]);
      the failures that the source provides for are modelled: a snapshot
      that cannot be removed, a directory that cannot be made, a file that
      does not parse. [metrics.json] is kept as the document it holds.
    - Code that awaits is written in the monad [M]: a state, the effects
      emitted, and a result that is a value, a raised exception or a task
      that stays suspended. What the operator and the other tasks do while
      the task is suspended is a script, over which the theorems quantify;
      the other tasks of a run store their results in [migration_results]
      there. *)

From Stdlib Require Import ZArith QArith Qpower Lia List Bool Ascii String DecimalString.
From stdpp Require Import base option gmap strings list fin_maps.

Set Warnings "-register-all".

Local Open Scope string_scope.
Local Open Scope list_scope.

(* ===================================================================== *)
(** * Python strings *)
(* ===================================================================== *)

Module PyStr.

(** [c.lower()] for one code point below 256: A..Z and the accented
    capitals 0xC0..0xDE (except the multiplication sign 0xD7) move up
    by 32. *)
Definition lower_char (c : ascii) : ascii :=
  let n := N_of_ascii c in
  if ((65 <=? n) && (n <=? 90) || (192 <=? n) && (n <=? 222) && negb (n =? 215))%N
  then ascii_of_N (n + 32) else c.

(** [s.lower()] *)
Fixpoint lower (s : string) : string :=
  match s with
  | EmptyString => EmptyString
  | String c r => String (lower_char c) (lower r)
  end.

(** [s.startswith(p)] *)
Fixpoint startswith (p s : string) : bool :=
  match p, s with
  | EmptyString, _ => true
  | String _ _, EmptyString => false
  | String a p', String b s' => Ascii.eqb a b && startswith p' s'
  end.

(** [needle in hay] *)
Fixpoint contains (needle hay : string) : bool :=
  startswith needle hay ||
  match hay with
  | EmptyString => false
  | String _ r => contains needle r
  end.

(** [s[:n]] for [0 <= n] *)
Fixpoint take (n : nat) (s : string) : string :=
  match n, s with
  | O, _ => EmptyString
  | S _, EmptyString => EmptyString
  | S k, String c r => String c (take k r)
  end.

(** [s[:n]] for any integer [n]: a negative bound counts from the end. *)
Definition slice_to (n : Z) (s : string) : string :=
  if (0 <=? n)%Z then take (Z.to_nat n) s
  else take (String.length s - Z.to_nat (- n)) s.

(** [s.endswith(suffix)] *)
Definition endswith (suffix s : string) : bool :=
  let ls := String.length s in
  let lx := String.length suffix in
  (lx <=? ls)%nat && String.eqb (String.substring (ls - lx) lx s) suffix.

Definition hex_digit (n : N) : ascii :=
  ascii_of_N (if (n <? 10)%N then 48 + n else 87 + n).

(** [c.isprintable()] below 256. *)
Definition printable (n : N) : bool :=
  ((32 <=? n) && (n <? 127) || (161 <=? n) && negb (n =? 173))%N.

(** One character of [repr(s)], for the quote character [q] chosen. *)
Definition repr_char (q c : ascii) : string :=
  let n := N_of_ascii c in
  if Ascii.eqb c q || Ascii.eqb c "\"%char then String "\" (String c "")
  else if (n =? 9)%N then "\t"
  else if (n =? 10)%N then "\n"
  else if (n =? 13)%N then "\r"
  else if printable n then String c ""
  else String "\" (String "x" (String (hex_digit (n / 16)) (String (hex_digit (n mod 16)) ""))).

Fixpoint repr_body (q : ascii) (s : string) : string :=
  match s with
  | EmptyString => EmptyString
  | String c r => repr_char q c +:+ repr_body q r
  end.

(** [repr(s)]: single quotes unless the text has a single quote and no
    double quote. *)
Definition repr (s : string) : string :=
  let q := if contains "'" s && negb (contains (String (ascii_of_N 34) "") s)
           then ascii_of_N 34 else "'"%char in
  String q (repr_body q s +:+ String q "").

End PyStr.

(* ===================================================================== *)
(** * Python floats *)
(* ===================================================================== *)

(** The double nearest to [q], ties to even: what a float operation returns
    when its exact result is [q]. A subnormal result is rounded on the grid
    of 2^-1074. A result beyond the largest double, where Python gives [inf]
    or raises [OverflowError], is outside the model. *)
Definition round64 (q : Q) : Q :=
  let q := Qred q in
  let n := Qnum q in
  let d := Z.pos (Qden q) in
  if (n =? 0)%Z then 0%Q else
  let a := Z.abs n in
  let e0 := (Z.log2 a - Z.log2 d)%Z in
  let below := if (0 <=? e0)%Z then (a <? d * 2 ^ e0)%Z else (a * 2 ^ (- e0) <? d)%Z in
  let e := if below then (e0 - 1)%Z else e0 in      (* 2^e <= |q| < 2^(e+1) *)
  let u := Z.max (e - 52) (-1074) in                (* the last place is 2^u *)
  let num := if (u <? 0)%Z then (a * 2 ^ (- u))%Z else a in
  let den := if (u <? 0)%Z then d else (d * 2 ^ u)%Z in
  let m0 := (num / den)%Z in
  let r := (num mod den)%Z in
  let m := if (2 * r <? den)%Z then m0
           else if (den <? 2 * r)%Z then (m0 + 1)%Z
           else if Z.even m0 then m0 else (m0 + 1)%Z in
  let s := (Z.sgn n * m)%Z in
  if (u <? 0)%Z then Qmake s (Z.to_pos (2 ^ (- u))) else inject_Z (s * 2 ^ u).

(* ===================================================================== *)
(** * Paths *)
(* ===================================================================== *)

Module PosixPath.

Definition is_sep (c : ascii) : bool := Ascii.eqb c "/"%char.

(** [p[:p.rfind('/') + 1]]: the text up to the last separator, the
    separator included; empty when there is none. *)
Fixpoint head (p : string) : string :=
  match p with
  | EmptyString => EmptyString
  | String c r =>
      match head r with
      | EmptyString => if is_sep c then String c EmptyString else EmptyString
      | h => String c h
      end
  end.

(** [s.rstrip('/')] *)
Fixpoint rstrip (s : string) : string :=
  match s with
  | EmptyString => EmptyString
  | String c r =>
      match rstrip r with
      | EmptyString => if is_sep c then EmptyString else String c EmptyString
      | r' => String c r'
      end
  end.

(** [os.path.dirname(p)]: the head without its trailing separators, unless
    it consists of separators only. *)
Definition dirname (p : string) : string :=
  let h := head p in
  match rstrip h with
  | EmptyString => h
  | stripped => stripped
  end.

End PosixPath.

(* ===================================================================== *)
(** * Python values: payloads and JSON documents *)
(* ===================================================================== *)

(** What is neither a string, a mapping nor a list. *)
Inductive Atom :=
| ANone
| ABool (b : bool)
| AInt (z : Z)
| AFloat (q : Q).

(** A nested structure of strings, lists and mappings. A [dict] is the list
    of its items in insertion order; its keys are strings and distinct. *)
Inductive PyVal :=
| PStr (s : string)
| PDict (items : list (string * PyVal))
| PList (xs : list PyVal)
| PAtom (a : Atom).

(** [d[k] = v]: replaces the value of a key that is present, appends a new
    item otherwise. *)
Fixpoint dict_set {V : Type} (k : string) (v : V) (d : list (string * V)) : list (string * V) :=
  match d with
  | [] => [(k, v)]
  | (k', v') :: r => if String.eqb k k' then (k', v) :: r else (k', v') :: dict_set k v r
  end.

(** The dict invariant, at every level: no key twice. *)
Fixpoint well_formed (v : PyVal) : Prop :=
  match v with
  | PDict items =>
      List.NoDup (map fst items) /\
      (fix all (l : list (string * PyVal)) : Prop :=
         match l with
         | [] => True
         | (_, x) :: r => well_formed x /\ all r
         end) items
  | PList xs =>
      (fix all (l : list PyVal) : Prop :=
         match l with
         | [] => True
         | x :: r => well_formed x /\ all r
         end) xs
  | _ => True
  end.

(** [d.get(k)]: the value of a key, if the key is present. *)
Fixpoint dict_get {V : Type} (k : string) (d : list (string * V)) : option V :=
  match d with
  | [] => None
  | (k', v) :: r => if String.eqb k k' then Some v else dict_get k r
  end.

(** A call that returns a value or raises an exception with this message. *)
Inductive Try (A : Type) :=
| Done (a : A)
| Fails (message : string).
Arguments Done {A} a.
Arguments Fails {A} message.

(** [type(v).__name__] *)
Definition type_name (v : PyVal) : string :=
  match v with
  | PStr _ => "str"
  | PDict _ => "dict"
  | PList _ => "list"
  | PAtom ANone => "NoneType"
  | PAtom (ABool _) => "bool"
  | PAtom (AInt _) => "int"
  | PAtom (AFloat _) => "float"
  end.

(** [obj.get(key, default)]: only a dict has the method. *)
Definition py_get (obj : PyVal) (key : string) (default : PyVal) : Try PyVal :=
  match obj with
  | PDict items =>
      Done (match dict_get key items with Some v => v | None => default end)
  | _ => Fails ("'" +:+ type_name obj +:+ "' object has no attribute 'get'")
  end.

(** [obj[key] = value] for a string [key]: a dict takes it, a list wants
    an integer index, nothing else supports item assignment. *)
Definition py_setitem (obj : PyVal) (key : string) (value : PyVal) : Try PyVal :=
  match obj with
  | PDict items => Done (PDict (dict_set key value items))
  | PList _ => Fails "list indices must be integers or slices, not str"
  | _ => Fails ("'" +:+ type_name obj +:+ "' object does not support item assignment")
  end.

(** [obj.setdefault(key, default)], as far as it changes [obj]: only a
    dict has the method. *)
Definition py_setdefault (obj : PyVal) (key : string) (default : PyVal) : Try PyVal :=
  match obj with
  | PDict items =>
      Done (PDict (match dict_get key items with
                   | Some _ => items
                   | None => dict_set key default items
                   end))
  | _ => Fails ("'" +:+ type_name obj +:+ "' object has no attribute 'setdefault'")
  end.

(** [obj[key]] for a dict [obj] and a string [key]; the message of a
    [KeyError] is the [repr] of the key. *)
Definition py_getitem (obj : PyVal) (key : string) : Try PyVal :=
  match obj with
  | PDict items =>
      match dict_get key items with
      | Some v => Done v
      | None => Fails (PyStr.repr key)
      end
  | _ => Fails ("'" +:+ type_name obj +:+ "' object is not subscriptable")
  end.

(** [v += 1], the new value: an [int] or a [bool] gives an [int], a float
    a float; a list wants an iterable; the rest has no such operation. *)
Definition py_add_one (v : PyVal) : Try PyVal :=
  match v with
  | PAtom (AInt z) => Done (PAtom (AInt (z + 1)))
  | PAtom (ABool b) => Done (PAtom (AInt ((if b then 1 else 0) + 1)))
  | PAtom (AFloat q) => Done (PAtom (AFloat (round64 (q + 1))))
  | PAtom ANone => Fails "unsupported operand type(s) for +=: 'NoneType' and 'int'"
  | PStr _ =>
      Fails ("can only concatenate str (not " +:+ String (ascii_of_N 34) "int"
             +:+ String (ascii_of_N 34) ") to str")
  | PList _ => Fails "'int' object is not iterable"
  | PDict _ => Fails "unsupported operand type(s) for +=: 'dict' and 'int'"
  end.

(* ===================================================================== *)
(** * compact_context *)
(* ===================================================================== *)

Definition TRUNCATED : string := "...[truncated]".
Definition TRUNCATED_ITEMS : string := "...[truncated items]".

(** The string case of [compact_context]:
    [obj if len(obj) <= max_chars else obj[:max_chars] + "...[truncated]"] *)
Definition compact_str (s : string) (max_chars : Z) : PyVal :=
  if (Z.of_nat (String.length s) <=? max_chars)%Z then PStr s
  else PStr (PyStr.slice_to max_chars s +:+ TRUNCATED).

(** [max_chars // 4 if k.lower().endswith("content") else max_chars] *)
Definition budget (k : string) (max_chars : Z) : Z :=
  if PyStr.endswith "content" (PyStr.lower k) then (max_chars / 4)%Z else max_chars.

(** [out = {}; for k, v in items: out[k] = f(k, v)], from [out]. *)
Fixpoint dict_loop (f : string -> PyVal -> PyVal)
    (items out : list (string * PyVal)) : list (string * PyVal) :=
  match items with
  | [] => out
  | (k, v) :: r => dict_loop f r (dict_set k (f k v) out)
  end.

(** [[f(x) for x in xs[:n]]] *)
Fixpoint map_first (f : PyVal -> PyVal) (n : nat) (xs : list PyVal) : list PyVal :=
  match n, xs with
  | S k, x :: r => f x :: map_first f k r
  | _, _ => []
  end.

(** [compact_context(obj, max_chars)]. In the list case the comprehension
    over [obj[:50] + ["...[truncated items]"]] (or over [obj] itself when
    it has at most 50 elements, which is then its own [obj[:50]]) is the
    comprehension over the first 50 elements, followed by the compacted
    marker string when the list was cut. *)
Fixpoint compact_context (obj : PyVal) (max_chars : Z) {struct obj} : PyVal :=
  match obj with
  | PStr s => compact_str s max_chars
  | PDict items =>
      PDict (dict_loop (fun k v => compact_context v (budget k max_chars)) items [])
  | PList xs =>
      PList (map_first (fun x => compact_context x max_chars) 50 xs
             ++ (if (50 <? List.length xs)%nat
                 then [compact_str TRUNCATED_ITEMS max_chars] else []))
  | PAtom _ => obj
  end.

(** The compaction as the specification words it, for a budget [m]. *)
Inductive Compacted : Z -> PyVal -> PyVal -> Prop :=
| Compacted_short m s :
    (Z.of_nat (String.length s) <= m)%Z ->
    Compacted m (PStr s) (PStr s)
| Compacted_long m s :
    (m < Z.of_nat (String.length s))%Z ->
    Compacted m (PStr s) (PStr (PyStr.slice_to m s +:+ TRUNCATED))
| Compacted_list m xs ys :
    (List.length xs <= 50)%nat ->
    Forall2 (Compacted m) xs ys ->
    Compacted m (PList xs) (PList ys)
| Compacted_list_cut m xs ys mark :
    (50 < List.length xs)%nat ->
    Forall2 (Compacted m) (firstn 50 xs) ys ->
    Compacted m (PStr TRUNCATED_ITEMS) mark ->
    Compacted m (PList xs) (PList (ys ++ [mark]))
| Compacted_dict m items out :
    Forall2 (fun kv kv' => fst kv = fst kv' /\
                          Compacted (budget (fst kv) m) (snd kv) (snd kv')) items out ->
    Compacted m (PDict items) (PDict out)
| Compacted_atom m a :
    Compacted m (PAtom a) (PAtom a).

(* ===================================================================== *)
(** * Configuration and external collaborators *)
(* ===================================================================== *)

(** The module-level settings read from the environment. *)
Record Config := {
  MAX_RETRIES : Z;              (* default 4 *)
  BASE_RETRY_DELAY : Q;         (* default 5.0 *)
  QUOTA_BACKOFF_INITIAL : Q;    (* default 30.0 *)
}.

Definition default_config : Config :=
  {| MAX_RETRIES := 4; BASE_RETRY_DELAY := 5; QUOTA_BACKOFF_INITIAL := 30 |}.

(** What the standard library supplies: the JSON codec and the wall clock
    ([clock n] is the value of the [n]-th call of [time.time()]). *)
Record Externals := {
  json_dumps : PyVal -> string;
  json_loads : string -> option PyVal;   (* [None]: the text does not parse *)
  clock : nat -> Q;
}.

(* ===================================================================== *)
(** * MemoryBank *)
(* ===================================================================== *)

Module MemoryBank.

(** The files on disk: path to content. *)
Abbreviation FS := (gmap string string).

Record t := { path : string; _store : PyVal }.

(** [MemoryBank(path)] *)
Definition init (p : string) : t := {| path := p; _store := PDict [] |}.

(** [load]: the parsed snapshot, or [{}] when the file is missing or
    does not parse. *)
Definition load (ext : Externals) (self : t) (fs : FS) : t :=
  match fs !! path self with
  | Some text =>
      match json_loads ext text with
      | Some v => {| path := path self; _store := v |}
      | None => {| path := path self; _store := PDict [] |}
      end
  | None => {| path := path self; _store := PDict [] |}
  end.

(** [os.makedirs(d, exist_ok=True)]: there is no directory of the empty
    name to make. *)
Definition makedirs (d : string) : Try unit :=
  if String.eqb d "" then Fails "[Errno 2] No such file or directory: ''"
  else Done tt.

(** [save]: makes the directory of the path, then overwrites the snapshot
    with [json.dump(self._store)]. Nothing is written when the directory
    cannot be made. *)
Definition save (ext : Externals) (self : t) (fs : FS) : Try FS :=
  match makedirs (PosixPath.dirname (path self)) with
  | Done _ => Done (<[path self := json_dumps ext (_store self)]> fs)
  | Fails e => Fails e
  end.

(** [clear]: empties the store and removes the snapshot if it exists.
    [remove_raises] says whether [os.remove] raises (a directory that
    cannot be written to, a file in use); [clear] passes over that, and
    the snapshot stays. *)
Definition clear (self : t) (fs : FS) (remove_raises : bool) : t * FS :=
  ({| path := path self; _store := PDict [] |},
   match fs !! path self with
   | Some _ => if remove_raises then fs else delete (path self) fs
   | None => fs
   end).

(** [get(key, default)]: [self._store.get(key, default)] *)
Definition get (self : t) (key : string) (default : PyVal) : Try PyVal :=
  py_get (_store self) key default.

(** [set(key, value)]: [self._store[key] = value] *)
Definition set (self : t) (key : string) (value : PyVal) : Try t :=
  match py_setitem (_store self) key value with
  | Done store => Done {| path := path self; _store := store |}
  | Fails e => Fails e
  end.

End MemoryBank.

(* ===================================================================== *)
(** * The metrics file *)
(* ===================================================================== *)

(** [load_metrics] and [update_metric] on the file itself, at [path]
    ([METRICS_PATH]); the operations of the same names further down are
    these on the document that the file holds. *)
Module MetricsFile.

(** [load_metrics()]: the parsed file, or [{}] when it is missing or does
    not parse. *)
Definition load_metrics (ext : Externals) (path : string) (fs : gmap string string) : PyVal :=
  match fs !! path with
  | Some text =>
      match json_loads ext text with
      | Some v => v
      | None => PDict []
      end
  | None => PDict []
  end.

(** [update_metric(k, v)]: [m = load_metrics(); m[k] = v], then the file
    is rewritten with [json.dump(m)]. *)
Definition update_metric (ext : Externals) (path : string) (k : string) (v : PyVal)
    (fs : gmap string string) : Try (gmap string string) :=
  match py_setitem (load_metrics ext path fs) k v with
  | Done m => Done (<[path := json_dumps ext m]> fs)
  | Fails e => Fails e
  end.

End MetricsFile.

(* ===================================================================== *)
(** * asyncio.Event and the SessionManager *)
(* ===================================================================== *)

(** An [asyncio.Event]: its flag, and the number of times [set()] has
    turned the flag from false to true. [set()] on a cleared event resolves
    the future of every task waiting at that moment, so a task that began
    to wait at epoch [e] is woken once the epoch exceeds [e], also when the
    flag has been cleared again before the task runs. *)
Record Event := { ev_value : bool; ev_epoch : nat }.

Module Event.
Definition new : Event := {| ev_value := false; ev_epoch := 0 |}.
Definition set (ev : Event) : Event :=
  if ev_value ev then ev
  else {| ev_value := true; ev_epoch := S (ev_epoch ev) |}.
Definition clear (ev : Event) : Event :=
  {| ev_value := false; ev_epoch := ev_epoch ev |}.
End Event.

(** One entry of [SessionManager.sessions]: the dict
    [{"paused": .., "pause_event": .., "cancel": ..}]. *)
Record Session := { paused : bool; pause_event : Event; cancel : bool }.

Module SessionManager.

Abbreviation t := (gmap string Session).

Definition create_session (session_id : string) (self : t) : t :=
  match self !! session_id with
  | Some _ => self
  | None =>
      <[session_id := {| paused := false;
                         pause_event := Event.set Event.new;
                         cancel := false |}]> self
  end.

Definition pause (session_id : string) (self : t) : t :=
  match self !! session_id with
  | Some s =>
      <[session_id := {| paused := true;
                         pause_event := Event.clear (pause_event s);
                         cancel := cancel s |}]> self
  | None => self
  end.

Definition resume (session_id : string) (self : t) : t :=
  match self !! session_id with
  | Some s =>
      <[session_id := {| paused := false;
                         pause_event := Event.set (pause_event s);
                         cancel := cancel s |}]> self
  | None => self
  end.

Definition is_cancelled (session_id : string) (self : t) : bool :=
  match self !! session_id with
  | Some s => cancel s
  | None => false
  end.

Definition get_event (session_id : string) (self : t) : option Event :=
  match self !! session_id with
  | Some s => Some (pause_event s)
  | None => None
  end.

Definition cancel (session_id : string) (self : t) : t :=
  match self !! session_id with
  | Some s =>
      <[session_id := {| paused := paused s;
                         pause_event := Event.set (pause_event s);
                         cancel := true |}]> self
  | None => self
  end.

End SessionManager.

(* ===================================================================== *)
(** * Results, log records and effects *)
(* ===================================================================== *)

(** What [observe_run] returns: the runner's result, an opaque object seen
    here through its [str()], or the dict [{"error": msg}]. *)
Inductive PyResult :=
| RunnerResult (text : string)
| ErrorResult (msg : string).

(** [str(result)] *)
Definition py_str (r : PyResult) : string :=
  match r with
  | RunnerResult text => text
  | ErrorResult msg => "{'error': " +:+ PyStr.repr msg +:+ "}"
  end.

(** The records given to [write_log], by their ["event"] field. *)
Inductive LogEntry :=
| cancelled (label : string) (attempt : nat)
| start_attempt (label : string) (attempt : nat)
| success (label : string) (attempt : nat) (duration : Q)
| error (label : string) (attempt : nat) (duration : Q) (msg : string)
| quota_backoff (label : string) (attempt : nat) (wait_seconds : Q)
| non_retriable (label : string) (message : string)
| max_retries_exceeded (label : string) (last_error : string)
| finished_observe_run (label : string) (total_duration : Q) (attempts : nat)
| evaluation_backoff (page : string) (retry : nat) (wait_seconds : Q)
| evaluation_model_overloaded (page : string) (retry : nat) (wait_seconds : Q).

(** What one task does to the outside, in order. *)
Inductive Effect :=
| EvAcquire                         (* semaphore.acquire() returned *)
| EvRelease                         (* semaphore.release() *)
| EvLog (e : LogEntry)              (* write_log(e) *)
| EvSleep (seconds : Q)             (* asyncio.sleep(seconds) begun *)
| EvCall (payload_str : string).    (* runner.run_debug(payload_str) begun *)

(** One call of [runner.run_debug]: a result, an [Exception] with its
    message, an exception that is not an [Exception]
    ([asyncio.CancelledError], [KeyboardInterrupt]), or a call that never
    comes back. *)
Inductive RunOutcome :=
| Returns (text : string)
| Raises (msg : string)
| Aborts
| Stalls.

(** A runner, as far as one invocation of [observe_run] sees it: the
    outcome of its call in attempt [n] on a payload. *)
Definition Runner := nat -> string -> RunOutcome.

(* ===================================================================== *)
(** * The cooperative scheduler *)
(* ===================================================================== *)

(** What the other tasks and the operator do while this task is
    suspended. *)
Inductive EnvOp :=
| OpCreate (session_id : string)
| OpPause (session_id : string)
| OpResume (session_id : string)
| OpCancel (session_id : string)
| OpSemAcquire
| OpSemRelease
| OpStore (page : string) (result : PyResult).   (* migration_results[page] = result *)

(** One suspension of the task: the operations that run meanwhile, and
    whether the task is resumed by an exception thrown into it. *)
Record Sched := { ops : list EnvOp; interrupt : bool }.

Record State := {
  sessions : gmap string Session;   (* SESSION_MANAGER.sessions *)
  sem_value : nat;                  (* the shared asyncio.Semaphore *)
  metrics : PyVal;                  (* what load_metrics() reads from metrics.json *)
  migration_results : list (string * PyResult);   (* the dict of run_mod5_safe *)
  script : list Sched;              (* the suspensions to come *)
  ticks : nat;                      (* calls of time.time() so far *)
  attempt : nat;                    (* the local variable of observe_run *)
}.

Definition with_sessions (f : gmap string Session -> gmap string Session) (w : State) : State :=
  {| sessions := f (sessions w); sem_value := sem_value w; metrics := metrics w;
     migration_results := migration_results w;
     script := script w; ticks := ticks w; attempt := attempt w |}.

Definition with_sem (f : nat -> nat) (w : State) : State :=
  {| sessions := sessions w; sem_value := f (sem_value w); metrics := metrics w;
     migration_results := migration_results w;
     script := script w; ticks := ticks w; attempt := attempt w |}.

Definition with_metrics (m : PyVal) (w : State) : State :=
  {| sessions := sessions w; sem_value := sem_value w; metrics := m;
     migration_results := migration_results w;
     script := script w; ticks := ticks w; attempt := attempt w |}.

Definition with_results (f : list (string * PyResult) -> list (string * PyResult))
    (w : State) : State :=
  {| sessions := sessions w; sem_value := sem_value w; metrics := metrics w;
     migration_results := f (migration_results w);
     script := script w; ticks := ticks w; attempt := attempt w |}.

Definition with_script (sc : list Sched) (w : State) : State :=
  {| sessions := sessions w; sem_value := sem_value w; metrics := metrics w;
     migration_results := migration_results w;
     script := sc; ticks := ticks w; attempt := attempt w |}.

Definition with_ticks (n : nat) (w : State) : State :=
  {| sessions := sessions w; sem_value := sem_value w; metrics := metrics w;
     migration_results := migration_results w;
     script := script w; ticks := n; attempt := attempt w |}.

Definition with_attempt (n : nat) (w : State) : State :=
  {| sessions := sessions w; sem_value := sem_value w; metrics := metrics w;
     migration_results := migration_results w;
     script := script w; ticks := ticks w; attempt := n |}.

Definition run_op (w : State) (op : EnvOp) : State :=
  match op with
  | OpCreate s => with_sessions (SessionManager.create_session s) w
  | OpPause s => with_sessions (SessionManager.pause s) w
  | OpResume s => with_sessions (SessionManager.resume s) w
  | OpCancel s => with_sessions (SessionManager.cancel s) w
  | OpSemAcquire => with_sem Nat.pred w
  | OpSemRelease => with_sem S w
  | OpStore page result => with_results (dict_set page result) w
  end.

Definition run_ops (l : list EnvOp) (w : State) : State := fold_left run_op l w.

Inductive Exn :=
| Exception (msg : string)     (* caught by [except Exception] *)
| BaseException.               (* not caught by it *)

Inductive Res (A : Type) :=
| Ok (a : A)
| Raise (e : Exn)
| Hang.                        (* suspended, and never resumed *)
Arguments Ok {A} a.
Arguments Raise {A} e.
Arguments Hang {A}.

Definition M (A : Type) : Type := State -> Res A * State * list Effect.

Definition ret {A} (a : A) : M A := fun w => (Ok a, w, []).

Definition bind {A B} (m : M A) (k : A -> M B) : M B := fun w =>
  match m w with
  | (Ok a, w1, t1) => let '(r, w2, t2) := k a w1 in (r, w2, t1 ++ t2)
  | (Raise e, w1, t1) => (Raise e, w1, t1)
  | (Hang, w1, t1) => (Hang, w1, t1)
  end.

Declare Scope py_scope.
Delimit Scope py_scope with py.
Notation "x <- c ;; k" := (bind c (fun x => k))
  (at level 100, c at next level, right associativity) : py_scope.
Notation "c ;; k" := (bind c (fun _ => k))
  (at level 100, right associativity) : py_scope.
Local Open Scope py_scope.

(** [try: body  except Exception as e: handler(str(e))] *)
Definition try_except {A} (body : M A) (handler : string -> M A) : M A := fun w =>
  match body w with
  | (Raise (Exception msg), w1, t1) =>
      let '(r, w2, t2) := handler msg w1 in (r, w2, t1 ++ t2)
  | other => other
  end.

(** [try: body  finally: fin]. A task that stays suspended in [body] never
    reaches [fin]. *)
Definition try_finally {A} (body : M A) (fin : M unit) : M A := fun w =>
  match body w with
  | (Hang, w1, t1) => (Hang, w1, t1)
  | (r, w1, t1) =>
      match fin w1 with
      | (Ok _, w2, t2) => (r, w2, t1 ++ t2)
      | (Raise e, w2, t2) => (Raise e, w2, t1 ++ t2)
      | (Hang, w2, t2) => (Hang, w2, t1 ++ t2)
      end
  end.

(** ** Primitive operations *)

Definition get {A} (f : State -> A) : M A := fun w => (Ok (f w), w, []).

Definition modify (f : State -> State) : M unit := fun w => (Ok tt, f w, []).

Definition raise {A} (e : Exn) : M A := fun w => (Raise e, w, []).

Definition emit (e : Effect) : M unit := fun w => (Ok tt, w, [e]).

(** [write_log(entry)] *)
Definition write_log (e : LogEntry) : M unit := emit (EvLog e).

(** [now_ts()] *)
Definition now_ts (ext : Externals) : M Q := fun w =>
  (Ok (clock ext (ticks w)), with_ticks (S (ticks w)) w, []).

(** The task yields once: the next entry of the script runs. When the
    script is used up nothing else happens meanwhile. *)
Definition suspend : M unit := fun w =>
  match script w with
  | [] => (Ok tt, w, [])
  | b :: rest =>
      let w' := with_script rest (run_ops (ops b) w) in
      if interrupt b then (Raise BaseException, w', []) else (Ok tt, w', [])
  end.

(** The task yields until [ready] holds after one of its suspensions; with
    the script used up before that, it stays suspended. *)
Fixpoint block_on (ready : State -> bool) (sc : list Sched) (w : State) : Res unit * State :=
  match sc with
  | [] => (Hang, with_script [] w)
  | b :: rest =>
      let w' := with_script rest (run_ops (ops b) w) in
      if interrupt b then (Raise BaseException, w')
      else if ready w' then (Ok tt, w')
      else block_on ready rest w'
  end.

(** [await asyncio.sleep(seconds)] *)
Definition sleep (seconds : Q) : M unit := emit (EvSleep seconds) ;; suspend.

(** The task waits for what never comes: it stays suspended, unless an
    exception is thrown into it. *)
Definition wait_forever {A} : M A := fun w =>
  match block_on (fun _ => false) (script w) w with
  | (Raise e, w') => (Raise e, w', [])
  | (_, w') => (Hang, w', [])
  end.

(** [await runner.run_debug(payload_str)] in attempt [n]. *)
Definition run_debug (runner : Runner) (n : nat) (payload_str : string) : M string :=
  emit (EvCall payload_str) ;;
  suspend ;;
  match runner n payload_str with
  | Returns text => ret text
  | Raises msg => raise (Exception msg)
  | Aborts => raise BaseException
  | Stalls => wait_forever
  end.

(** Whether a task that began to wait on the pause event of [session] at
    epoch [e0] has been woken. *)
Definition woken (session : string) (e0 : nat) (w : State) : bool :=
  match SessionManager.get_event session (sessions w) with
  | Some ev => (e0 <? ev_epoch ev)%nat
  | None => false
  end.

(** [ev = SESSION_MANAGER.get_event(session); if ev: await ev.wait()] *)
Definition wait_pause_event (session : string) : M unit := fun w =>
  match SessionManager.get_event session (sessions w) with
  | None => (Ok tt, w, [])
  | Some ev =>
      if ev_value ev then (Ok tt, w, [])
      else let '(r, w') := block_on (woken session (ev_epoch ev)) (script w) w in
           (r, w', [])
  end.

(** [await semaphore.acquire()]: takes a slot at once when one is free,
    waits for one otherwise. *)
Definition sem_acquire : M unit := fun w =>
  if (0 <? sem_value w)%nat then (Ok tt, with_sem Nat.pred w, [EvAcquire])
  else match block_on (fun w' => (0 <? sem_value w')%nat) (script w) w with
       | (Ok _, w') => (Ok tt, with_sem Nat.pred w', [EvAcquire])
       | (r, w') => (r, w', [])
       end.

(** [semaphore.release()] *)
Definition sem_release : M unit := fun w => (Ok tt, with_sem S w, [EvRelease]).

(** A call that raises becomes an [Exception] of the task. *)
Definition lift {A} (t : Try A) : M A :=
  match t with
  | Done a => ret a
  | Fails e => raise (Exception e)
  end.

(** [load_metrics()] and [update_metric(k, v)]: [m = load_metrics();
    m[k] = v], and the file is rewritten with [m]. *)
Definition load_metrics : M PyVal := get metrics.

Definition update_metric (k : string) (v : PyVal) : M unit :=
  m <- load_metrics ;;
  m <- lift (py_setitem m k v) ;;
  modify (with_metrics m).

(** The bookkeeping of a success:
    [m = load_metrics(); m.setdefault("successful_runs", 0);
     m["successful_runs"] += 1;
     update_metric("successful_runs", m["successful_runs"])]. *)
Definition record_success : M unit :=
  m <- load_metrics ;;
  m <- lift (py_setdefault m "successful_runs" (PAtom (AInt 0))) ;;
  v <- lift (py_getitem m "successful_runs") ;;
  v <- lift (py_add_one v) ;;
  update_metric "successful_runs" v.

(* ===================================================================== *)
(** * observe_run *)
(* ===================================================================== *)

(** The handle on the limiter that [run_mod5_safe] shares among its tasks. *)
Inductive Semaphore := Limiter.

(** How one pass of the [while] body ends. *)
Inductive LoopCtl :=
| Return (v : PyResult)           (* return v *)
| Continue (last_exc : string).   (* continue, with last_exc = e *)

(** The two tests on [low = msg.lower()]. *)
Definition quota_signature (low : string) : bool :=
  PyStr.contains "resource_exhausted" low || PyStr.contains "quota" low
  || PyStr.contains "429" low || PyStr.contains "rate-limit" low.

Definition transient_signature (low : string) : bool :=
  PyStr.contains "unavailable" low || PyStr.contains "timeout" low
  || PyStr.contains "internal" low.

(** [QUOTA_BACKOFF_INITIAL * (1.5 ** (attempt - 1))]: a float power and
    a float product, each rounded. The power is a double, and the C
    library exact, up to 1.5 ** 33; beyond that the library may be off the
    nearest double by one unit in the last place, which [round64] does not
    follow. *)
Definition quota_wait (cfg : Config) (a : nat) : Q :=
  round64 (QUOTA_BACKOFF_INITIAL cfg * round64 ((3 # 2) ^ (Z.of_nat a - 1))).


(** [BASE_RETRY_DELAY * (2 ** (attempt - 1))]: the power is an [int], and
    a float times a power of two is exact. *)
Definition transient_wait (cfg : Config) (a : nat) : Q :=
  BASE_RETRY_DELAY cfg * 2 ^ (Z.of_nat a - 1).

(** The [except Exception as e] clause, for [msg = str(e)]. *)
Definition handle_failure (cfg : Config) (ext : Externals)
    (run_label : string) (a : nat) (start : Q) (msg : string) : M LoopCtl :=
  t <- now_ts ext ;;
  write_log (error run_label a (t - start) msg) ;;
  let low := PyStr.lower msg in
  if quota_signature low then
    let wait := quota_wait cfg a in
    write_log (quota_backoff run_label a wait) ;;
    sleep wait ;;
    ret (Continue msg)
  else if transient_signature low then
    let wait := transient_wait cfg a in
    sleep wait ;;
    ret (Continue msg)
  else
    write_log (non_retriable run_label msg) ;;
    ret (Return (ErrorResult msg)).

(** The [try] block of one attempt. *)
Definition call_runner (ext : Externals) (runner : Runner)
    (payload_str run_label : string) (a : nat) (start : Q) : M LoopCtl :=
  write_log (start_attempt run_label a) ;;
  result <- run_debug runner a payload_str ;;
  t <- now_ts ext ;;
  write_log (success run_label a (t - start)) ;;
  record_success ;;
  ret (Return (RunnerResult result)).

(** One pass of the body of [while attempt < MAX_RETRIES]. *)
Definition attempt_once (cfg : Config) (ext : Externals) (runner : Runner)
    (payload_str run_label session : string) : M LoopCtl :=
  modify (fun w => with_attempt (S (attempt w)) w) ;;     (* attempt += 1 *)
  a <- get attempt ;;
  wait_pause_event session ;;
  is_cancelled <- get (fun w => SessionManager.is_cancelled session (sessions w)) ;;
  if is_cancelled : bool then
    write_log (cancelled run_label a) ;;
    ret (Return (ErrorResult "CANCELLED"))
  else
    start <- now_ts ext ;;
    try_except (call_runner ext runner payload_str run_label a start)
               (handle_failure cfg ext run_label a start).

(** [str(last_exc)] *)
Definition str_last_exc (last_exc : option string) : string :=
  match last_exc with
  | Some msg => msg
  | None => "None"
  end.

(** The [while] loop with [remaining = MAX_RETRIES - attempt] passes left,
    and what follows it. *)
Fixpoint retry_loop (cfg : Config) (ext : Externals) (runner : Runner)
    (payload_str run_label session : string)
    (remaining : nat) (last_exc : option string) : M PyResult :=
  match remaining with
  | O =>
      write_log (max_retries_exceeded run_label (str_last_exc last_exc)) ;;
      ret (ErrorResult ("Max retries exceeded: " +:+ str_last_exc last_exc))
  | S r =>
      ctl <- attempt_once cfg ext runner payload_str run_label session ;;
      match ctl with
      | Return v => ret v
      | Continue msg => retry_loop cfg ext runner payload_str run_label session r (Some msg)
      end
  end.

(** [session_id or "session_default"] *)
Definition session_or_default (session_id : option string) : string :=
  match session_id with
  | Some s => if String.eqb s "" then "session_default" else s
  | None => "session_default"
  end.

(** [json.dumps(compacted) if not isinstance(compacted, str) else compacted] *)
Definition payload_string (ext : Externals) (payload : PyVal) : string :=
  match compact_context payload 4000 with
  | PStr s => s
  | compacted => json_dumps ext compacted
  end.

(** [observe_run(runner, payload, run_label, session_id, semaphore)]. The
    limiter is taken before the [try]; the [finally] block releases it and
    writes the closing record. *)
Definition observe_run (cfg : Config) (ext : Externals) (runner : Runner)
    (payload : PyVal) (run_label : string) (session_id : option string)
    (semaphore : option Semaphore) : M PyResult :=
  let payload_str := payload_string ext payload in
  modify (with_attempt 0) ;;                               (* attempt = 0 *)
  start_all <- now_ts ext ;;
  let session := session_or_default session_id in
  match semaphore with Some _ => sem_acquire | None => ret tt end ;;
  try_finally
    (modify (with_sessions (SessionManager.create_session session)) ;;
     retry_loop cfg ext runner payload_str run_label session
                (Z.to_nat (MAX_RETRIES cfg)) None)
    (match semaphore with Some _ => sem_release | None => ret tt end ;;
     t <- now_ts ext ;;
     attempts <- get attempt ;;
     write_log (finished_observe_run run_label (t - start_all) attempts)).

(* ===================================================================== *)
(** * The aggregation pass of run_mod5_safe *)
(* ===================================================================== *)

Record EvalRecord := { score : Q; issues : list string; summary : string }.

(** The two tests on [summary = str(result)[:2000].lower()]. *)
Definition eval_quota_signature (summary : string) : bool :=
  PyStr.contains "resource_exhausted" summary || PyStr.contains "quota" summary
  || PyStr.contains "429" summary.

Definition eval_overloaded_signature (summary : string) : bool :=
  PyStr.contains "unavailable" summary || PyStr.contains "503" summary.

Definition result_summary (result : PyResult) : string :=
  PyStr.lower (PyStr.take 2000 (py_str result)).

Definition full_score (result : PyResult) : EvalRecord :=
  {| score := 9; issues := []; summary := PyStr.take 1000 (py_str result) |}.

Definition deferred (result : PyResult) : EvalRecord :=
  {| score := 5;
     issues := ["Evaluation deferred due to quota exhaustion"];
     summary := PyStr.take 1000 (py_str result) |}.

(** [while retry < max_eval_retries], with
    [remaining = max_eval_retries - retry] passes left. *)
Fixpoint evaluation_loop (remaining retry : nat) (wait : Q)
    (page : string) (result : PyResult)
    (evaluations : gmap string EvalRecord) : M (gmap string EvalRecord) :=
  match remaining with
  | O => ret evaluations
  | S r =>
      let retry := S retry in
      let summary := result_summary result in
      if eval_quota_signature summary then
        write_log (evaluation_backoff page retry wait) ;;
        sleep wait ;;
        evaluation_loop r retry (wait * 2) page result evaluations
      else if eval_overloaded_signature summary then
        write_log (evaluation_model_overloaded page retry wait) ;;
        sleep wait ;;
        evaluation_loop r retry (wait * (3 # 2)) page result evaluations
      else
        ret (<[page := full_score result]> evaluations)
  end.

(** The body of [for page, result in migration_results.items()]. *)
Definition evaluate_page (page : string) (result : PyResult)
    (evaluations : gmap string EvalRecord) : M (gmap string EvalRecord) :=
  evaluations <- evaluation_loop 5 0 30 page result evaluations ;;
  match evaluations !! page with
  | None => ret (<[page := deferred result]> evaluations)
  | Some _ => ret evaluations
  end.

(** The [for] loop over [migration_results.items()], with [remaining]
    items to come of the [used] that the dict held when the loop began. The
    iterator looks at the dict as it is each time it is asked for the next
    item, and raises when its size has changed. *)
Fixpoint aggregate (remaining used : nat)
    (evaluations : gmap string EvalRecord) : M (gmap string EvalRecord) :=
  d <- get migration_results ;;
  if negb (List.length d =? used)%nat then
    raise (Exception "dictionary changed size during iteration")
  else
    match remaining with
    | O => ret evaluations
    | S r =>
        match nth_error d (used - remaining) with
        | Some (page, result) =>
            evaluations <- evaluate_page page result evaluations ;;
            aggregate r used evaluations
        | None => ret evaluations
        end
    end.

(** [evaluations = {}] and the loop. *)
Definition aggregation_pass : M (gmap string EvalRecord) :=
  d <- get migration_results ;;
  aggregate (List.length d) (List.length d) ∅.

(** The delays slept, in order. *)
Definition sleeps (tr : list Effect) : list Q :=
  omap (fun e => match e with EvSleep d => Some d | _ => None end) tr.

(* ===================================================================== *)
(** * The words of the specification *)
(* ===================================================================== *)

Definition result_of {A} (x : Res A * State * list Effect) : Res A := fst (fst x).
Definition state_of {A} (x : Res A * State * list Effect) : State := snd (fst x).
Definition trace_of {A} (x : Res A * State * list Effect) : list Effect := snd x.

(** [sig] occurs in [msg] when case is ignored. *)
Definition ci_substring (sig msg : string) : Prop :=
  exists pre mid post, msg = pre +:+ mid +:+ post /\ PyStr.lower mid = sig.

Definition quota_class (msg : string) : Prop :=
  exists sig, In sig ["resource_exhausted"; "quota"; "429"; "rate-limit"]
              /\ ci_substring sig msg.

Definition transient_class (msg : string) : Prop :=
  exists sig, In sig ["unavailable"; "timeout"; "internal"]
              /\ ci_substring sig msg.

(** The log records that end the work on an item. *)
Definition terminal (e : Effect) : bool :=
  match e with
  | EvLog (success _ _ _) => true
  | EvLog (max_retries_exceeded _ _) => true
  | EvLog (non_retriable _ _) => true
  | EvLog (cancelled _ _) => true
  | _ => false
  end.



Definition is_call (e : Effect) : bool :=
  match e with EvCall _ => true | _ => false end.

Definition count (p : Effect -> bool) (tr : list Effect) : nat :=
  List.length (List.filter p tr).

(** ** The bookkeeping of a success, in one step *)

(** What [record_success] makes of the metrics document [m]: the document
    afterwards, or the message of the exception. *)
Definition bump (m : PyVal) : Try PyVal :=
  match m with
  | PDict items =>
      match py_add_one (match dict_get "successful_runs" items with
                        | Some v => v
                        | None => PAtom (AInt 0)
                        end) with
      | Done v => Done (PDict (dict_set "successful_runs" v items))
      | Fails e => Fails e
      end
  | _ => Fails ("'" +:+ type_name m +:+ "' object has no attribute 'setdefault'")
  end.

(** The metrics document is one that a success can be counted in: a
    mapping whose [successful_runs], if there, is a number. *)
Definition metrics_sound (m : PyVal) : bool :=
  match bump m with
  | Done _ => true
  | Fails _ => false
  end.

(** What the metrics document [m] has become, [m'], after a pass of the
    loop body that ends with [r]. *)
Definition counted (m : PyVal) (r : Res LoopCtl) (m' : PyVal) : Prop :=
  match r with
  | Ok (Return (RunnerResult _)) => bump m = Done m'
  | _ => m' = m
  end.

(** ** The shape of one attempt

    What one pass of the loop body in attempt [a] emits, by the way it
    ends. [sound] says whether a success can be counted in the metrics
    document. *)
Inductive AttemptTrace (cfg : Config) (label payload_str : string) (sound : bool) (a : nat)
  : Res LoopCtl -> list Effect -> Prop :=
| AT_not_started r :
    r = Hang \/ r = Raise BaseException ->
    AttemptTrace cfg label payload_str sound a r []
| AT_cancelled :
    AttemptTrace cfg label payload_str sound a
      (Ok (Return (ErrorResult "CANCELLED")))
      [EvLog (cancelled label a)]
| AT_aborted r :
    r = Hang \/ r = Raise BaseException ->
    AttemptTrace cfg label payload_str sound a r
      [EvLog (start_attempt label a); EvCall payload_str]
| AT_success text d :
    sound = true ->
    AttemptTrace cfg label payload_str sound a
      (Ok (Return (RunnerResult text)))
      [EvLog (start_attempt label a); EvCall payload_str; EvLog (success label a d)]
| AT_uncounted msg d d' :
    sound = false ->
    quota_signature (PyStr.lower msg) = false ->
    transient_signature (PyStr.lower msg) = false ->
    AttemptTrace cfg label payload_str sound a
      (Ok (Return (ErrorResult msg)))
      [EvLog (start_attempt label a); EvCall payload_str; EvLog (success label a d);
       EvLog (error label a d' msg);
       EvLog (non_retriable label msg)]
| AT_quota msg d r :
    quota_signature (PyStr.lower msg) = true ->
    r = Ok (Continue msg) \/ r = Raise BaseException ->
    AttemptTrace cfg label payload_str sound a r
      [EvLog (start_attempt label a); EvCall payload_str;
       EvLog (error label a d msg);
       EvLog (quota_backoff label a (quota_wait cfg a));
       EvSleep (quota_wait cfg a)]
| AT_transient msg d r :
    quota_signature (PyStr.lower msg) = false ->
    transient_signature (PyStr.lower msg) = true ->
    r = Ok (Continue msg) \/ r = Raise BaseException ->
    AttemptTrace cfg label payload_str sound a r
      [EvLog (start_attempt label a); EvCall payload_str;
       EvLog (error label a d msg);
       EvSleep (transient_wait cfg a)]
| AT_fatal msg d :
    quota_signature (PyStr.lower msg) = false ->
    transient_signature (PyStr.lower msg) = false ->
    AttemptTrace cfg label payload_str sound a
      (Ok (Return (ErrorResult msg)))
      [EvLog (start_attempt label a); EvCall payload_str;
       EvLog (error label a d msg);
       EvLog (non_retriable label msg)].

(** ** The shape of the retry loop

    What the loop emits from attempt counter [a] with [n] passes left, the
    way it ends, and the attempt counter it leaves. *)
Inductive LoopTrace (cfg : Config) (label payload_str : string) (sound : bool)
  : nat -> nat -> Res PyResult -> list Effect -> nat -> Prop :=
| LT_exhausted a last :
    LoopTrace cfg label payload_str sound a 0
      (Ok (ErrorResult ("Max retries exceeded: " +:+ last)))
      [EvLog (max_retries_exceeded label last)] a
| LT_return a n v tr :
    AttemptTrace cfg label payload_str sound (S a) (Ok (Return v)) tr ->
    LoopTrace cfg label payload_str sound a (S n) (Ok v) tr (S a)
| LT_raise a n tr :
    AttemptTrace cfg label payload_str sound (S a) (Raise BaseException) tr ->
    LoopTrace cfg label payload_str sound a (S n) (Raise BaseException) tr (S a)
| LT_hang a n tr :
    AttemptTrace cfg label payload_str sound (S a) Hang tr ->
    LoopTrace cfg label payload_str sound a (S n) Hang tr (S a)
| LT_continue a n msg tr1 r tr2 a' :
    AttemptTrace cfg label payload_str sound (S a) (Ok (Continue msg)) tr1 ->
    LoopTrace cfg label payload_str sound (S a) n r tr2 a' ->
    LoopTrace cfg label payload_str sound a (S n) r (tr1 ++ tr2) a'.

(** ** The shape of one invocation of observe_run *)

Definition acquired (semaphore : option Semaphore) : list Effect :=
  match semaphore with Some _ => [EvAcquire] | None => [] end.

Definition released (semaphore : option Semaphore) : list Effect :=
  match semaphore with Some _ => [EvRelease] | None => [] end.

(** [d] and [a] are the total duration and the attempt count that the
    closing record carries. *)
Inductive RunTrace (cfg : Config) (label payload_str : string) (sound : bool)
    (semaphore : option Semaphore) (d : Q) (a : nat)
  : Res PyResult -> list Effect -> Prop :=
| RT_not_entered r :
    semaphore <> None ->
    r = Hang \/ r = Raise BaseException ->
    RunTrace cfg label payload_str sound semaphore d a r []
| RT_suspended body :
    LoopTrace cfg label payload_str sound 0 (Z.to_nat (MAX_RETRIES cfg)) Hang body a ->
    RunTrace cfg label payload_str sound semaphore d a Hang (acquired semaphore ++ body)
| RT_finished r body :
    r <> Hang ->
    LoopTrace cfg label payload_str sound 0 (Z.to_nat (MAX_RETRIES cfg)) r body a ->
    RunTrace cfg label payload_str sound semaphore d a r
      (acquired semaphore ++ body ++ released semaphore
       ++ [EvLog (finished_observe_run label d a)]).


(** ** Words about traces *)

(** Every occurrence of [x] in [tr] is followed, in this order and with
    nothing in between, by the elements of [ys]. *)
Definition followed_by (tr : list Effect) (x : Effect) (ys : list Effect) : Prop :=
  forall i, tr !! i = Some x -> forall j y, ys !! j = Some y -> tr !! (i + 1 + j)%nat = Some y.



Definition transient_followed (cfg : Config) (label : string) (tr : list Effect) : Prop :=
  forall a d msg, quota_signature (PyStr.lower msg) = false ->
    transient_signature (PyStr.lower msg) = true ->
    followed_by tr (EvLog (error label a d msg)) [EvSleep (transient_wait cfg a)].

(** ** Words about the pause gate *)

(** A task that reaches the pause gate of [sid] in [w] will wait there. *)
Definition blocked_on_gate (sid : string) (w : State) : Prop :=
  exists s, sessions w !! sid = Some s /\ ev_value (pause_event s) = false.

(** While the task is suspended in [b], nobody resumes or cancels [sid],
    and nothing is thrown into the task. *)
Definition quiet_for (sid : string) (b : Sched) : Prop :=
  interrupt b = false /\
  forall op, In op (ops b) -> op <> OpResume sid /\ op <> OpCancel sid.

(** The gate of [sid] as a task that waits on it from epoch [e0] sees it:
    the session exists, its epoch has not gone back, the flag is down as
    long as the epoch has not moved, and with [c] the session is cancelled
    and the epoch has moved. *)
Definition gate_inv (sid : string) (e0 : nat) (c : bool) (sm : gmap string Session) : Prop :=
  exists s, sm !! sid = Some s
    /\ (e0 <= ev_epoch (pause_event s))%nat
    /\ (ev_epoch (pause_event s) = e0 -> ev_value (pause_event s) = false)
    /\ (c = true -> cancel s = true /\ (e0 < ev_epoch (pause_event s))%nat).

(** ** Induction on nested values *)

Section PyValInd.
Context (P : PyVal -> Prop)
  (Hstr : forall s, P (PStr s))
  (Hdict : forall items, Forall (fun kv => P (snd kv)) items -> P (PDict items))
  (Hlist : forall xs, Forall P xs -> P (PList xs))
  (Hatom : forall a, P (PAtom a)).

Fixpoint PyVal_nested_ind (v : PyVal) : P v :=
  match v with
  | PStr s => Hstr s
  | PDict items =>
      Hdict items
        ((fix go (l : list (string * PyVal)) : Forall (fun kv => P (snd kv)) l :=
            match l with
            | [] => List.Forall_nil _
            | kv :: r => List.Forall_cons _ kv r (PyVal_nested_ind (snd kv)) (go r)
            end) items)
  | PList xs =>
      Hlist xs
        ((fix go (l : list PyVal) : Forall P l :=
            match l with
            | [] => List.Forall_nil _
            | x :: r => List.Forall_cons _ x r (PyVal_nested_ind x) (go r)
            end) xs)
  | PAtom a => Hatom a
  end.
End PyValInd.

(** ** Words about scheduling *)








(** ** Words about the aggregation pass *)

(** Nothing is thrown into the task while it is suspended. *)
Definition uninterrupted (sc : list Sched) : Prop :=
  Forall (fun b => interrupt b = false) sc.

(** No task stores a result in [migration_results] while the task is
    suspended. *)
Definition no_late_result (sc : list Sched) : Prop :=
  Forall (fun b => forall op, In op (ops b) -> forall page result, op <> OpStore page result) sc.

(** Started where no task will store a result, [m] ends where no task
    will, and leaves [migration_results] as it is. *)
Definition keeps_results {A} (m : M A) : Prop :=
  forall w r w' tr, m w = (r, w', tr) ->
    no_late_result (script w) ->
    no_late_result (script w') /\ migration_results w' = migration_results w.

(** The [for] loop of the aggregation pass as it runs on a dict that stays
    as it is: item by item, in order. *)
Fixpoint aggregate_items (items : list (string * PyResult))
    (evaluations : gmap string EvalRecord) : M (gmap string EvalRecord) :=
  match items with
  | [] => ret evaluations
  | (page, result) :: rest =>
      evaluations <- evaluate_page page result evaluations ;;
      aggregate_items rest evaluations
  end.

(** Each delay is the one before it times [f]. *)
Definition grows_by (f : Q) (ds : list Q) : Prop :=
  forall k d d', ds !! k = Some d -> ds !! S k = Some d' -> d' == d * f.

(** [n] delays from [wait], each [f] times the one before. *)
Fixpoint geometric (n : nat) (wait f : Q) : list Q :=
  match n with
  | O => []
  | S k => wait :: geometric k (wait * f) f
  end.

(** The record an item ends with. *)
Definition verdict (result : PyResult) : EvalRecord :=
  if eval_quota_signature (result_summary result)
     || eval_overloaded_signature (result_summary result)
  then deferred result else full_score result.

(** The factor by which the text of a result makes its delays grow. *)
Definition backoff_factor (result : PyResult) : option Q :=
  if eval_quota_signature (result_summary result) then Some 2%Q
  else if eval_overloaded_signature (result_summary result) then Some (3 # 2)%Q
  else None.

(* ===================================================================== *)
(** * Sample inputs *)
(* ===================================================================== *)

Module Sample.

Definition dq : string := String (ascii_of_N 34) "".

Definition quote (s : string) : string := dq +:+ s +:+ dq.

Definition decimal (z : Z) : string := NilEmpty.string_of_int (Z.to_int z).

(** A printer of JSON text, enough for the documents below. *)
Fixpoint dumps (v : PyVal) : string :=
  match v with
  | PStr s => quote s
  | PDict items =>
      "{" +:+
      (fix go (l : list (string * PyVal)) : string :=
         match l with
         | [] => ""
         | (k, x) :: r =>
             quote k +:+ ": " +:+ dumps x +:+
             match r with [] => "" | _ => ", " end +:+ go r
         end) items +:+ "}"
  | PList xs =>
      "[" +:+
      (fix go (l : list PyVal) : string :=
         match l with
         | [] => ""
         | x :: r => dumps x +:+ match r with [] => "" | _ => ", " end +:+ go r
         end) xs +:+ "]"
  | PAtom ANone => "null"
  | PAtom (ABool true) => "true"
  | PAtom (ABool false) => "false"
  | PAtom (AInt z) => decimal z
  | PAtom (AFloat q) => decimal (Qnum q) +:+ "/" +:+ decimal (Z.pos (Qden q))
  end.

Definition project_memory : PyVal :=
  PDict [("global_beans", PList [PStr "userBean"; PStr "dashboardBean"]);
         ("styles", PList [])].

Definition documents : list PyVal := [PDict []; project_memory].

(** A reader of the texts of [documents]. *)
Definition loads (text : string) : option PyVal :=
  List.find (fun v => String.eqb (dumps v) text) documents.

Definition ext : Externals :=
  {| json_dumps := dumps; json_loads := loads;
     clock := fun n => inject_Z (Z.of_nat n) |}.

Definition state : State :=
  {| sessions := ∅; sem_value := 2; metrics := PDict []; migration_results := [];
     script := []; ticks := 0; attempt := 0 |}.

(** Fails twice on quota, then succeeds. *)
Definition quota_then_ok : Runner :=
  fun n _ => if (n <=? 2)%nat then Raises "Quota exceeded" else Returns "ok".

(** Fails once on quota, then on an internal error every time. *)
Definition quota_then_internal : Runner :=
  fun n _ => if (n <=? 1)%nat then Raises "429 Too Many Requests"
             else Raises "Internal error".


(** A metrics file that holds a list. *)
Definition state_with_list_metrics : State :=
  {| sessions := ∅; sem_value := 2; metrics := PList []; migration_results := [];
     script := []; ticks := 0; attempt := 0 |}.

(** Fails every time. *)
Definition always_internal : Runner := fun _ _ => Raises "Internal error".

(** The aggregation pass about to begin after a cancelled run: one result
    in, its text with 429 in it, and a task left over that stores the
    result of another page while the pass sleeps for the first time. *)
Definition state_with_late_task : State :=
  {| sessions := ∅; sem_value := 2; metrics := PDict [];
     migration_results :=
       [("users.xhtml", ErrorResult "Max retries exceeded: 429 Too Many Requests")];
     script := [ {| ops := [OpStore "dashboard.xhtml" (ErrorResult "CANCELLED")];
                    interrupt := false |} ];
     ticks := 0; attempt := 0 |}.

Definition page_payload : PyVal :=
  PDict [("file_path", PStr "users.xhtml"); ("project_memory", project_memory)].

Definition page_source : PyVal :=
  PDict [("file_path", PStr "users.xhtml");
         ("page_content", PStr "<h:form id='users'><p:dataTable value='#{userBean.users}'/></h:form>")].

(** The session ["run"] paused, and an operator who cancels it during
    the second suspension of the waiting task. *)
Definition paused_state : State :=
  {| sessions := SessionManager.pause "run" (SessionManager.create_session "run" ∅);
     sem_value := 2; metrics := PDict []; migration_results := [];
     script := [ {| ops := [OpCreate "other"]; interrupt := false |};
                 {| ops := [OpCancel "run"; OpPause "run"]; interrupt := false |} ];
     ticks := 0; attempt := 0 |}.

End Sample.

(* ===================================================================== *)
(** * A2AMessenger *)
(* ===================================================================== *)

(** The named queues: each an unbounded [asyncio.Queue], here the list of
    its items, oldest first. *)
Module A2AMessenger.

Abbreviation t := (gmap string (list PyVal)).

(** [get_queue(name)]: the queue is made on first use. *)
Definition get_queue (name : string) (self : t) : t :=
  match self !! name with
  | Some _ => self
  | None => <[name := []]> self
  end.

(** The items of [self.queues[name]], none when there is no such queue. *)
Definition items (name : string) (self : t) : list PyVal :=
  default [] (self !! name).

(** [send(name, msg)]: [put] on an unbounded queue returns at once. *)
Definition send (name : string) (msg : PyVal) (self : t) : t :=
  let self := get_queue name self in
  <[name := items name self ++ [msg]]> self.

(** What another task does to the queues. *)
Inductive QueueOp :=
| Puts (name : string) (msg : PyVal)     (* a [send] *)
| Gets (name : string).                  (* a [recv] that finds an item *)

Definition queue_op (self : t) (op : QueueOp) : t :=
  match op with
  | Puts name msg => send name msg self
  | Gets name =>
      let self := get_queue name self in
      match items name self with
      | [] => self
      | _ :: rest => <[name := rest]> self
      end
  end.

(** One suspension of the receiving task: what the other tasks do
    meanwhile, and whether the timeout elapses before the task gets an
    item. *)
Record Wait := { others : list QueueOp; timer : bool }.

(** What [recv] comes to. *)
Inductive Received :=
| Message (msg : PyVal)      (* the item taken *)
| NoMessage                  (* [None], after [asyncio.TimeoutError] *)
| Waiting.                   (* the task stays suspended *)

(** [q.get()] on an empty queue: the task waits until it finds an item
    after one of its suspensions; with [timed] the wait ends when the
    timeout elapses. *)
Fixpoint await_item (name : string) (timed : bool) (script : list Wait) (self : t)
  : Received * t * list Wait :=
  match script with
  | [] => (Waiting, self, [])
  | w :: rest =>
      let self := fold_left queue_op (others w) self in
      if timed && timer w then (NoMessage, self, rest)
      else match items name self with
           | x :: r => (Message x, <[name := r]> self, rest)
           | [] => await_item name timed rest self
           end
  end.

(** [if timeout:] for a timeout that is [None] or a number. *)
Definition truthy (timeout : option Q) : bool :=
  match timeout with
  | Some seconds => negb (Qeq_bool seconds 0)
  | None => false
  end.

(** A timeout that is a number below zero. *)
Definition negative (timeout : option Q) : bool :=
  match timeout with
  | Some seconds => Qle_bool seconds 0 && negb (Qeq_bool seconds 0)
  | None => false
  end.

(** [recv(name, timeout)]. An item that is there is taken at once.
    Otherwise the task waits, with [asyncio.wait_for] when [timeout] is
    truthy and without a timeout when it is [None] or [0]. For a positive
    timeout [q.get()] is awaited in the task itself. For a negative one
    [wait_for], as Python runs it up to version 3.11, cancels [q.get()]
    before it has run and waits for the cancellation: [None] is returned
    after one suspension, and an item that was there stays queued. *)
Definition recv (name : string) (timeout : option Q) (script : list Wait) (self : t)
  : Received * t * list Wait :=
  let self := get_queue name self in
  if negative timeout then
    match script with
    | [] => (NoMessage, self, [])
    | w :: rest => (NoMessage, fold_left queue_op (others w) self, rest)
    end
  else
    match items name self with
    | x :: r => (Message x, <[name := r]> self, script)
    | [] => await_item name (truthy timeout) script self
    end.

(** [recv] called [n] times in a row, as long as it returns. *)
Fixpoint recv_many (name : string) (timeout : option Q) (n : nat)
    (script : list Wait) (self : t) : list Received * t * list Wait :=
  match n with
  | O => ([], self, script)
  | S k =>
      match recv name timeout script self with
      | (Waiting, self', script') => ([Waiting], self', script')
      | (r, self', script') =>
          let '(rs, self'', script'') := recv_many name timeout k script' self' in
          (r :: rs, self'', script'')
      end
  end.

End A2AMessenger.

(* ===================================================================== *)
(** * More words of the source's behaviour *)
(* ===================================================================== *)

(** ** The session registry *)

(** The ids that the operations of [l] create. *)
Definition created_ids (l : list EnvOp) : gset string :=
  list_to_set (omap (fun op => match op with OpCreate s => Some s | _ => None end) l).

(** The operation is one on the session [sid]. *)
Definition names_session (sid : string) (op : EnvOp) : bool :=
  match op with
  | OpCreate s | OpPause s | OpResume s | OpCancel s => String.eqb s sid
  | OpSemAcquire | OpSemRelease | OpStore _ _ => false
  end.

(** The flag [paused] and the gate of a session agree: a closed gate
    belongs to a paused session, and a paused session that was not
    cancelled has its gate closed. *)
Definition gate_matches_paused (s : Session) : Prop :=
  (ev_value (pause_event s) = false -> paused s = true)
  /\ (cancel s = false -> paused s = true -> ev_value (pause_event s) = false).

(** ** The retrying executor *)

(** The attempt numbers of the [start_attempt] records, in order. *)
Definition starts (tr : list Effect) : list nat :=
  omap (fun e => match e with EvLog (start_attempt _ a) => Some a | _ => None end) tr.

(** The payloads of the calls made, in order. *)
Definition calls (tr : list Effect) : list string :=
  omap (fun e => match e with EvCall p => Some p | _ => None end) tr.

(** The message is one the executor retries on. *)
Definition retriable (msg : string) : bool :=
  quota_signature (PyStr.lower msg) || transient_signature (PyStr.lower msg).

(** What the retry policy comes to for a runner, when nobody interferes:
    the result of the first call that returns; the message of the first
    failure that is not retried; or, after [remaining] calls retried, the
    exhaustion message with the last failure. [a] calls were made before.
    There is no outcome when a call raises what is not an [Exception] or
    never comes back. *)
Fixpoint policy_outcome (runner : Runner) (payload_str : string)
    (remaining a : nat) (last_exc : option string) : option PyResult :=
  match remaining with
  | O => Some (ErrorResult ("Max retries exceeded: " +:+ str_last_exc last_exc))
  | S r =>
      match runner (S a) payload_str with
      | Returns text => Some (RunnerResult text)
      | Raises msg =>
          if retriable msg then policy_outcome runner payload_str r (S a) (Some msg)
          else Some (ErrorResult msg)
      | Aborts | Stalls => None
      end
  end.

(** What the executor makes of the outcome [v] of the retry policy with
    the metrics document [m]: a runner's result that cannot be counted
    becomes the error of the bookkeeping. *)
Definition counted_result (m : PyVal) (v : PyResult) : PyResult :=
  match v with
  | RunnerResult text =>
      match bump m with
      | Done _ => RunnerResult text
      | Fails e => ErrorResult e
      end
  | ErrorResult msg => ErrorResult msg
  end.

(** While the task is suspended nobody pauses or cancels [sid] and nothing
    is thrown into the task. *)
Definition undisturbed (sid : string) (sc : list Sched) : Prop :=
  Forall (fun b => interrupt b = false /\
                   forall op, In op (ops b) -> op <> OpPause sid /\ op <> OpCancel sid) sc.

(** The session [sid] is there, its gate open, and it is not cancelled. *)
Definition running (sid : string) (sm : gmap string Session) : Prop :=
  exists s, sm !! sid = Some s /\ ev_value (pause_event s) = true /\ cancel s = false.

(** The task of [sid] can go on, now and after every suspension to come. *)
Definition at_work (sid : string) (w : State) : Prop :=
  running sid (sessions w) /\ undisturbed sid (script w).

(** What the executor does after the [error] record of a failure with the
    message [msg] in attempt [a], as the specification has it: a
    quota-class message logs [quota_backoff] and sleeps; a transient-class
    message sleeps; any other logs [non_retriable]. *)
Definition reaction (cfg : Config) (label : string) (a : nat) (msg : string) : list Effect :=
  if quota_signature (PyStr.lower msg) then
    [EvLog (quota_backoff label a (quota_wait cfg a)); EvSleep (quota_wait cfg a)]
  else if transient_signature (PyStr.lower msg) then
    [EvSleep (transient_wait cfg a)]
  else
    [EvLog (non_retriable label msg)].

(** The trace [tr] shows attempt [a]: the first [a - 1] calls, then the
    [start_attempt] record and the call of attempt [a], then [seg]. *)
Definition attempt_shows (label payload_str : string) (tr : list Effect) (a : nat)
    (seg : list Effect) : Prop :=
  exists pre post,
    tr = pre ++ [EvLog (start_attempt label a); EvCall payload_str] ++ seg ++ post
    /\ List.length (calls pre) = (a - 1)%nat.

(** ** Payload compaction *)

(** Every string that is a value of [v] (not a key) has at most [m + 14]
    characters and every list at most 51 elements. *)
Fixpoint bounded (m : Z) (v : PyVal) : Prop :=
  match v with
  | PStr s => (Z.of_nat (String.length s) <= m + 14)%Z
  | PDict items =>
      (fix all (l : list (string * PyVal)) : Prop :=
         match l with
         | [] => True
         | (_, x) :: r => bounded m x /\ all r
         end) items
  | PList xs =>
      (List.length xs <= 51)%nat /\
      (fix all (l : list PyVal) : Prop :=
         match l with
         | [] => True
         | x :: r => bounded m x /\ all r
         end) xs
  | PAtom _ => True
  end.

(** Nothing of [v] is over the budget it meets: every string is within the
    budget of its place, every list has at most 50 elements. *)
Fixpoint fits (m : Z) (v : PyVal) : Prop :=
  match v with
  | PStr s => (Z.of_nat (String.length s) <= m)%Z
  | PDict items =>
      (fix all (l : list (string * PyVal)) : Prop :=
         match l with
         | [] => True
         | (k, x) :: r => fits (budget k m) x /\ all r
         end) items
  | PList xs =>
      (List.length xs <= 50)%nat /\
      (fix all (l : list PyVal) : Prop :=
         match l with
         | [] => True
         | x :: r => fits m x /\ all r
         end) xs
  | PAtom _ => True
  end.

(** ** The aggregation pass *)

Definition Qsum (l : list Q) : Q := fold_right Qplus 0%Q l.

(** What the delays of an item add up to. *)
Definition item_delay (result : PyResult) : Q :=
  match backoff_factor result with
  | Some f => Qsum (geometric 5 30 f)
  | None => 0
  end.

(* ===================================================================== *)
(** * Strings: substring tests *)
(* ===================================================================== *)

Section Strings.

Import PyStr.

Lemma lower_app a b : lower (a +:+ b) = lower a +:+ lower b.
Proof. induction a as [|c a IH]; simpl; [reflexivity | now rewrite IH]. Qed.

Lemma lower_length s : String.length (lower s) = String.length s.
Proof. induction s as [|c s IH]; simpl; [reflexivity | now rewrite IH]. Qed.

Lemma lower_app_inv s a b :
  lower s = a +:+ b -> exists s1 s2, s = s1 +:+ s2 /\ lower s1 = a /\ lower s2 = b.
Proof.
  revert s. induction a as [|c a IH]; intros s H.
  - exists "", s. auto.
  - destruct s as [|d s]; simpl in H; [discriminate|].
    injection H as Hc Hr. destruct (IH _ Hr) as (s1 & s2 & -> & H1 & H2).
    exists (String d s1), s2. simpl. rewrite Hc, H1. auto.
Qed.

Lemma startswith_app p s : startswith p (p +:+ s) = true.
Proof.
  induction p as [|c p IH]; simpl; [reflexivity|].
  now rewrite Ascii.eqb_refl, IH.
Qed.

Lemma startswith_inv p s : startswith p s = true -> exists r, s = p +:+ r.
Proof.
  revert s. induction p as [|c p IH]; intros s H.
  - exists s. reflexivity.
  - destruct s as [|d s]; simpl in H; [discriminate|].
    apply andb_true_iff in H as [Hc Hp]. apply Ascii.eqb_eq in Hc as ->.
    destruct (IH _ Hp) as [r ->]. exists r. reflexivity.
Qed.

Lemma contains_startswith needle hay :
  startswith needle hay = true -> contains needle hay = true.
Proof. intros H. destruct hay; simpl; rewrite H; reflexivity. Qed.

(** [needle in hay] is exactly: [hay] is some text, [needle], some text. *)
Lemma contains_spec needle hay :
  contains needle hay = true <-> exists pre post, hay = pre +:+ needle +:+ post.
Proof.
  split.
  - induction hay as [|c hay IH]; simpl; intros H.
    + rewrite orb_false_r in H. apply startswith_inv in H as [r Hr].
      exists "", r. exact Hr.
    + apply orb_true_iff in H as [H|H].
      * apply startswith_inv in H as [r Hr]. exists "", r. exact Hr.
      * destruct (IH H) as (pre & post & ->). exists (String c pre), post. reflexivity.
  - intros (pre & post & ->). induction pre as [|c pre IH].
    + apply contains_startswith. apply (startswith_app needle post).
    + change (String c pre +:+ needle +:+ post) with (String c (pre +:+ needle +:+ post)).
      simpl. rewrite IH. apply orb_true_r.
Qed.

(** The test the code makes, [sig in msg.lower()], against the words
    "case-insensitive substring". *)
Lemma contains_lower_iff sig msg :
  contains sig (lower msg) = true <-> ci_substring sig msg.
Proof.
  rewrite contains_spec. split.
  - intros (p & q & H).
    apply lower_app_inv in H as (s1 & s2 & -> & <- & H2).
    apply lower_app_inv in H2 as (s3 & s4 & -> & <- & _).
    exists s1, s3, s4. auto.
  - intros (pre & mid & post & -> & <-).
    exists (lower pre), (lower post). now rewrite !lower_app.
Qed.

End Strings.

Lemma quota_signature_iff msg :
  quota_signature (PyStr.lower msg) = true <-> quota_class msg.
Proof.
  unfold quota_signature, quota_class. rewrite !orb_true_iff, !contains_lower_iff.
  split.
  - intros [[[H|H]|H]|H]; eexists; (split; [|exact H]); simpl; tauto.
  - intros (sig & Hin & H). simpl in Hin.
    destruct Hin as [<-|[<-|[<-|[<-|[]]]]]; tauto.
Qed.

Lemma transient_signature_iff msg :
  transient_signature (PyStr.lower msg) = true <-> transient_class msg.
Proof.
  unfold transient_signature, transient_class. rewrite !orb_true_iff, !contains_lower_iff.
  split.
  - intros [[H|H]|H]; eexists; (split; [|exact H]); simpl; tauto.
  - intros (sig & Hin & H). simpl in Hin.
    destruct Hin as [<-|[<-|[<-|[]]]]; tauto.
Qed.

(* ===================================================================== *)
(** * The retrying executor: what an invocation emits *)
(* ===================================================================== *)

Lemma run_ops_attempt l w : attempt (run_ops l w) = attempt w.
Proof.
  revert w. induction l as [|op l IH]; intros w; [reflexivity|].
  unfold run_ops in *. simpl. rewrite IH. destruct op; reflexivity.
Qed.

Lemma run_ops_metrics l w : metrics (run_ops l w) = metrics w.
Proof.
  revert w. induction l as [|op l IH]; intros w; [reflexivity|].
  change (run_ops (op :: l) w) with (run_ops l (run_op w op)).
  rewrite IH. destruct op; reflexivity.
Qed.

Lemma block_on_inv ready sc w r w' :
  block_on ready sc w = (r, w') ->
  attempt w' = attempt w /\ (r = Ok tt \/ r = Hang \/ r = Raise BaseException).
Proof.
  revert w. induction sc as [|b sc IH]; intros w; simpl.
  - intros [= <- <-]. auto.
  - destruct (interrupt b).
    + intros [= <- <-]. simpl. rewrite run_ops_attempt. auto.
    + destruct (ready _).
      * intros [= <- <-]. simpl. rewrite run_ops_attempt. auto.
      * intros E. apply IH in E as [-> E]. simpl. rewrite run_ops_attempt. auto.
Qed.

Lemma block_on_metrics ready sc w r w' :
  block_on ready sc w = (r, w') ->
  metrics w' = metrics w /\ (r = Ok tt \/ r = Hang \/ r = Raise BaseException).
Proof.
  revert w. induction sc as [|b sc IH]; intros w; simpl.
  - intros [= <- <-]. auto.
  - destruct (interrupt b).
    + intros [= <- <-]. simpl. rewrite run_ops_metrics. auto.
    + destruct (ready _).
      * intros [= <- <-]. simpl. rewrite run_ops_metrics. auto.
      * intros E. apply IH in E as [-> E]. simpl. rewrite run_ops_metrics. auto.
Qed.

Lemma block_on_keeps ready sc w r w' :
  block_on ready sc w = (r, w') ->
  attempt w' = attempt w /\ metrics w' = metrics w
  /\ (r = Ok tt \/ r = Hang \/ r = Raise BaseException).
Proof.
  intros E. destruct (block_on_inv _ _ _ _ _ E) as [Ha Hr].
  destruct (block_on_metrics _ _ _ _ _ E) as [Hm _]. auto.
Qed.

Lemma block_on_never sc : forall w r w',
  block_on (fun _ => false) sc w = (r, w') -> r = Hang \/ r = Raise BaseException.
Proof.
  induction sc as [|b sc IH]; intros w r w'; simpl.
  - intros [= <- <-]. auto.
  - destruct (interrupt b); [intros [= <- <-]; auto | apply IH].
Qed.

(** ** The bookkeeping of a success *)

Lemma dict_get_set_eq {V} k (v : V) d : dict_get k (dict_set k v d) = Some v.
Proof.
  induction d as [|[k' v'] r IH]; cbn.
  - now rewrite String.eqb_refl.
  - destruct (String.eqb k k') eqn:E; cbn; rewrite E; [reflexivity | exact IH].
Qed.

Lemma dict_get_set_ne {V} k k' (v : V) d :
  k' <> k -> dict_get k' (dict_set k v d) = dict_get k' d.
Proof.
  intros Hne. induction d as [|[k2 v2] r IH]; cbn.
  - destruct (String.eqb_spec k' k); [contradiction | reflexivity].
  - destruct (String.eqb_spec k k2) as [->|Hk]; cbn.
    + destruct (String.eqb_spec k' k2); [contradiction | reflexivity].
    + now rewrite IH.
Qed.

Lemma dict_set_set {V} k (v v' : V) d : dict_set k v' (dict_set k v d) = dict_set k v' d.
Proof.
  induction d as [|[k2 v2] r IH]; cbn.
  - now rewrite String.eqb_refl.
  - destruct (String.eqb k k2) eqn:E; cbn; rewrite E; [reflexivity | now rewrite IH].
Qed.

Lemma record_success_spec w :
  record_success w
  = match bump (metrics w) with
    | Done m => (Ok tt, with_metrics m w, [])
    | Fails e => (Raise (Exception e), w, [])
    end.
Proof.
  unfold record_success, update_metric, load_metrics, lift, bind, get, modify, ret, raise, bump.
  cbn. destruct (metrics w) as [s|items|xs|a] eqn:Em; cbn; try reflexivity.
  - destruct (dict_get "successful_runs" items) as [v|] eqn:Eg; cbn.
    + rewrite Eg. cbn. destruct (py_add_one v) as [v'|e]; cbn; [|reflexivity].
      rewrite Em. reflexivity.
    + rewrite dict_get_set_eq. cbn. rewrite Em. reflexivity.
Qed.

(** The exceptions of the bookkeeping carry none of the signatures that
    the executor retries on. *)
Lemma bump_fails_fatal m e :
  bump m = Fails e ->
  quota_signature (PyStr.lower e) = false /\ transient_signature (PyStr.lower e) = false.
Proof.
  unfold bump. destruct m as [s|items|xs|a].
  - intros [= <-]. split; reflexivity.
  - destruct (dict_get "successful_runs" items) as [[s|its|xs|[|b|z|q]]|];
      cbn; intros [= <-]; split; vm_compute; reflexivity.
  - intros [= <-]. split; reflexivity.
  - destruct a; intros [= <-]; split; reflexivity.
Qed.

Arguments bump : simpl never.
Arguments record_success : simpl never.

(** One case distinction on what the code branches on next. *)
Ltac case_step runner :=
  match goal with
  | |- context [match script ?w with _ => _ end] => destruct (script w) as [|? ?] eqn:?
  | |- context [match ?l with [] => _ | _ :: _ => _ end] => is_var l; destruct l as [|? ?]
  | |- context [if interrupt ?b then _ else _] => destruct (interrupt b) eqn:?
  | |- context [if quota_signature ?s then _ else _] => destruct (quota_signature s) eqn:?
  | |- context [if transient_signature ?s then _ else _] =>
      destruct (transient_signature s) eqn:?
  | |- context [match runner ?n ?p with _ => _ end] => destruct (runner n p) eqn:?
  | |- context [match SessionManager.get_event ?s ?m with _ => _ end] =>
      destruct (SessionManager.get_event s m) as [?|] eqn:?
  | |- context [if ev_value ?e then _ else _] => destruct (ev_value e) eqn:?
  | |- context [block_on (fun _ => false) ?sc ?w] =>
      let E := fresh "Ew" in
      destruct (block_on (fun _ => false) sc w) as [? ?] eqn:E;
      let H := fresh in
      pose proof (block_on_never _ _ _ _ E) as H;
      apply block_on_keeps in E as (? & ? & _); destruct H; simplify_eq
  | |- context [block_on ?r ?sc ?w] =>
      let E := fresh "Eb" in
      destruct (block_on r sc w) as [[?| ? |] ?] eqn:E;
      apply block_on_keeps in E as (? & ? & [?|[?|?]]); simplify_eq
  | |- context [if SessionManager.is_cancelled ?s ?m then _ else _] =>
      destruct (SessionManager.is_cancelled s m) eqn:?
  | |- context [record_success ?x] => rewrite (record_success_spec x)
  | |- context [bump ?m] => let E := fresh "Ebump" in destruct (bump m) as [?|?] eqn:E
  end; cbn.

Section Executor.

Context (cfg : Config) (ext : Externals) (runner : Runner) (label : string).

Lemma attempt_once_trace payload_str session w r w' tr :
  attempt_once cfg ext runner payload_str label session w = (r, w', tr) ->
  AttemptTrace cfg label payload_str (metrics_sound (metrics w)) (S (attempt w)) r tr
  /\ attempt w' = S (attempt w)
  /\ counted (metrics w) r (metrics w').
Proof.
  unfold attempt_once, try_except, call_runner, handle_failure, run_debug, wait_forever,
    wait_pause_event, sleep, suspend, now_ts, write_log, emit, raise,
    bind, get, modify, ret, metrics_sound, counted.
  cbn. repeat case_step runner.
  all: intros E; inversion E; subst; clear E; cbn in *.
  all: rewrite ?run_ops_metrics in *; cbn in *; rewrite ?run_ops_metrics in *; cbn in *.
  all: repeat match goal with
       | H : metrics ?x = metrics _ |- _ => rewrite H in *; clear H
       end.
  all: try match goal with
       | H : bump _ = Fails _ |- _ =>
           let Hq := fresh in let Ht := fresh in
           destruct (bump_fails_fatal _ _ H) as [Hq Ht]; try congruence
       end.
  all: repeat match goal with
       | H : bump _ = _ |- _ => rewrite H in *
       end.
  all: split; [ | split; [ rewrite ?run_ops_attempt in *; cbn in *;
                           rewrite ?run_ops_attempt in *; cbn in *; congruence
                         | try reflexivity; try congruence ] ].
  all: first [ apply AT_cancelled
             | apply AT_success; reflexivity
             | apply AT_uncounted; auto; fail
             | apply AT_aborted; auto; fail
             | apply AT_not_started; auto; fail
             | apply AT_quota; auto; fail
             | apply AT_transient; auto; fail
             | apply AT_fatal; auto; fail ].
Qed.

Lemma retry_loop_trace payload_str session n : forall last w r w' tr,
  retry_loop cfg ext runner payload_str label session n last w = (r, w', tr) ->
  LoopTrace cfg label payload_str (metrics_sound (metrics w)) (attempt w) n r tr (attempt w').
Proof.
  induction n as [|n IH]; intros last w r w' tr; cbn [retry_loop].
  - unfold bind, write_log, emit, ret. cbn. intros [= <- <- <-]. constructor.
  - unfold bind at 1.
    destruct (attempt_once _ _ _ _ _ _ w) as [[[ctl|e|] w1] t1] eqn:E1;
      apply attempt_once_trace in E1 as (Hat & Ha & Hm).
    + destruct ctl as [v|msg].
      * unfold ret. cbn. intros [= <- <- <-]. rewrite app_nil_r, Ha.
        now apply LT_return.
      * destruct (retry_loop _ _ _ _ _ _ n (Some msg) w1) as [[r2 w2] t2] eqn:E2.
        intros [= <- <- <-]. apply IH in E2. cbn in Hm. rewrite Ha, Hm in E2.
        eapply LT_continue; eauto.
    + intros [= <- <- <-]. rewrite Ha.
      assert (e = BaseException) as ->.
      { inversion Hat; subst; intuition congruence. }
      now apply LT_raise.
    + intros [= <- <- <-]. rewrite Ha. now apply LT_hang.
Qed.

Ltac loop_step :=
  match goal with |- context [retry_loop ?a ?b ?c ?d ?e ?f ?g ?h ?i] =>
    let E := fresh "E" in
    destruct (retry_loop a b c d e f g h i) as [[[?|?|] ?] ?] eqn:E;
    apply retry_loop_trace in E; cbn in E
  end.

Lemma observe_run_trace payload session_id semaphore w r w' tr :
  observe_run cfg ext runner payload label session_id semaphore w = (r, w', tr) ->
  RunTrace cfg label (payload_string ext payload) (metrics_sound (metrics w)) semaphore
    (clock ext (Nat.pred (ticks w')) - clock ext (ticks w)) (attempt w') r tr.
Proof.
  unfold observe_run, try_finally, sem_acquire, sem_release, now_ts, write_log, emit,
    bind, get, modify, ret.
  destruct semaphore as [[]|]; cbn.
  - destruct (sem_value w) as [|k] eqn:Hs; cbn.
    + match goal with |- context [block_on ?r ?sc ?w] =>
        destruct (block_on r sc w) as [[?| ? |] ?] eqn:Eb;
        apply block_on_keeps in Eb as (Ha & Hm & [?|[?|?]]); simplify_eq end; cbn in *.
      * loop_step; cbn; intros [= <- <- <-]; cbn; rewrite Ha, Hm in *.
        -- now apply (RT_finished _ _ _ _ (Some Limiter)).
        -- now apply (RT_finished _ _ _ _ (Some Limiter)).
        -- now apply (RT_suspended _ _ _ _ (Some Limiter)).
      * intros [= <- <- <-]. apply RT_not_entered; auto.
      * intros [= <- <- <-]. apply RT_not_entered; auto.
    + loop_step; cbn; intros [= <- <- <-]; cbn.
      * now apply (RT_finished _ _ _ _ (Some Limiter)).
      * now apply (RT_finished _ _ _ _ (Some Limiter)).
      * now apply (RT_suspended _ _ _ _ (Some Limiter)).
  - loop_step; cbn; intros [= <- <- <-]; cbn.
    + now apply (RT_finished _ _ _ _ None).
    + now apply (RT_finished _ _ _ _ None).
    + now apply (RT_suspended _ _ _ _ None).
Qed.

End Executor.

(* ===================================================================== *)
(** * compact_context: the code against the words *)
(* ===================================================================== *)

Lemma well_formed_dict items :
  well_formed (PDict items) <->
  List.NoDup (map fst items) /\ Forall (fun kv => well_formed (snd kv)) items.
Proof.
  simpl. apply and_iff_compat_l.
  induction items as [|[k v] r IH].
  - split; [constructor | auto].
  - rewrite Forall_cons, IH. reflexivity.
Qed.

Lemma well_formed_list xs :
  well_formed (PList xs) <-> Forall well_formed xs.
Proof.
  simpl. induction xs as [|x r IH].
  - split; [constructor | auto].
  - rewrite Forall_cons, IH. reflexivity.
Qed.

Lemma dict_set_fresh {V} k (v : V) d :
  ~ In k (map fst d) -> dict_set k v d = d ++ [(k, v)].
Proof.
  induction d as [|[k' v'] r IH]; simpl; intros H; [reflexivity|].
  destruct (String.eqb_spec k k') as [->|Hne]; [tauto|].
  rewrite IH; [reflexivity | tauto].
Qed.

Lemma dict_loop_fresh f items : forall out,
  List.NoDup (map fst out ++ map fst items) ->
  dict_loop f items out = out ++ map (fun kv => (fst kv, f (fst kv) (snd kv))) items.
Proof.
  induction items as [|[k v] r IH]; intros out H; simpl.
  - now rewrite app_nil_r.
  - assert (Hk : ~ In k (map fst out)).
    { simpl in H. apply NoDup_remove_2 in H. rewrite in_app_iff in H. tauto. }
    rewrite dict_set_fresh by exact Hk.
    rewrite IH.
    + now rewrite <- app_assoc.
    + rewrite map_app. simpl. rewrite <- app_assoc. exact H.
  Qed.

Lemma map_first_firstn f n xs : map_first f n xs = map f (firstn n xs).
Proof.
  revert xs. induction n as [|n IH]; intros [|x r]; simpl; try reflexivity.
  now rewrite IH.
Qed.

Lemma compact_str_spec s m : Compacted m (PStr s) (compact_str s m).
Proof.
  unfold compact_str. destruct (Z.leb_spec (Z.of_nat (String.length s)) m).
  - now apply Compacted_short.
  - now apply Compacted_long.
Qed.


(* ===================================================================== *)
(** * Properties of the traces *)
(* ===================================================================== *)

Section Traces.
Context (cfg : Config) (label payload_str : string) (sound : bool).


Lemma followed_by_app t1 t2 x ys :
  followed_by t1 x ys -> followed_by t2 x ys -> followed_by (t1 ++ t2) x ys.
Proof.
  intros H1 H2 i Hi j y Hj.
  destruct (decide (i < length t1)%nat) as [Hlt|Hge].
  - rewrite lookup_app_l in Hi by exact Hlt.
    apply lookup_app_l_Some. eapply H1; eauto.
  - rewrite lookup_app_r in Hi by lia.
    rewrite lookup_app_r by lia.
    replace (i + 1 + j - length t1)%nat with (i - length t1 + 1 + j)%nat by lia.
    eapply H2; eauto.
Qed.

Lemma starts_app t1 t2 : starts (t1 ++ t2) = starts t1 ++ starts t2.
Proof. apply omap_app. Qed.

Lemma calls_app t1 t2 : calls (t1 ++ t2) = calls t1 ++ calls t2.
Proof. apply omap_app. Qed.

Ltac short_list i := destruct i as [|[|[|[|[|[|i]]]]]]; simplify_eq/=.


Lemma attempt_transient_followed a r tr :
  AttemptTrace cfg label payload_str sound a r tr -> transient_followed cfg label tr.
Proof.
  intros H b d msg Hq Ht i Hi j y Hj.
  inversion H; subst; short_list i; short_list j; try done; congruence.
Qed.





Lemma loop_transient_followed a n r tr a' :
  LoopTrace cfg label payload_str sound a n r tr a' -> transient_followed cfg label tr.
Proof.
  intros H; induction H as [a lst | a n v tr Hat | a n tr Hat | a n tr Hat | a n msg tr1 r tr2 a' Hat Hl IH]; eauto using attempt_transient_followed.
  - intros b d msg Hq Ht i Hi. destruct i as [|i]; simplify_eq/=.
  - intros b d m Hq Ht. apply followed_by_app; [eapply attempt_transient_followed|]; eauto.
Qed.




End Traces.

(* ===================================================================== *)
(** * The pause gate under pause, resume and cancel *)
(* ===================================================================== *)

Section Gate.
Context (sid : string) (e0 : nat).

Lemma gate_inv_step c w op :
  gate_inv sid e0 c (sessions w) ->
  gate_inv sid e0 (c || match op with OpCancel s => String.eqb s sid | _ => false end)
           (sessions (run_op w op)).
Proof.
  intros (s & Hs & Hle & Hv & Hc).
  assert (Hkeep : gate_inv sid e0 c (sessions w)) by (exists s; auto).
  destruct op as [x|x|x|x| | |pg rs]; cbn; rewrite ?orb_false_r; try exact Hkeep.
  - unfold SessionManager.create_session.
    destruct (sessions w !! x) eqn:Hx; [exact Hkeep|].
    destruct (decide (x = sid)) as [->|Hne]; [congruence|].
    exists s. rewrite lookup_insert_ne by exact Hne. auto.
  - unfold SessionManager.pause.
    destruct (sessions w !! x) as [sx|] eqn:Hx; [|exact Hkeep].
    destruct (decide (x = sid)) as [->|Hne].
    + rewrite Hs in Hx. injection Hx as <-.
      eexists. rewrite lookup_insert_eq. split; [reflexivity|]. cbn. auto.
    + exists s. rewrite lookup_insert_ne by exact Hne. auto.
  - unfold SessionManager.resume.
    destruct (sessions w !! x) as [sx|] eqn:Hx; [|exact Hkeep].
    destruct (decide (x = sid)) as [->|Hne].
    + rewrite Hs in Hx. injection Hx as <-.
      eexists. rewrite lookup_insert_eq. split; [reflexivity|]. cbn.
      unfold Event.set. destruct (ev_value (pause_event s)); cbn.
      * split_and!; auto. intros E. apply Hv in E. discriminate.
      * split; [lia|]. split; [lia|]. intros Hct. destruct (Hc Hct). split; [assumption|lia].
    + exists s. rewrite lookup_insert_ne by exact Hne. auto.
  - unfold SessionManager.cancel.
    destruct (String.eqb_spec x sid) as [->|Hne].
    + rewrite Hs, orb_true_r.
      eexists. rewrite lookup_insert_eq. split; [reflexivity|]. cbn.
      unfold Event.set. destruct (ev_value (pause_event s)); cbn.
      * assert (ev_epoch (pause_event s) <> e0) by (intros E; apply Hv in E; discriminate).
        split; [lia|]. split; [intros E; contradiction|]. intros _. split; [reflexivity|lia].
      * split; [lia|]. split; [lia|]. intros _. split; [reflexivity|lia].
    + rewrite orb_false_r.
      destruct (sessions w !! x) as [sx|] eqn:Hx; [|exact Hkeep].
      exists s. rewrite lookup_insert_ne by exact Hne. auto.
Qed.

Lemma gate_inv_run_ops l : forall c w,
  gate_inv sid e0 c (sessions w) ->
  gate_inv sid e0 (c || existsb (fun op => match op with OpCancel s => String.eqb s sid | _ => false end) l)
           (sessions (run_ops l w)).
Proof.
  induction l as [|op l IH]; intros c w H; cbn.
  - now rewrite orb_false_r.
  - rewrite orb_assoc. apply IH. now apply gate_inv_step.
Qed.
End Gate.

Section Cancel.
Context (sid : string).

Lemma quiet_keeps_blocked l : forall w e0,
  (forall op, In op l -> op <> OpResume sid /\ op <> OpCancel sid) ->
  (exists s, sessions w !! sid = Some s /\ ev_value (pause_event s) = false
             /\ ev_epoch (pause_event s) = e0) ->
  exists s, sessions (run_ops l w) !! sid = Some s /\ ev_value (pause_event s) = false
            /\ ev_epoch (pause_event s) = e0.
Proof.
  induction l as [|op l IH]; intros w e0 Hq H; [exact H|].
  cbn. apply IH; [intros o Ho; apply Hq; now right|].
  destruct H as (s & Hs & Hv & He).
  assert (Hop := Hq op (or_introl eq_refl)).
  destruct op as [x|x|x|x| | |pg rs]; cbn; try (exists s; now auto).
  - unfold SessionManager.create_session.
    destruct (sessions w !! x) eqn:Hx; [exists s; now auto|].
    destruct (decide (x = sid)) as [->|Hne]; [congruence|].
    exists s. rewrite lookup_insert_ne by exact Hne. auto.
  - unfold SessionManager.pause.
    destruct (sessions w !! x) as [sx|] eqn:Hx; [|exists s; now auto].
    destruct (decide (x = sid)) as [->|Hne].
    + rewrite Hs in Hx. injection Hx as <-.
      eexists. rewrite lookup_insert_eq. split; [reflexivity|]. cbn. auto.
    + exists s. rewrite lookup_insert_ne by exact Hne. auto.
  - assert (x <> sid) by (intros ->; tauto).
    unfold SessionManager.resume.
    destruct (sessions w !! x) as [sx|] eqn:Hx; [|exists s; now auto].
    exists s. rewrite lookup_insert_ne by assumption. auto.
  - assert (x <> sid) by (intros ->; tauto).
    unfold SessionManager.cancel.
    destruct (sessions w !! x) as [sx|] eqn:Hx; [|exists s; now auto].
    exists s. rewrite lookup_insert_ne by assumption. auto.
Qed.

Lemma cancel_in_batch l w s :
  sessions w !! sid = Some s -> ev_value (pause_event s) = false ->
  In (OpCancel sid) l ->
  exists s', sessions (run_ops l w) !! sid = Some s' /\ cancel s' = true
             /\ (ev_epoch (pause_event s) < ev_epoch (pause_event s'))%nat.
Proof.
  intros Hs Hv Hin.
  destruct (gate_inv_run_ops sid (ev_epoch (pause_event s)) l false w)
    as (s' & Hs' & _ & _ & Hc).
  { exists s. split_and!; auto. discriminate. }
  exists s'. split; [exact Hs'|]. apply Hc. cbn.
  apply existsb_exists. exists (OpCancel sid). split; [exact Hin|]. apply String.eqb_refl.
Qed.

Lemma block_on_cancelled quiet : forall w b rest s,
  sessions w !! sid = Some s -> ev_value (pause_event s) = false ->
  Forall (quiet_for sid) quiet ->
  In (OpCancel sid) (ops b) -> interrupt b = false ->
  exists w', block_on (woken sid (ev_epoch (pause_event s))) (quiet ++ b :: rest) w = (Ok tt, w')
             /\ SessionManager.is_cancelled sid (sessions w') = true
             /\ script w' = rest /\ attempt w' = attempt w /\ ticks w' = ticks w.
Proof.
  induction quiet as [|q quiet IH]; intros w b rest s Hs Hv Hq Hin Hint; cbn [app block_on].
  - rewrite Hint.
    destruct (cancel_in_batch (ops b) w s Hs Hv Hin) as (s' & Hs' & Hc & He).
    unfold woken, SessionManager.get_event. cbn [sessions with_script]. rewrite Hs'.
    apply Nat.ltb_lt in He. rewrite He.
    eexists. split; [reflexivity|]. cbn.
    unfold SessionManager.is_cancelled. rewrite Hs'.
    split_and!; auto using run_ops_attempt.
    clear. revert w. induction (ops b) as [|op l IH]; intros w; [reflexivity|].
    cbn. rewrite IH. destruct op; reflexivity.
  - inversion Hq as [|? ? [Hqi Hqo] Hq']; subst. rewrite Hqi.
    destruct (quiet_keeps_blocked (ops q) w (ev_epoch (pause_event s)) Hqo)
      as (s1 & Hs1 & Hv1 & He1); [exists s; now auto|].
    unfold woken at 1, SessionManager.get_event. cbn [sessions with_script].
    rewrite Hs1, He1, Nat.ltb_irrefl.
    destruct (IH (with_script (quiet ++ b :: rest) (run_ops (ops q) w)) b rest s1)
      as (w' & Hb & Hc & Hsc & Ha & Ht); auto.
    rewrite He1 in Hb. exists w'. split; [exact Hb|]. cbn in Ha, Ht.
    split_and!; auto.
    + rewrite Ha. apply run_ops_attempt.
    + rewrite Ht. clear. revert w. induction (ops q) as [|op l IH]; intros w; [reflexivity|].
      cbn. rewrite IH. destruct op; reflexivity.
Qed.
End Cancel.

(* ===================================================================== *)
(** * The aggregation pass: how an item is evaluated *)
(* ===================================================================== *)

Section Aggregation.

Lemma sleep_uninterrupted d w :
  uninterrupted (script w) ->
  exists w', sleep d w = (Ok tt, w', [EvSleep d]) /\ uninterrupted (script w').
Proof.
  unfold sleep, suspend, bind, emit. cbn. intros H.
  destruct (script w) as [|b rest] eqn:E; cbn.
  - exists w. split; [reflexivity|]. rewrite E. constructor.
  - inversion H as [|? ? Hb Hrest]; subst. rewrite Hb. cbn.
    eexists. split; [reflexivity|]. exact Hrest.
Qed.

Lemma bind_ok {A B} (m : M A) (k : A -> M B) w a w1 t1 r w2 t2 :
  m w = (Ok a, w1, t1) -> k a w1 = (r, w2, t2) -> bind m k w = (r, w2, t1 ++ t2).
Proof. intros H1 H2. unfold bind. now rewrite H1, H2. Qed.

Lemma sleeps_app t1 t2 : sleeps (t1 ++ t2) = sleeps t1 ++ sleeps t2.
Proof. unfold sleeps. apply omap_app. Qed.

Lemma grows_by_geometric n : forall wait f, grows_by f (geometric n wait f).
Proof.
  induction n as [|n IH]; intros wait f k d d' Hk Hk'; [discriminate|].
  destruct k as [|k]; cbn in *.
  - destruct n; cbn in *; [discriminate|]. simplify_eq. reflexivity.
  - eapply IH; eauto.
Qed.

Lemma length_geometric n wait f : length (geometric n wait f) = n.
Proof. revert wait. induction n; intros; cbn; auto. Qed.

Lemma evaluation_loop_backoff page result evs f n : forall retry wait w,
  backoff_factor result = Some f ->
  uninterrupted (script w) ->
  exists w' tr,
    evaluation_loop n retry wait page result evs w = (Ok evs, w', tr)
    /\ uninterrupted (script w')
    /\ sleeps tr = geometric n wait f.
Proof.
  unfold backoff_factor.
  induction n as [|n IH]; intros retry wait w Hf Hu; cbn [evaluation_loop].
  - exists w, []. auto.
  - destruct (eval_quota_signature (result_summary result)) eqn:Hq;
      [|destruct (eval_overloaded_signature (result_summary result)) eqn:Ho;
        [|discriminate]]; injection Hf as <-.
    + destruct (sleep_uninterrupted wait w Hu) as (w1 & Hs & Hu1).
      destruct (IH (S retry) (wait * 2)%Q w1) as (w2 & tr & Hl & Hu2 & Htr);
        [reflexivity | exact Hu1|].
      eexists _, _. split; [|split; [exact Hu2|]].
      * eapply bind_ok; [reflexivity|]. eapply bind_ok; [exact Hs | exact Hl].
      * rewrite !sleeps_app, Htr. reflexivity.
    + destruct (sleep_uninterrupted wait w Hu) as (w1 & Hs & Hu1).
      destruct (IH (S retry) (wait * (3 # 2))%Q w1) as (w2 & tr & Hl & Hu2 & Htr);
        [reflexivity | exact Hu1|].
      eexists _, _. split; [|split; [exact Hu2|]].
      * eapply bind_ok; [reflexivity|]. eapply bind_ok; [exact Hs | exact Hl].
      * rewrite !sleeps_app, Htr. reflexivity.
Qed.

Lemma evaluate_page_backoff page result evs f w :
  backoff_factor result = Some f ->
  uninterrupted (script w) ->
  exists w' tr,
    evaluate_page page result evs w
    = (Ok (match evs !! page with None => <[page := deferred result]> evs | Some _ => evs end),
       w', tr)
    /\ uninterrupted (script w')
    /\ sleeps tr = geometric 5 30 f.
Proof.
  intros Hf Hu. unfold evaluate_page.
  destruct (evaluation_loop_backoff page result evs f 5 0 30 w Hf Hu) as (w' & tr & Hl & Hu' & Htr).
  unfold bind. rewrite Hl. exists w', (tr ++ []).
  split; [|split; [exact Hu' | now rewrite app_nil_r]].
  destruct (evs !! page); reflexivity.
Qed.

Lemma evaluate_page_clean page result evs w :
  backoff_factor result = None ->
  evaluate_page page result evs w = (Ok (<[page := full_score result]> evs), w, []).
Proof.
  unfold backoff_factor, evaluate_page, bind. cbn [evaluation_loop].
  destruct (eval_quota_signature _); [discriminate|].
  destruct (eval_overloaded_signature _); [discriminate|]. intros _.
  unfold ret. now rewrite lookup_insert_eq.
Qed.

Lemma verdict_backoff result f :
  backoff_factor result = Some f -> verdict result = deferred result.
Proof.
  unfold backoff_factor, verdict.
  destruct (eval_quota_signature _); [reflexivity|].
  destruct (eval_overloaded_signature _); [reflexivity|discriminate].
Qed.

Lemma verdict_clean result :
  backoff_factor result = None -> verdict result = full_score result.
Proof.
  unfold backoff_factor, verdict.
  destruct (eval_quota_signature _); [discriminate|].
  destruct (eval_overloaded_signature _); [discriminate|reflexivity].
Qed.

Lemma evaluate_page_verdict page result evs w :
  uninterrupted (script w) -> evs !! page = None ->
  exists w' tr,
    evaluate_page page result evs w = (Ok (<[page := verdict result]> evs), w', tr)
    /\ uninterrupted (script w').
Proof.
  intros Hu Hnone. destruct (backoff_factor result) as [f|] eqn:Hf.
  - destruct (evaluate_page_backoff page result evs f w Hf Hu) as (w' & tr & He & Hu' & _).
    rewrite Hnone in He. rewrite (verdict_backoff _ _ Hf). eauto.
  - rewrite (evaluate_page_clean _ _ _ _ Hf), (verdict_clean _ Hf). eauto.
Qed.

Lemma aggregate_verdicts items : forall evs w,
  List.NoDup (map fst items) ->
  (forall p, In p (map fst items) -> evs !! p = None) ->
  uninterrupted (script w) ->
  exists evs' w' tr,
    aggregate_items items evs w = (Ok evs', w', tr)
    /\ (forall page result, In (page, result) items -> evs' !! page = Some (verdict result))
    /\ (forall p, ~ In p (map fst items) -> evs' !! p = evs !! p).
Proof.
  induction items as [|[page result] rest IH]; intros evs w Hnd Hfresh Hu; cbn [aggregate_items].
  - exists evs, w, []. split; [reflexivity|]. split; [intros ? ? []|auto].
  - inversion Hnd as [|? ? Hnotin Hnd']; subst.
    destruct (evaluate_page_verdict page result evs w Hu) as (w1 & t1 & He & Hu1).
    { apply Hfresh. now left. }
    destruct (IH (<[page := verdict result]> evs) w1 Hnd') as (evs' & w2 & t2 & Ha & Hin & Hout).
    { intros p Hp. rewrite lookup_insert_ne; [apply Hfresh; now right|].
      intros ->. contradiction. }
    { exact Hu1. }
    unfold bind. rewrite He, Ha. exists evs', w2, (t1 ++ t2).
    split; [reflexivity|]. split.
    + intros p r [[= <- <-]|Hr]; [|now apply Hin].
      rewrite Hout by exact Hnotin. apply lookup_insert_eq.
    + intros p Hp. cbn in Hp. rewrite Hout by tauto.
      apply lookup_insert_ne. intros ->. apply Hp. now left.
Qed.

(** ** The loop over the dict, when no task stores a result meanwhile *)

Lemma run_ops_results l : forall w,
  (forall op, In op l -> forall page result, op <> OpStore page result) ->
  migration_results (run_ops l w) = migration_results w.
Proof.
  induction l as [|op l IH]; intros w Hl; [reflexivity|].
  change (run_ops (op :: l) w) with (run_ops l (run_op w op)).
  rewrite IH by (intros o Ho; apply Hl; now right).
  destruct op; try reflexivity. now destruct (Hl _ (or_introl eq_refl) page result).
Qed.

Lemma keeps_ret {A} (a : A) : keeps_results (ret a).
Proof. intros w r w' tr [= <- <- <-]. auto. Qed.

Lemma keeps_write_log e : keeps_results (write_log e).
Proof. intros w r w' tr [= <- <- <-]. auto. Qed.

Lemma keeps_bind {A B} (m : M A) (k : A -> M B) :
  keeps_results m -> (forall a, keeps_results (k a)) -> keeps_results (bind m k).
Proof.
  intros Hm Hk w r w' tr. unfold bind.
  destruct (m w) as [[[a|e|] w1] t1] eqn:E1; intros Hr Hn;
    destruct (Hm _ _ _ _ E1 Hn) as [Hn1 Hm1].
  - destruct (k a w1) as [[r2 w2] t2] eqn:E2. injection Hr as <- <- <-.
    destruct (Hk a _ _ _ _ E2 Hn1) as [Hn2 Hm2]. split; congruence.
  - injection Hr as <- <- <-. auto.
  - injection Hr as <- <- <-. auto.
Qed.

Lemma keeps_sleep d : keeps_results (sleep d).
Proof.
  intros w r w' tr. unfold sleep, suspend, bind, emit. cbn.
  destruct (script w) as [|b rest] eqn:E; cbn.
  - intros [= <- <- <-] H. rewrite E. auto.
  - intros Hr H. inversion H as [|? ? Hb Hrest]; subst.
    destruct (interrupt b); injection Hr as <- <- <-; cbn;
      (split; [exact Hrest | now apply run_ops_results]).
Qed.

Lemma keeps_evaluation_loop page result evs n : forall retry wait,
  keeps_results (evaluation_loop n retry wait page result evs).
Proof.
  induction n as [|n IH]; intros retry wait; cbn [evaluation_loop].
  - apply keeps_ret.
  - destruct (eval_quota_signature _); [|destruct (eval_overloaded_signature _)].
    + apply keeps_bind; [apply keeps_write_log|]; intros _.
      apply keeps_bind; [apply keeps_sleep|]; intros _. apply IH.
    + apply keeps_bind; [apply keeps_write_log|]; intros _.
      apply keeps_bind; [apply keeps_sleep|]; intros _. apply IH.
    + apply keeps_ret.
Qed.

Lemma evaluate_page_no_late page result evs : keeps_results (evaluate_page page result evs).
Proof.
  unfold evaluate_page. apply keeps_bind; [apply keeps_evaluation_loop|].
  intros evs1. destruct (evs1 !! page); apply keeps_ret.
Qed.

Lemma aggregate_as_items remaining used : forall evs w,
  no_late_result (script w) ->
  List.length (migration_results w) = used ->
  (remaining <= used)%nat ->
  aggregate remaining used evs w
  = aggregate_items (skipn (used - remaining) (migration_results w)) evs w.
Proof.
  induction remaining as [|n IH]; intros evs w Hn Hlen Hle.
  - cbn [aggregate]. unfold bind, get. cbn. rewrite Hlen, Nat.eqb_refl. cbn.
    rewrite Nat.sub_0_r, <- Hlen, skipn_all. reflexivity.
  - cbn [aggregate]. unfold bind at 1. unfold get. cbn. rewrite Hlen, Nat.eqb_refl. cbn.
    destruct (nth_error (migration_results w) (used - S n)) as [[page result]|] eqn:En.
    + assert (Hd : skipn (used - S n) (migration_results w)
                   = (page, result) :: skipn (used - n) (migration_results w)).
      { replace (used - n)%nat with (S (used - S n)) by lia.
        clear - En. revert En. generalize (used - S n)%nat as i.
        induction (migration_results w) as [|x l IHl]; intros [|i] En; try discriminate.
        - now injection En as ->.
        - cbn in En. apply IHl in En. exact En. }
      rewrite Hd. cbn [aggregate_items]. unfold bind.
      destruct (evaluate_page page result evs w) as [[[evs1|e|] w1] t1] eqn:Ee;
        try reflexivity.
      destruct (evaluate_page_no_late _ _ _ _ _ _ _ Ee Hn) as [Hn1 Hm1].
      assert (Hl1 : List.length (migration_results w1) = used) by now rewrite Hm1.
      assert (Hle1 : (n <= used)%nat) by lia.
      rewrite (IH evs1 w1 Hn1 Hl1 Hle1), Hm1.
      now destruct (aggregate_items _ evs1 w1) as [[r2 w2] t2].
    + apply nth_error_None in En. lia.
Qed.

Lemma aggregation_pass_items w :
  no_late_result (script w) ->
  aggregation_pass w = aggregate_items (migration_results w) ∅ w.
Proof.
  intros Hn. unfold aggregation_pass, bind, get. cbv beta iota.
  rewrite (aggregate_as_items _ _ ∅ w Hn eq_refl (le_n _)), Nat.sub_diag.
  change (skipn 0 (migration_results w)) with (migration_results w).
  now destruct (aggregate_items (migration_results w) ∅ w) as [[r w'] tr].
Qed.

End Aggregation.

(* ===================================================================== *)
(** * The retrying executor returns when left alone *)
(* ===================================================================== *)

Section Progress.
Context (sid : string).

















End Progress.

(* ===================================================================== *)
(** * The model at work *)
(* ===================================================================== *)

Example lower_mixed_case : PyStr.lower "Quota EXCEEDED: 429" = "quota exceeded: 429".
Proof. reflexivity. Qed.

Example endswith_content : PyStr.endswith "content" (PyStr.lower "page_Content") = true.
Proof. reflexivity. Qed.

Example str_of_cancelled : py_str (ErrorResult "CANCELLED") = "{'error': 'CANCELLED'}".
Proof. reflexivity. Qed.

(** An item that fails twice on quota and then succeeds: two
    [quota_backoff] records, three calls, one [success]. *)
Example quota_twice_then_success :
  let run := observe_run default_config Sample.ext Sample.quota_then_ok Sample.page_payload
               "Migration:users.xhtml" (Some "run") (Some Limiter) Sample.state in
  result_of run = Ok (RunnerResult "ok")
  /\ count (fun e => match e with EvLog (quota_backoff _ _ _) => true | _ => false end)
            (trace_of run) = 2%nat
  /\ count is_call (trace_of run) = 3%nat
  /\ metrics (state_of run) = PDict [("successful_runs", PAtom (AInt 1))].
Proof. vm_compute. repeat split. Qed.

(** An item that fails four times on an internal error: the delays are 5,
    10, 20 and 40, and the log ends in [max_retries_exceeded]. *)
Example internal_error_exhausts :
  let run := observe_run default_config Sample.ext Sample.always_internal Sample.page_payload
               "Migration:users.xhtml" (Some "run") (Some Limiter) Sample.state in
  result_of run = Ok (ErrorResult "Max retries exceeded: Internal error")
  /\ sleeps (trace_of run) = [5; 10; 20; 40]%Q
  /\ count terminal (trace_of run) = 1%nat.
Proof. vm_compute. repeat split. Qed.

(* ===================================================================== *)
(** * The retrying executor: the claims *)
(* ===================================================================== *)

(* ===================================================================== *)
(** * The retrying executor: every failed attempt and what follows it *)
(* ===================================================================== *)



Section Schedule.

Context (cfg : Config) (ext : Externals) (runner : Runner) (label payload_str : string).

Lemma suspend_uninterrupted w :
  uninterrupted (script w) ->
  exists w', suspend w = (Ok tt, w', []) /\ uninterrupted (script w')
             /\ attempt w' = attempt w.
Proof.
  intros H. unfold suspend. destruct (script w) as [|b rest] eqn:E.
  - exists w. rewrite E. auto.
  - inversion H as [|? ? Hb Hrest]; subst. rewrite Hb.
    eexists. split; [reflexivity|]. split; [exact Hrest|]. cbn. apply run_ops_attempt.
Qed.

Lemma block_on_uninterrupted ready sc : forall w r w',
  block_on ready sc w = (r, w') -> uninterrupted sc ->
  (r = Ok tt \/ r = Hang) /\ uninterrupted (script w').
Proof.
  induction sc as [|b sc IH]; intros w r w'; cbn [block_on].
  - intros [= <- <-] _. split; [auto | constructor].
  - intros E H. inversion H as [|? ? Hb Hrest]; subst. rewrite Hb in E.
    destruct (ready _).
    + injection E as <- <-. auto.
    + eapply IH; eauto.
Qed.

Lemma wait_pause_event_uninterrupted session w :
  uninterrupted (script w) ->
  exists r w', wait_pause_event session w = (r, w', [])
               /\ (r = Ok tt \/ r = Hang) /\ uninterrupted (script w').
Proof.
  intros H. unfold wait_pause_event.
  destruct (SessionManager.get_event session (sessions w)) as [ev|]; [|eauto 6].
  destruct (ev_value ev); [eauto 6|].
  destruct (block_on _ (script w) w) as [r w'] eqn:E.
  destruct (block_on_uninterrupted _ _ _ _ _ E H) as [Hr Hu]. eauto 6.
Qed.

Lemma wait_forever_uninterrupted {A} w :
  uninterrupted (script w) ->
  exists w', @wait_forever A w = (Hang, w', []) /\ uninterrupted (script w').
Proof.
  intros H. unfold wait_forever.
  destruct (block_on _ (script w) w) as [r w'] eqn:E.
  destruct (block_on_uninterrupted _ _ _ _ _ E H) as [[-> | ->] Hu]; eauto.
Qed.

(** What a pass of the loop body shows of its call, when nothing is
    thrown into the task. *)
Ltac no_backoff :=
  let Hin := fresh "Hin" in
  intros ? ? Hin; cbn in Hin;
  repeat (destruct Hin as [Hin|Hin]; try discriminate Hin);
  try contradiction;
  try (injection Hin as <- <-; split; [reflexivity | split; [cbn; discriminate | eauto]]).

Lemma attempt_once_reacts session w r w' tr :
  uninterrupted (script w) ->
  attempt_once cfg ext runner payload_str label session w = (r, w', tr) ->
  let a := S (attempt w) in
  uninterrupted (script w')
  /\ ((calls tr = [] /\ forall msg, r <> Ok (Continue msg))
      \/ exists rest,
           tr = [EvLog (start_attempt label a); EvCall payload_str] ++ rest
           /\ calls rest = []
           /\ (forall msg, runner a payload_str = Raises msg ->
                 exists d, rest = EvLog (error label a d msg) :: reaction cfg label a msg)
           /\ ((forall msg, r <> Ok (Continue msg)) \/
               exists msg, runner a payload_str = Raises msg /\ r = Ok (Continue msg)))
  /\ (forall a' wait, In (EvLog (quota_backoff label a' wait)) tr ->
        a' = a /\ calls tr <> []
        /\ exists msg, runner a payload_str = Raises msg
                       /\ quota_signature (PyStr.lower msg) = true).
Proof.
  intros Hu. unfold attempt_once, try_except, call_runner, handle_failure, run_debug,
    sleep, now_ts, write_log, emit, raise, bind, get, modify, ret, reaction.
  cbn -[suspend wait_pause_event wait_forever].
  match goal with |- context [wait_pause_event ?s ?x] =>
    destruct (wait_pause_event_uninterrupted s x) as (r0 & w0 & E0 & Hr0 & Hu0);
      [exact Hu|]; rewrite E0 end.
  destruct Hr0 as [-> | ->]; cbn -[suspend wait_forever].
  2: { intros [= <- <- <-]. split; [exact Hu0|split; [|no_backoff]]. left. split; [reflexivity | discriminate]. }
  destruct (SessionManager.is_cancelled session (sessions w0)); cbn -[suspend wait_forever].
  { intros [= <- <- <-]. split; [exact Hu0|split; [|no_backoff]]. left. split; [reflexivity | discriminate]. }
  match goal with |- context [suspend ?x] =>
    destruct (suspend_uninterrupted x) as (w1 & E1 & Hu1 & _); [exact Hu0|]; rewrite E1 end.
  cbn -[suspend wait_forever].
  destruct (runner (S (attempt w)) payload_str) as [text|msg| |] eqn:Er;
    cbn -[suspend wait_forever].
  - rewrite record_success_spec. cbn [metrics with_ticks].
    destruct (bump (metrics w1)) as [m|e] eqn:Eb; cbn -[suspend].
    + intros [= <- <- <-]. split; [exact Hu1|split; [|no_backoff]]. right. eexists. split; [reflexivity|].
      split; [reflexivity|]. split; [intros msg; discriminate | left; discriminate].
    + destruct (bump_fails_fatal _ _ Eb) as [-> ->]. cbn.
      intros [= <- <- <-]. split; [exact Hu1|split; [|no_backoff]]. right. eexists. split; [reflexivity|].
      split; [reflexivity|]. split; [intros msg; discriminate | left; discriminate].
  - destruct (quota_signature (PyStr.lower msg)) eqn:Eq;
      [|destruct (transient_signature (PyStr.lower msg)) eqn:Et]; cbn -[suspend].
    + match goal with |- context [suspend ?x] =>
        destruct (suspend_uninterrupted x) as (w2 & E2 & Hu2 & _); [exact Hu1|];
          rewrite E2 end.
      cbn. intros [= <- <- <-]. split; [exact Hu2|split; [|no_backoff]]. right. eexists. split; [reflexivity|].
      split; [reflexivity|]. split.
      * intros m [= <-]. rewrite Eq. eauto.
      * right. eauto.
    + match goal with |- context [suspend ?x] =>
        destruct (suspend_uninterrupted x) as (w2 & E2 & Hu2 & _); [exact Hu1|];
          rewrite E2 end.
      cbn. intros [= <- <- <-]. split; [exact Hu2|split; [|no_backoff]]. right. eexists. split; [reflexivity|].
      split; [reflexivity|]. split.
      * intros m [= <-]. rewrite Eq, Et. eauto.
      * right. eauto.
    + intros [= <- <- <-]. split; [exact Hu1|split; [|no_backoff]]. right. eexists. split; [reflexivity|].
      split; [reflexivity|]. split.
      * intros m [= <-]. rewrite Eq, Et. eauto.
      * left. discriminate.
  - intros [= <- <- <-]. split; [exact Hu1|split; [|no_backoff]]. right. eexists. split; [reflexivity|].
    split; [reflexivity|]. split; [intros msg; discriminate | left; discriminate].
  - match goal with |- context [@wait_forever ?A ?x] =>
      destruct (@wait_forever_uninterrupted A x) as (w2 & E2 & Hu2); [exact Hu1|];
        rewrite E2 end.
    cbn. intros [= <- <- <-]. split; [exact Hu2|split; [|no_backoff]]. right. eexists. split; [reflexivity|].
    split; [reflexivity|]. split; [intros msg; discriminate | left; discriminate].
Qed.

Lemma calls_reaction a msg : calls (reaction cfg label a msg) = [].
Proof.
  unfold reaction. destruct (quota_signature _); [reflexivity|].
  destruct (transient_signature _); reflexivity.
Qed.

Lemma retry_loop_reacts session n : forall last w r w' tr,
  uninterrupted (script w) ->
  retry_loop cfg ext runner payload_str label session n last w = (r, w', tr) ->
  (forall a msg,
     (attempt w < a <= attempt w + List.length (calls tr))%nat ->
     runner a payload_str = Raises msg ->
     exists pre d post,
       tr = pre ++ [EvLog (start_attempt label a); EvCall payload_str]
                ++ (EvLog (error label a d msg) :: reaction cfg label a msg) ++ post
       /\ List.length (calls pre) = (a - attempt w - 1)%nat)
  /\ (forall a wait, In (EvLog (quota_backoff label a wait)) tr ->
        (attempt w < a <= attempt w + List.length (calls tr))%nat
        /\ exists msg, runner a payload_str = Raises msg
                       /\ quota_signature (PyStr.lower msg) = true).
Proof.
  induction n as [|n IH]; intros last w r w' tr Hu; cbn [retry_loop].
  - unfold bind, write_log, emit, ret. cbn. intros [= <- <- <-]. cbn. split.
    + intros a msg Ha. lia.
    + intros a wait [Hin|[]]. discriminate Hin.
  - unfold bind at 1.
    destruct (attempt_once _ _ _ _ _ _ w) as [[r1 w1] t1] eqn:E1.
    destruct (attempt_once_trace _ _ _ _ _ _ _ _ _ _ E1) as (_ & Ha1 & _).
    destruct (attempt_once_reacts _ _ _ _ _ Hu E1) as (Hu1 & Hshape & Hlog).
    cbv zeta in Hshape, Hlog.
    intros E.
    assert (Hend : (forall msg, r1 <> Ok (Continue msg)) -> tr = t1).
    { intros Hnc. clear - E Hnc. destruct r1 as [[v|msg]| |]; cbn in E.
      - injection E as <- <- <-. apply app_nil_r.
      - now destruct (Hnc msg).
      - now injection E as <- <- <-.
      - now injection E as <- <- <-. }
    destruct Hshape as [[Hc Hnc] | (rest & Ht1 & Hcr & Hfail & Hcont)].
    + rewrite (Hend Hnc), Hc. cbn. split.
      * intros a msg Ha. lia.
      * intros a wait Hin. now destruct (Hlog _ _ Hin) as (_ & Hne & _).
    + assert (Hc1 : calls t1 = [payload_str]) by (rewrite Ht1, calls_app, Hcr; reflexivity).
      destruct Hcont as [Hnc | (msg1 & Hr1 & ->)].
      * rewrite (Hend Hnc), Hc1. cbn. split.
        -- intros a msg Ha Hr. assert (a = S (attempt w)) as -> by lia.
           destruct (Hfail msg Hr) as (d & ->).
           exists [], d, []. rewrite app_nil_r. split; [exact Ht1|]. cbn. lia.
        -- intros a wait Hin. destruct (Hlog _ _ Hin) as (-> & _ & Hm). split; [lia | exact Hm].
      * clear Hend. cbn in E.
        destruct (retry_loop _ _ _ _ _ _ n (Some msg1) w1) as [[r2 w2] t2] eqn:E2.
        injection E as <- <- <-.
        destruct (IH _ _ _ _ _ Hu1 E2) as [IH1 IH2]. rewrite Ha1 in IH1, IH2.
        rewrite calls_app, Hc1. cbn [List.length app]. split.
        -- intros a msg Ha Hr.
           destruct (decide (a = S (attempt w))) as [->|Hne].
           ++ destruct (Hfail msg Hr) as (d & ->).
              exists [], d, t2. split; [|cbn; lia].
              rewrite Ht1, <- !app_assoc. reflexivity.
           ++ destruct (IH1 a msg) as (pre & d & post & -> & Hlen); [lia | exact Hr|].
              exists (t1 ++ pre), d, post. split; [now rewrite <- app_assoc|].
              rewrite calls_app, length_app, Hc1, Hlen. cbn. lia.
        -- intros a wait Hin. apply in_app_or in Hin as [Hin|Hin].
           ++ destruct (Hlog _ _ Hin) as (-> & _ & Hm). split; [lia | exact Hm].
           ++ destruct (IH2 _ _ Hin) as [Hrange Hm]. split; [lia | exact Hm].
Qed.

Lemma calls_limiter semaphore :
  calls (acquired semaphore) = [] /\ calls (released semaphore) = [].
Proof. destruct semaphore; split; reflexivity. Qed.

Lemma observe_run_reacts payload session_id semaphore w :
  uninterrupted (script w) ->
  payload_string ext payload = payload_str ->
  let tr := trace_of (observe_run cfg ext runner payload label session_id semaphore w) in
  (forall a msg,
     (1 <= a <= List.length (calls tr))%nat ->
     runner a payload_str = Raises msg ->
     exists d, attempt_shows label payload_str tr a
                 (EvLog (error label a d msg) :: reaction cfg label a msg))
  /\ (forall a wait, In (EvLog (quota_backoff label a wait)) tr ->
        (1 <= a <= List.length (calls tr))%nat
        /\ exists msg, runner a payload_str = Raises msg
                       /\ quota_signature (PyStr.lower msg) = true).
Proof.
  intros Hu Hp. cbv zeta.
  assert (Hloop : forall w0 r w' body pre post,
            uninterrupted (script w0) -> attempt w0 = 0%nat ->
            retry_loop cfg ext runner payload_str label (session_or_default session_id)
              (Z.to_nat (MAX_RETRIES cfg)) None w0 = (r, w', body) ->
            calls pre = [] -> calls post = [] ->
            (forall e, In e pre \/ In e post ->
                       forall a wait, e <> EvLog (quota_backoff label a wait)) ->
            (forall a msg,
               (1 <= a <= List.length (calls (pre ++ body ++ post)))%nat ->
               runner a payload_str = Raises msg ->
               exists d, attempt_shows label payload_str (pre ++ body ++ post) a
                           (EvLog (error label a d msg) :: reaction cfg label a msg))
            /\ (forall a wait, In (EvLog (quota_backoff label a wait)) (pre ++ body ++ post) ->
                  (1 <= a <= List.length (calls (pre ++ body ++ post)))%nat
                  /\ exists msg, runner a payload_str = Raises msg
                                 /\ quota_signature (PyStr.lower msg) = true)).
  { intros w0 r w' body pre post Hu0 Ha0 E Hpre Hpost Hno.
    destruct (retry_loop_reacts _ _ _ _ _ _ _ Hu0 E) as [H1 H2]. rewrite Ha0 in H1, H2.
    rewrite !calls_app, Hpre, Hpost, app_nil_r. cbn [app]. split.
    - intros a msg Ha Hr. destruct (H1 a msg) as (p1 & d & p2 & -> & Hlen); [lia | exact Hr|].
      exists d, (pre ++ p1), (p2 ++ post). split.
      + rewrite <- !app_assoc. reflexivity.
      + rewrite calls_app, Hpre. cbn. lia.
    - intros a wait Hin. apply in_app_or in Hin as [Hin|Hin].
      + now destruct (Hno _ (or_introl Hin) a wait).
      + apply in_app_or in Hin as [Hin|Hin].
        * destruct (H2 _ _ Hin) as [Hrange Hm]. split; [lia | exact Hm].
        * now destruct (Hno _ (or_intror Hin) a wait). }
  unfold observe_run, try_finally, sem_acquire, sem_release, now_ts, write_log, emit,
    bind, get, modify, ret, trace_of. rewrite Hp.
  assert (Hnil : (forall a msg, (1 <= a <= @List.length string [])%nat ->
                    runner a payload_str = Raises msg ->
                    exists d, attempt_shows label payload_str [] a
                                (EvLog (error label a d msg) :: reaction cfg label a msg))
                 /\ (forall a wait, In (EvLog (quota_backoff label a wait)) [] ->
                       (1 <= a <= @List.length string [])%nat
                       /\ exists msg, runner a payload_str = Raises msg
                                      /\ quota_signature (PyStr.lower msg) = true)).
  { split; [intros a msg Ha; cbn in Ha; lia | intros a wait []]. }
  destruct semaphore as [[]|]; cbn.
  - destruct (sem_value w) as [|k] eqn:Hs; cbn.
    + destruct (block_on _ (script w) _) as [rb wb] eqn:Eb.
      destruct (block_on_uninterrupted _ _ _ _ _ Eb Hu) as [Hrb Hub].
      apply block_on_keeps in Eb as (Hab & _ & _). cbn in Hab.
      destruct Hrb as [-> | ->]; cbn; [|exact Hnil].
      match goal with |- context [retry_loop ?a ?b ?c ?d ?e ?f ?g ?h ?i] =>
        destruct (retry_loop a b c d e f g h i) as [[rl wl] body] eqn:El end.
      destruct rl as [v|e|]; cbn.
      * refine (Hloop _ _ _ body [EvAcquire] [EvRelease; EvLog _] _ _ El _ _ _);
          [exact Hub | exact Hab | reflexivity | reflexivity |].
        intros e [[<-|[]]|[<-|[<-|[]]]] a wait; discriminate.
      * refine (Hloop _ _ _ body [EvAcquire] [EvRelease; EvLog _] _ _ El _ _ _);
          [exact Hub | exact Hab | reflexivity | reflexivity |].
        intros e' [[<-|[]]|[<-|[<-|[]]]] a wait; discriminate.
      * rewrite <- (app_nil_r body).
        refine (Hloop _ _ _ body [EvAcquire] [] _ _ El _ _ _);
          [exact Hub | exact Hab | reflexivity | reflexivity |].
        intros e' [[<-|[]]|[]] a wait; discriminate.
    + match goal with |- context [retry_loop ?a ?b ?c ?d ?e ?f ?g ?h ?i] =>
        destruct (retry_loop a b c d e f g h i) as [[rl wl] body] eqn:El end.
      destruct rl as [v|e|]; cbn.
      * refine (Hloop _ _ _ body [EvAcquire] [EvRelease; EvLog _] _ _ El _ _ _);
          [exact Hu | reflexivity | reflexivity | reflexivity |].
        intros e [[<-|[]]|[<-|[<-|[]]]] a wait; discriminate.
      * refine (Hloop _ _ _ body [EvAcquire] [EvRelease; EvLog _] _ _ El _ _ _);
          [exact Hu | reflexivity | reflexivity | reflexivity |].
        intros e' [[<-|[]]|[<-|[<-|[]]]] a wait; discriminate.
      * rewrite <- (app_nil_r body).
        refine (Hloop _ _ _ body [EvAcquire] [] _ _ El _ _ _);
          [exact Hu | reflexivity | reflexivity | reflexivity |].
        intros e' [[<-|[]]|[]] a wait; discriminate.
  - match goal with |- context [retry_loop ?a ?b ?c ?d ?e ?f ?g ?h ?i] =>
      destruct (retry_loop a b c d e f g h i) as [[rl wl] body] eqn:El end.
    destruct rl as [v|e|]; cbn.
    + refine (Hloop _ _ _ body [] [EvLog _] _ _ El _ _ _);
        [exact Hu | reflexivity | reflexivity | reflexivity |].
      intros e [[]|[<-|[]]] a wait; discriminate.
    + refine (Hloop _ _ _ body [] [EvLog _] _ _ El _ _ _);
        [exact Hu | reflexivity | reflexivity | reflexivity |].
      intros e' [[]|[<-|[]]] a wait; discriminate.
    + rewrite <- (app_nil_r body).
      refine (Hloop _ _ _ body [] [] _ _ El _ _ _);
        [exact Hu | reflexivity | reflexivity | reflexivity |].
      intros e' [[]|[]] a wait.
Qed.

End Schedule.
Section RunTraces.
Context (cfg : Config) (label payload_str : string) (sound : bool)
  (semaphore : option Semaphore).

Lemma followed_by_absent tr x ys :
  (forall i, tr !! i <> Some x) -> followed_by tr x ys.
Proof. intros H i Hi. now apply H in Hi. Qed.

Lemma limiter_part_no_error (tr : list Effect) l a d msg :
  tr = acquired semaphore \/ tr = released semaphore ->
  forall i, tr !! i <> Some (EvLog (error l a d msg)).
Proof.
  intros [-> | ->] i; destruct semaphore; destruct i as [|[|i]]; discriminate.
Qed.


Lemma run_transient_followed d a r tr :
  RunTrace cfg label payload_str sound semaphore d a r tr -> transient_followed cfg label tr.
Proof.
  intros H b e msg Hq Ht. inversion H; subst.
  - apply followed_by_absent. intros [|i]; discriminate.
  - apply followed_by_app.
    + apply followed_by_absent, limiter_part_no_error. now left.
    + eapply loop_transient_followed; eauto.
  - apply followed_by_app; [|apply followed_by_app; [|apply followed_by_app]].
    + apply followed_by_absent, limiter_part_no_error. now left.
    + eapply loop_transient_followed; eauto.
    + apply followed_by_absent, limiter_part_no_error. now right.
    + apply followed_by_absent. intros [|[|i]]; discriminate.
Qed.

End RunTraces.



Lemma signature_not_quota msg :
  ~ quota_class msg -> quota_signature (PyStr.lower msg) = false.
Proof.
  intros Hq. destruct (quota_signature (PyStr.lower msg)) eqn:Eq; [|reflexivity].
  apply quota_signature_iff in Eq. contradiction.
Qed.



(** C3. In an invocation of the retrying executor into which nothing is
    thrown, every attempt that made its call and whose call raised a
    message with a transient-class signature and no quota-class signature,
    case ignored, shows in the trace as: the [start_attempt] record, the
    call, the [error] record and the sleep of
    [BASE_RETRY_DELAY * 2 ^ (attempt - 1)], in this order and with nothing
    in between; the trace has no [quota_backoff] record for this attempt.
    In every invocation an [error] record with such a message is followed
    at once by this sleep. The same holds, with the same delay, when the
    invocation is run with any other initial quota delay, and whatever the
    classes of the failures of the other attempts are. *)
Theorem transient_backoff_schedule cfg ext runner payload label session_id semaphore w :
  let p := payload_string ext payload in
  let run := fun c => observe_run c ext runner payload label session_id semaphore w in
  let tr := trace_of (run cfg) in
  (uninterrupted (script w) ->
   forall a msg,
     (1 <= a <= List.length (calls tr))%nat ->
     runner a p = Raises msg ->
     transient_class msg ->
     ~ quota_class msg ->
     (exists d,
        attempt_shows label p tr a
          [EvLog (error label a d msg);
           EvSleep (BASE_RETRY_DELAY cfg * 2 ^ (Z.of_nat a - 1))%Q])
     /\ forall wait, ~ In (EvLog (quota_backoff label a wait)) tr)
  /\ (forall i a d msg,
        tr !! i = Some (EvLog (error label a d msg)) ->
        transient_class msg ->
        ~ quota_class msg ->
        tr !! (i + 1)%nat
        = Some (EvSleep (BASE_RETRY_DELAY cfg * 2 ^ (Z.of_nat a - 1))%Q))
  /\ (uninterrupted (script w) ->
      forall q a msg,
        let tr' := trace_of (run {| MAX_RETRIES := MAX_RETRIES cfg;
                                    BASE_RETRY_DELAY := BASE_RETRY_DELAY cfg;
                                    QUOTA_BACKOFF_INITIAL := q |}) in
        (1 <= a <= List.length (calls tr'))%nat ->
        runner a p = Raises msg ->
        transient_class msg ->
        ~ quota_class msg ->
        exists d,
          attempt_shows label p tr' a
            [EvLog (error label a d msg);
             EvSleep (BASE_RETRY_DELAY cfg * 2 ^ (Z.of_nat a - 1))%Q]).
Proof.
  cbv zeta.
  assert (Hshow : forall c, uninterrupted (script w) ->
            forall a msg,
              (1 <= a <= List.length (calls (trace_of
                 (observe_run c ext runner payload label session_id semaphore w))))%nat ->
              runner a (payload_string ext payload) = Raises msg ->
              transient_class msg -> ~ quota_class msg ->
              exists d,
                attempt_shows label (payload_string ext payload)
                  (trace_of (observe_run c ext runner payload label session_id semaphore w)) a
                  [EvLog (error label a d msg);
                   EvSleep (BASE_RETRY_DELAY c * 2 ^ (Z.of_nat a - 1))%Q]).
  { intros c Hu a msg Ha Hr Ht Hq.
    destruct (observe_run_reacts c ext runner label (payload_string ext payload)
                payload session_id semaphore w Hu eq_refl) as [H _].
    destruct (H a msg Ha Hr) as (d & Hs). exists d.
    apply transient_signature_iff in Ht. apply signature_not_quota in Hq.
    unfold reaction in Hs. rewrite Hq, Ht in Hs. exact Hs. }
  split; [|split].
  - intros Hu a msg Ha Hr Ht Hq. split; [now apply Hshow|].
    intros wait Hin.
    destruct (observe_run_reacts cfg ext runner label (payload_string ext payload)
                payload session_id semaphore w Hu eq_refl) as [_ H].
    destruct (H a wait Hin) as (_ & msg' & Hr' & Hq').
    rewrite Hr in Hr'. injection Hr' as <-.
    apply quota_signature_iff in Hq'. contradiction.
  - destruct (observe_run _ _ _ _ _ _ _ _) as [[r w'] tr] eqn:E.
    apply observe_run_trace, run_transient_followed in E. unfold trace_of. cbn [snd].
    intros i a d msg Hi Ht Hq.
    apply transient_signature_iff in Ht. apply signature_not_quota in Hq.
    replace (i + 1)%nat with (i + 1 + 0)%nat by lia.
    eapply (E a d msg Hq Ht i Hi). reflexivity.
  - intros Hu q a msg Ha Hr Ht Hq.
    exact (Hshow {| MAX_RETRIES := MAX_RETRIES cfg; BASE_RETRY_DELAY := BASE_RETRY_DELAY cfg;
                    QUOTA_BACKOFF_INITIAL := q |} Hu a msg Ha Hr Ht Hq).
Qed.

Lemma transient_backoff_schedule_witness :
  let label := "Migration:users.xhtml" in
  let p := payload_string Sample.ext Sample.page_payload in
  let run := fun c => observe_run c Sample.ext Sample.quota_then_internal
                        Sample.page_payload label (Some "run") (Some Limiter) Sample.state in
  let tr := trace_of (run default_config) in
  let tr' := trace_of (run {| MAX_RETRIES := 4; BASE_RETRY_DELAY := 5;
                              QUOTA_BACKOFF_INITIAL := 1 |}) in
  uninterrupted (script Sample.state)
  /\ (1 <= 2 <= List.length (calls tr))%nat
  /\ (1 <= 2 <= List.length (calls tr'))%nat
  /\ Sample.quota_then_internal 2 p = Raises "Internal error"
  /\ transient_class "Internal error"
  /\ ~ quota_class "Internal error"
  /\ (exists d,
        attempt_shows label p tr 2
          [EvLog (error label 2 d "Internal error"); EvSleep (5 * 2 ^ 1)%Q])
  /\ (forall wait, ~ In (EvLog (quota_backoff label 2 wait)) tr)
  /\ tr !! 8%nat = Some (EvLog (error label 2 1%Q "Internal error"))
  /\ tr !! 9%nat = Some (EvSleep (5 * 2 ^ 1)%Q)
  /\ (exists d,
        attempt_shows label p tr' 2
          [EvLog (error label 2 d "Internal error"); EvSleep (5 * 2 ^ 1)%Q]).
Proof.
  cbv zeta.
  assert (Hu : uninterrupted (script Sample.state)) by constructor.
  assert (Ha : (1 <= 2 <= List.length (calls (trace_of (observe_run default_config Sample.ext
                  Sample.quota_then_internal Sample.page_payload "Migration:users.xhtml"
                  (Some "run") (Some Limiter) Sample.state))))%nat).
  { vm_compute. lia. }
  assert (Ha' : (1 <= 2 <= List.length (calls (trace_of (observe_run
                  {| MAX_RETRIES := 4; BASE_RETRY_DELAY := 5; QUOTA_BACKOFF_INITIAL := 1 |}
                  Sample.ext Sample.quota_then_internal Sample.page_payload
                  "Migration:users.xhtml" (Some "run") (Some Limiter) Sample.state))))%nat).
  { vm_compute. lia. }
  assert (Hr : Sample.quota_then_internal 2 (payload_string Sample.ext Sample.page_payload)
               = Raises "Internal error") by reflexivity.
  assert (Ht : transient_class "Internal error").
  { exists "internal". split; [simpl; tauto|]. exists "", "Internal", " error". split; reflexivity. }
  assert (Hq : ~ quota_class "Internal error").
  { intros H. apply quota_signature_iff in H. vm_compute in H. discriminate H. }
  assert (He : trace_of (observe_run default_config Sample.ext Sample.quota_then_internal
                          Sample.page_payload "Migration:users.xhtml" (Some "run")
                          (Some Limiter) Sample.state) !! 8%nat
               = Some (EvLog (error "Migration:users.xhtml" 2 1%Q "Internal error"))).
  { vm_compute. reflexivity. }
  destruct (transient_backoff_schedule default_config Sample.ext Sample.quota_then_internal
              Sample.page_payload "Migration:users.xhtml" (Some "run") (Some Limiter)
              Sample.state) as (T1 & T2 & T3).
  destruct (T1 Hu 2%nat "Internal error" Ha Hr Ht Hq) as [T4 T5].
  split; [exact Hu|]. split; [exact Ha|]. split; [exact Ha'|]. split; [exact Hr|].
  split; [exact Ht|]. split; [exact Hq|]. split; [exact T4|]. split; [exact T5|].
  split; [exact He|].
  split; [exact (T2 8%nat 2%nat 1%Q "Internal error" He Ht Hq)|].
  exact (T3 Hu 1%Q 2%nat "Internal error" Ha' Hr Ht Hq).
Defined.
Section RunCounts.
Context (cfg : Config) (label payload_str : string) (sound : bool)
  (semaphore : option Semaphore).




End RunCounts.




(** The bookkeeping of a success sits inside the [try]: with a metrics
    file that holds a list the call comes back, [success] is logged, the
    update raises, and the handler logs [error] and [non_retriable] and
    returns the error: two terminal records in one invocation. *)
Example success_then_fatal_on_list_metrics :
  let run := observe_run default_config Sample.ext (fun _ _ => Returns "ok")
               Sample.page_payload "Migration:users.xhtml" (Some "run") (Some Limiter)
               Sample.state_with_list_metrics in
  metrics_sound (metrics Sample.state_with_list_metrics) = false
  /\ result_of run = Ok (ErrorResult "'list' object has no attribute 'setdefault'")
  /\ count terminal (trace_of run) = 2%nat.
Proof. vm_compute. repeat split. Qed.



(* ===================================================================== *)
(** * Cancellation of a paused task *)
(* ===================================================================== *)

(** C5. For a known session id, [cancel] sets the cancelled flag and opens
    the pause gate. A task that waits on the closed gate before an
    attempt, through any number of suspensions in which nobody resumes or
    cancels the session, is woken by the suspension in which the session is
    cancelled, whatever else happens in it; it then finds the session
    cancelled, logs [cancelled] for the attempt it was about to make and
    returns the [CANCELLED] error result: no call is made. *)
Theorem cancel_wakes_paused_task :
  (forall (sm : gmap string Session) (id : string),
      is_Some (sm !! id) ->
      SessionManager.is_cancelled id (SessionManager.cancel id sm) = true /\
      exists ev, SessionManager.get_event id (SessionManager.cancel id sm) = Some ev
                 /\ ev_value ev = true)
  /\
  (forall cfg ext runner payload_str label sid n last w quiet b rest,
      blocked_on_gate sid w ->
      script w = quiet ++ b :: rest ->
      Forall (quiet_for sid) quiet ->
      In (OpCancel sid) (ops b) ->
      interrupt b = false ->
      let run := retry_loop cfg ext runner payload_str label sid (S n) last w in
      result_of run = Ok (ErrorResult "CANCELLED")
      /\ trace_of run = [EvLog (cancelled label (S (attempt w)))]
      /\ SessionManager.is_cancelled sid (sessions (state_of run)) = true
      /\ script (state_of run) = rest).
Proof.
  split.
  - intros sm id [s Hs]. unfold SessionManager.is_cancelled, SessionManager.get_event,
      SessionManager.cancel. rewrite Hs, lookup_insert_eq. cbn. split; [reflexivity|].
    eexists. split; [reflexivity|]. unfold Event.set.
    destruct (ev_value (pause_event s)) eqn:E; [exact E | reflexivity].
  - intros cfg ext runner payload_str label sid n last w quiet b rest
      (s & Hs & Hv) Hsc Hq Hin Hint.
    destruct (block_on_cancelled sid quiet (with_attempt (S (attempt w)) w) b rest s)
      as (w1 & Hb & Hc & Hrest & Ha & Ht); auto.
    cbn [retry_loop]. unfold attempt_once, wait_pause_event, bind, get, modify, write_log,
      emit, ret, result_of, state_of, trace_of, SessionManager.get_event.
    cbn [sessions with_attempt script attempt]. rewrite Hs, Hv, Hsc, Hb. cbn.
    rewrite Hc. cbn. auto.
Qed.

Lemma cancel_wakes_paused_task_witness :
  let run := retry_loop default_config Sample.ext Sample.quota_then_ok
               "users.xhtml" "Migration:users.xhtml" "run" 4 None Sample.paused_state in
  blocked_on_gate "run" Sample.paused_state
  /\ result_of run = Ok (ErrorResult "CANCELLED")
  /\ trace_of run = [EvLog (cancelled "Migration:users.xhtml" 1)]
  /\ SessionManager.is_cancelled "run" (sessions (state_of run)) = true.
Proof.
  cbv zeta.
  assert (Hb : blocked_on_gate "run" Sample.paused_state).
  { eexists. split; [vm_compute; reflexivity | reflexivity]. }
  destruct cancel_wakes_paused_task as [_ H].
  destruct (H default_config Sample.ext Sample.quota_then_ok "users.xhtml"
              "Migration:users.xhtml" "run" 3%nat None Sample.paused_state
              [ {| ops := [OpCreate "other"]; interrupt := false |} ]
              {| ops := [OpCancel "run"; OpPause "run"]; interrupt := false |} [])
    as (H1 & H2 & H3 & _).
  - exact Hb.
  - reflexivity.
  - constructor; [|constructor]. split; [reflexivity|].
    intros op [<-|[]]. split; discriminate.
  - left. reflexivity.
  - reflexivity.
  - split; [exact Hb|]. split; [exact H1|]. split; [exact H2 | exact H3].
Defined.

(* ===================================================================== *)
(** * MemoryBank and payload compaction: the claims *)
(* ===================================================================== *)




(** A bank whose path is a bare file name cannot be saved:
    [os.path.dirname] gives the empty name and [os.makedirs] raises. *)
Example memory_bank_bare_path_not_saved :
  MemoryBank.save Sample.ext
    {| MemoryBank.path := "project_memory.json"; MemoryBank._store := Sample.project_memory |} ∅
  = Fails "[Errno 2] No such file or directory: ''".
Proof. reflexivity. Qed.

(** C9. On a nested structure of strings, lists and mappings with no key
    twice in a mapping, [compact_context] does what the specification
    says: a string longer than the budget is cut to the budget and marked,
    a shorter one is kept; a list of more than 50 elements keeps its first
    50, compacted, and gets the marker element, compacted as any string;
    a shorter list keeps its length; a mapping keeps its keys in order,
    each value compacted with a quarter of the budget when the key ends, in
    any case, in [content], and with the budget otherwise; any other value
    is kept. *)
Theorem compact_context_spec obj :
  forall max_chars, well_formed obj -> Compacted max_chars obj (compact_context obj max_chars).
Proof.
  induction obj as [s|items IH|xs IH|a] using PyVal_nested_ind; intros m Hwf.
  - apply compact_str_spec.
  - apply well_formed_dict in Hwf as [Hnd Hall]. cbn [compact_context].
    rewrite dict_loop_fresh by exact Hnd. rewrite app_nil_l.
    apply Compacted_dict.
    clear Hnd. induction items as [|[k v] r IHr]; simpl; constructor.
    + simpl. split; [reflexivity|]. inversion IH; inversion Hall; subst. auto.
    + inversion IH; inversion Hall; subst. auto.
  - apply well_formed_list in Hwf. cbn [compact_context]. rewrite map_first_firstn.
    assert (Hmap : forall l,
               Forall (fun x => forall m, well_formed x ->
                                          Compacted m x (compact_context x m)) l ->
               Forall well_formed l ->
               Forall2 (Compacted m) l (map (fun x => compact_context x m) l)).
    { induction l as [|x r IHr]; simpl; intros H1 H2; constructor;
        inversion H1; inversion H2; subst; auto. }
    destruct (Nat.ltb_spec 50 (List.length xs)) as [Hlt|Hle].
    + apply Compacted_list_cut; [exact Hlt | | apply compact_str_spec].
      apply Hmap; now apply Forall_take.
    + rewrite app_nil_r, firstn_all2 by exact Hle.
      apply Compacted_list; [exact Hle | apply Hmap; assumption].
  - constructor.
Qed.

Lemma compact_context_spec_witness :
  well_formed Sample.page_source
  /\ Compacted 40 Sample.page_source (compact_context Sample.page_source 40)
  /\ compact_context Sample.page_source 40
     = PDict [("file_path", PStr "users.xhtml");
              ("page_content", PStr "<h:form id...[truncated]")].
Proof.
  assert (H : well_formed Sample.page_source).
  { cbn. split; [|tauto]. repeat constructor; cbn; intuition discriminate. }
  split; [exact H|]. split; [exact (compact_context_spec Sample.page_source 40 H)|].
  vm_compute. reflexivity.
Defined.

(* ===================================================================== *)
(** * The aggregation pass: the claims *)
(* ===================================================================== *)

Lemma backoff_factor_quota result :
  eval_quota_signature (result_summary result) = true -> backoff_factor result = Some 2%Q.
Proof. unfold backoff_factor. now intros ->. Qed.

Lemma backoff_factor_overloaded result :
  eval_quota_signature (result_summary result) = false ->
  eval_overloaded_signature (result_summary result) = true ->
  backoff_factor result = Some (3 # 2)%Q.
Proof. unfold backoff_factor. now intros -> ->. Qed.

Lemma backoff_factor_clean result :
  (forall sig, In sig ["resource_exhausted"; "quota"; "429"; "unavailable"; "503"] ->
               PyStr.contains sig (result_summary result) = false) ->
  backoff_factor result = None.
Proof.
  intros H. unfold backoff_factor, eval_quota_signature, eval_overloaded_signature.
  rewrite !H by (simpl; tauto). reflexivity.
Qed.

(** C1, as the code has it. For an item of the aggregation pass, when
    nothing is thrown into the task: at most 5 delays are slept; when the
    text inspected has a quota pattern (resource_exhausted, quota, 429)
    there are 5 and each is 2 times the one before; when it has none but
    has an overload pattern (unavailable, 503) there are 5 and each is 1.5
    times the one before. *)
Theorem aggregation_backoff_growth page result evaluations w :
  uninterrupted (script w) ->
  let ds := sleeps (trace_of (evaluate_page page result evaluations w)) in
  (length ds <= 5)%nat
  /\ (eval_quota_signature (result_summary result) = true ->
      length ds = 5%nat /\ grows_by 2 ds)
  /\ (eval_quota_signature (result_summary result) = false ->
      eval_overloaded_signature (result_summary result) = true ->
      length ds = 5%nat /\ grows_by (3 # 2) ds).
Proof.
  intros Hu. cbv zeta.
  assert (Hf : forall f, backoff_factor result = Some f ->
            sleeps (trace_of (evaluate_page page result evaluations w)) = geometric 5 30 f).
  { intros f Hf.
    destruct (evaluate_page_backoff page result evaluations f w Hf Hu) as (w' & tr & -> & _ & H).
    exact H. }
  split; [|split].
  - destruct (backoff_factor result) as [f|] eqn:E.
    + rewrite (Hf f eq_refl). cbn. lia.
    + rewrite (evaluate_page_clean _ _ _ _ E). cbn. lia.
  - intros Hq. rewrite (Hf _ (backoff_factor_quota _ Hq)).
    split; [reflexivity | apply grows_by_geometric].
  - intros Hq Ho. rewrite (Hf _ (backoff_factor_overloaded _ Hq Ho)).
    split; [reflexivity | apply grows_by_geometric].
Qed.

Lemma aggregation_backoff_growth_witness :
  let ds := sleeps (trace_of (evaluate_page "users.xhtml" (RunnerResult "503 UNAVAILABLE")
                                            ∅ Sample.state)) in
  uninterrupted (script Sample.state)
  /\ eval_quota_signature (result_summary (RunnerResult "503 UNAVAILABLE")) = false
  /\ eval_overloaded_signature (result_summary (RunnerResult "503 UNAVAILABLE")) = true
  /\ length ds = 5%nat /\ grows_by (3 # 2) ds.
Proof.
  cbv zeta.
  assert (Hu : uninterrupted (script Sample.state)) by constructor.
  assert (Hq : eval_quota_signature (result_summary (RunnerResult "503 UNAVAILABLE")) = false)
    by (vm_compute; reflexivity).
  assert (Ho : eval_overloaded_signature (result_summary (RunnerResult "503 UNAVAILABLE")) = true)
    by (vm_compute; reflexivity).
  destruct (aggregation_backoff_growth "users.xhtml" (RunnerResult "503 UNAVAILABLE")
              ∅ Sample.state Hu) as (_ & _ & H).
  split; [exact Hu|]. split; [exact Hq|]. split; [exact Ho|]. exact (H Hq Ho).
Defined.

(** C1, as worded, fails: an item whose text holds 429 sleeps 30, 60, 120,
    240 and 480 seconds, and 60 is not 1.5 times 30. *)
Lemma aggregation_quota_growth_counterexample :
  let result := ErrorResult "Max retries exceeded: 429 RESOURCE_EXHAUSTED" in
  let ds := sleeps (trace_of (evaluate_page "users.xhtml" result ∅ Sample.state)) in
  eval_quota_signature (result_summary result) = true
  /\ ds = [30; 60; 120; 240; 480]%Q
  /\ ~ grows_by (3 # 2) ds.
Proof.
  cbv zeta.
  assert (Hds : sleeps (trace_of (evaluate_page "users.xhtml"
                   (ErrorResult "Max retries exceeded: 429 RESOURCE_EXHAUSTED") ∅ Sample.state))
                = [30; 60; 120; 240; 480]%Q) by (vm_compute; reflexivity).
  split; [vm_compute; reflexivity|]. split; [exact Hds|].
  rewrite Hds. intros H. specialize (H 0%nat 30%Q 60%Q eq_refl eq_refl).
  vm_compute in H. discriminate H.
Qed.

Section LateResults.

Lemma dict_set_length {V} k (v : V) d :
  List.length (dict_set k v d)
  = match dict_get k d with Some _ => List.length d | None => S (List.length d) end.
Proof.
  induction d as [|[k' v'] r IH]; cbn; [reflexivity|].
  destruct (String.eqb k k'); cbn; [reflexivity|].
  rewrite IH. now destruct (dict_get k r).
Qed.

Lemma run_op_results_length w op :
  (List.length (migration_results w) <= List.length (migration_results (run_op w op)))%nat.
Proof.
  destruct op; cbn; try lia. rewrite dict_set_length.
  destruct (dict_get _ _); lia.
Qed.

Lemma run_ops_results_length l : forall w,
  (List.length (migration_results w) <= List.length (migration_results (run_ops l w)))%nat.
Proof.
  induction l as [|op l IH]; intros w; [reflexivity|].
  change (run_ops (op :: l) w) with (run_ops l (run_op w op)).
  etransitivity; [apply run_op_results_length | apply IH].
Qed.

Lemma run_ops_stores page result l : forall w,
  In (OpStore page result) l ->
  dict_get page (migration_results w) = None ->
  (List.length (migration_results w) < List.length (migration_results (run_ops l w)))%nat.
Proof.
  induction l as [|op l IH]; intros w Hin Hnone; [destruct Hin|].
  change (run_ops (op :: l) w) with (run_ops l (run_op w op)).
  assert (Hgrow : (List.length (migration_results w)
                   < List.length (migration_results (run_op w (OpStore page result))))%nat).
  { cbn. rewrite dict_set_length, Hnone. lia. }
  destruct Hin as [-> | Hin].
  - eapply Nat.lt_le_trans; [exact Hgrow | apply run_ops_results_length].
  - destruct op as [x|x|x|x| | |pg rs];
      try (match goal with |- context [run_op w ?o] => exact (IH (run_op w o) Hin Hnone) end).
    destruct (String.eqb_spec page pg) as [<-|Hne].
    + clear Hgrow. eapply Nat.lt_le_trans; [|apply run_ops_results_length].
      cbn. rewrite dict_set_length, Hnone. lia.
    + eapply Nat.le_lt_trans; [apply (run_op_results_length w (OpStore pg rs))|].
      apply IH; [exact Hin|]. cbn. rewrite dict_get_set_ne by exact Hne. exact Hnone.
Qed.

Lemma sleep_results_length d w :
  uninterrupted (script w) ->
  exists w', sleep d w = (Ok tt, w', [EvSleep d]) /\ uninterrupted (script w')
             /\ (List.length (migration_results w) <= List.length (migration_results w'))%nat.
Proof.
  unfold sleep, suspend, bind, emit. cbn. intros H.
  destruct (script w) as [|b rest] eqn:E; cbn.
  - exists w. split; [reflexivity|]. rewrite E. split; [constructor | lia].
  - inversion H as [|? ? Hb Hrest]; subst. rewrite Hb. cbn.
    eexists. split; [reflexivity|]. split; [exact Hrest|]. cbn. apply run_ops_results_length.
Qed.

Lemma evaluation_loop_results_length page result evs n : forall retry wait w,
  uninterrupted (script w) ->
  exists evs' w' tr,
    evaluation_loop n retry wait page result evs w = (Ok evs', w', tr)
    /\ uninterrupted (script w')
    /\ (List.length (migration_results w) <= List.length (migration_results w'))%nat.
Proof.
  induction n as [|n IH]; intros retry wait w Hu; cbn [evaluation_loop].
  - exists evs, w, []. split; [reflexivity|]. split; [exact Hu | lia].
  - destruct (eval_quota_signature (result_summary result));
      [|destruct (eval_overloaded_signature (result_summary result))].
    + destruct (sleep_results_length wait w Hu) as (w1 & Hs & Hu1 & Hl1).
      destruct (IH (S retry) (wait * 2)%Q w1 Hu1) as (evs' & w2 & tr & Hl & Hu2 & Hl2).
      eexists _, _, _. split; [|split; [exact Hu2 | lia]].
      eapply bind_ok; [reflexivity|]. eapply bind_ok; [exact Hs | exact Hl].
    + destruct (sleep_results_length wait w Hu) as (w1 & Hs & Hu1 & Hl1).
      destruct (IH (S retry) (wait * (3 # 2))%Q w1 Hu1) as (evs' & w2 & tr & Hl & Hu2 & Hl2).
      eexists _, _, _. split; [|split; [exact Hu2 | lia]].
      eapply bind_ok; [reflexivity|]. eapply bind_ok; [exact Hs | exact Hl].
    + eexists _, w, []. split; [reflexivity|]. split; [exact Hu | lia].
Qed.

Lemma evaluation_loop_stores page result evs n retry wait late_page late_result b sc w :
  backoff_factor result <> None ->
  script w = b :: sc ->
  uninterrupted (b :: sc) ->
  In (OpStore late_page late_result) (ops b) ->
  dict_get late_page (migration_results w) = None ->
  exists evs' w' tr,
    evaluation_loop (S n) retry wait page result evs w = (Ok evs', w', tr)
    /\ (List.length (migration_results w) < List.length (migration_results w'))%nat.
Proof.
  intros Hf Hsc Hu Hin Hnone. inversion Hu as [|? ? Hb Hrest]; subst.
  assert (Hsleep : forall d, sleep d w
            = (Ok tt, with_script sc (run_ops (ops b) w), [EvSleep d])).
  { intros d. unfold sleep, suspend, bind, emit. cbn. now rewrite Hsc, Hb. }
  assert (Hgrow := run_ops_stores late_page late_result (ops b) w Hin Hnone).
  unfold backoff_factor in Hf. cbn [evaluation_loop].
  destruct (eval_quota_signature (result_summary result));
    [|destruct (eval_overloaded_signature (result_summary result)); [|contradiction]].
  - destruct (evaluation_loop_results_length page result evs n (S retry) (wait * 2)%Q
                (with_script sc (run_ops (ops b) w)) Hrest)
      as (evs1 & w1 & t1 & Hl & _ & Hlen).
    eexists _, _, _. split.
    + eapply bind_ok; [reflexivity|]. eapply bind_ok; [apply Hsleep | exact Hl].
    + cbn in Hlen. lia.
  - destruct (evaluation_loop_results_length page result evs n (S retry) (wait * (3 # 2))%Q
                (with_script sc (run_ops (ops b) w)) Hrest)
      as (evs1 & w1 & t1 & Hl & _ & Hlen).
    eexists _, _, _. split.
    + eapply bind_ok; [reflexivity|]. eapply bind_ok; [apply Hsleep | exact Hl].
    + cbn in Hlen. lia.
Qed.

Lemma evaluate_page_stores page result evs late_page late_result b sc w :
  backoff_factor result <> None ->
  script w = b :: sc ->
  uninterrupted (b :: sc) ->
  In (OpStore late_page late_result) (ops b) ->
  dict_get late_page (migration_results w) = None ->
  exists evs' w' tr,
    evaluate_page page result evs w = (Ok evs', w', tr)
    /\ (List.length (migration_results w) < List.length (migration_results w'))%nat.
Proof.
  intros Hf Hsc Hu Hin Hnone.
  destruct (evaluation_loop_stores page result evs 4 0 30 late_page late_result b sc w
              Hf Hsc Hu Hin Hnone) as (evs1 & w1 & t1 & Hl & Hlen).
  unfold evaluate_page, bind. rewrite Hl.
  destruct (evs1 !! page); cbn; eauto.
Qed.

End LateResults.

(** C7. The aggregation pass iterates over the dict of results while
    tasks left over from a cancelled run may still store theirs. When the
    first item's text holds a failure signature, so that the pass sleeps
    on it, and a task stores the result of a page that the dict does not
    hold yet during the first of these sleeps, the pass raises
    [RuntimeError: dictionary changed size during iteration] when it asks
    for the next item: no item gets the degraded record, and the run
    fails. *)
Theorem aggregation_raises_on_late_result
    (w : State) page result rest late_page late_result b sc :
  migration_results w = (page, result) :: rest ->
  backoff_factor result <> None ->
  script w = b :: sc ->
  uninterrupted (b :: sc) ->
  In (OpStore late_page late_result) (ops b) ->
  dict_get late_page (migration_results w) = None ->
  result_of (aggregation_pass w)
  = Raise (Exception "dictionary changed size during iteration").
Proof.
  intros Hm Hf Hsc Hu Hin Hnone.
  destruct (evaluate_page_stores page result ∅ late_page late_result b sc w
              Hf Hsc Hu Hin Hnone) as (evs1 & w1 & t1 & He & Hlen).
  unfold aggregation_pass, bind at 1, get. cbv beta iota. rewrite Hm.
  cbn [List.length aggregate]. unfold bind at 1, get. cbv beta iota.
  rewrite Hm. cbn [List.length]. rewrite Nat.eqb_refl, Nat.sub_diag. cbn [negb nth_error].
  unfold bind at 1. rewrite He.
  assert (Hne : (List.length (migration_results w1) =? S (List.length rest))%nat = false).
  { apply Nat.eqb_neq. rewrite Hm in Hlen. cbn in Hlen. lia. }
  destruct (List.length rest) as [|n] eqn:El; cbn [aggregate];
    unfold bind, get, raise; cbv beta iota; rewrite Hne; reflexivity.
Qed.

Lemma aggregation_raises_on_late_result_witness :
  let w := Sample.state_with_late_task in
  migration_results w
  = [("users.xhtml", ErrorResult "Max retries exceeded: 429 Too Many Requests")]
  /\ backoff_factor (ErrorResult "Max retries exceeded: 429 Too Many Requests") <> None
  /\ uninterrupted (script w)
  /\ dict_get "dashboard.xhtml" (migration_results w) = None
  /\ result_of (aggregation_pass w)
     = Raise (Exception "dictionary changed size during iteration").
Proof.
  cbv zeta.
  assert (Hf : backoff_factor (ErrorResult "Max retries exceeded: 429 Too Many Requests")
               <> None) by (vm_compute; discriminate).
  assert (Hu : uninterrupted (script Sample.state_with_late_task)).
  { repeat constructor. }
  split; [reflexivity|]. split; [exact Hf|]. split; [exact Hu|]. split; [reflexivity|].
  exact (aggregation_raises_on_late_result Sample.state_with_late_task
           "users.xhtml" (ErrorResult "Max retries exceeded: 429 Too Many Requests") []
           "dashboard.xhtml" (ErrorResult "CANCELLED")
           {| ops := [OpStore "dashboard.xhtml" (ErrorResult "CANCELLED")];
              interrupt := false |} []
           eq_refl Hf eq_refl Hu (or_introl eq_refl) eq_refl).
Defined.

(** C10. A recorded result whose inspected text, the first 2000
    characters of its [str()] in lower case, holds none of
    resource_exhausted, quota, 429, unavailable and 503 gets the full-score
    record (9.0, no issues) on the first attempt: nothing is logged and no
    delay is slept. This holds of the error results of a cancellation, of a
    retry exhaustion and of a fatal failure with such a text. *)
Theorem clean_result_scores_full page result evaluations w :
  (forall sig, In sig ["resource_exhausted"; "quota"; "429"; "unavailable"; "503"] ->
               PyStr.contains sig (result_summary result) = false) ->
  evaluate_page page result evaluations w
  = (Ok (<[page := {| score := 9; issues := [];
                      summary := PyStr.take 1000 (py_str result) |}]> evaluations),
     w, []).
Proof. intros H. apply evaluate_page_clean, backoff_factor_clean, H. Qed.

Lemma clean_result_scores_full_witness :
  (forall sig, In sig ["resource_exhausted"; "quota"; "429"; "unavailable"; "503"] ->
               PyStr.contains sig (result_summary (ErrorResult "CANCELLED")) = false)
  /\ result_of (evaluate_page "users.xhtml" (ErrorResult "CANCELLED") ∅ Sample.state)
     = Ok {["users.xhtml" := {| score := 9; issues := []; summary := "{'error': 'CANCELLED'}" |}]}
  /\ result_of (evaluate_page "users.xhtml"
                  (ErrorResult "Max retries exceeded: Internal error") ∅ Sample.state)
     = Ok {["users.xhtml" := {| score := 9; issues := [];
                                summary := "{'error': 'Max retries exceeded: Internal error'}" |}]}.
Proof.
  assert (H1 : forall sig, In sig ["resource_exhausted"; "quota"; "429"; "unavailable"; "503"] ->
               PyStr.contains sig (result_summary (ErrorResult "CANCELLED")) = false).
  { intros sig [<-|[<-|[<-|[<-|[<-|[]]]]]]; vm_compute; reflexivity. }
  assert (H2 : forall sig, In sig ["resource_exhausted"; "quota"; "429"; "unavailable"; "503"] ->
               PyStr.contains sig (result_summary (ErrorResult "Max retries exceeded: Internal error")) = false).
  { intros sig [<-|[<-|[<-|[<-|[<-|[]]]]]]; vm_compute; reflexivity. }
  split; [exact H1|]. split.
  - rewrite (clean_result_scores_full "users.xhtml" (ErrorResult "CANCELLED") ∅ Sample.state H1).
    reflexivity.
  - rewrite (clean_result_scores_full "users.xhtml" _ ∅ Sample.state H2). reflexivity.
Defined.
(* ===================================================================== *)
(** * The session registry under any sequence of operations *)
(* ===================================================================== *)

Section Registry.

#[local] Set Warnings "-clear-no-such-hyp".

Lemma run_ops_app l1 l2 w : run_ops (l1 ++ l2) w = run_ops l2 (run_ops l1 w).
Proof. unfold run_ops. apply fold_left_app. Qed.

Lemma run_op_dom w op :
  dom (sessions (run_op w op))
  = dom (sessions w) ∪ match op with OpCreate s => {[s]} | _ => ∅ end.
Proof.
  destruct op as [x|x|x|x| | |pg rs]; cbn; try set_solver.
  - unfold SessionManager.create_session.
    destruct (sessions w !! x) eqn:E.
    + apply elem_of_dom_2 in E. set_solver.
    + rewrite dom_insert_L. set_solver.
  - unfold SessionManager.pause. destruct (sessions w !! x) eqn:E; [|set_solver].
    apply elem_of_dom_2 in E. rewrite dom_insert_L. set_solver.
  - unfold SessionManager.resume. destruct (sessions w !! x) eqn:E; [|set_solver].
    apply elem_of_dom_2 in E. rewrite dom_insert_L. set_solver.
  - unfold SessionManager.cancel. destruct (sessions w !! x) eqn:E; [|set_solver].
    apply elem_of_dom_2 in E. rewrite dom_insert_L. set_solver.
Qed.

(** X1. Whatever is called on the registry, in any order, the sessions
    known afterwards are those known before and those that
    [create_session] was called for: no operation removes a session, and
    [pause], [resume] and [cancel] never add one. *)
Theorem sessions_only_created (l : list EnvOp) (w : State) :
  dom (sessions (run_ops l w)) = dom (sessions w) ∪ created_ids l.
Proof.
  revert w. induction l as [|op l IH]; intros w.
  - unfold created_ids. cbn. set_solver.
  - change (run_ops (op :: l) w) with (run_ops l (run_op w op)).
    rewrite IH, run_op_dom. unfold created_ids.
    destruct op; cbn; set_solver.
Qed.

Lemma run_op_cancelled sid w op :
  SessionManager.is_cancelled sid (sessions w) = true ->
  SessionManager.is_cancelled sid (sessions (run_op w op)) = true.
Proof.
  unfold SessionManager.is_cancelled. intros H.
  destruct (sessions w !! sid) as [s|] eqn:Hs; [|discriminate].
  destruct op as [x|x|x|x| | |pg rs]; cbn; rewrite ?Hs; try exact H.
  - unfold SessionManager.create_session.
    destruct (sessions w !! x) eqn:Hx; [now rewrite Hs|].
    destruct (decide (x = sid)) as [->|Hne]; [congruence|].
    now rewrite lookup_insert_ne, Hs.
  - unfold SessionManager.pause.
    destruct (sessions w !! x) as [sx|] eqn:Hx; [|now rewrite Hs].
    destruct (decide (x = sid)) as [->|Hne].
    + rewrite lookup_insert_eq. cbn. congruence.
    + now rewrite lookup_insert_ne, Hs.
  - unfold SessionManager.resume.
    destruct (sessions w !! x) as [sx|] eqn:Hx; [|now rewrite Hs].
    destruct (decide (x = sid)) as [->|Hne].
    + rewrite lookup_insert_eq. cbn. congruence.
    + now rewrite lookup_insert_ne, Hs.
  - unfold SessionManager.cancel.
    destruct (sessions w !! x) as [sx|] eqn:Hx; [|now rewrite Hs].
    destruct (decide (x = sid)) as [->|Hne].
    + now rewrite lookup_insert_eq.
    + now rewrite lookup_insert_ne, Hs.
Qed.

(** X2. Cancellation is for good: once [is_cancelled] holds of a session,
    it holds after any further operations on the registry, [resume] and
    [create_session] of the same id among them. *)
Theorem cancel_is_permanent (sid : string) (l : list EnvOp) (w : State) :
  SessionManager.is_cancelled sid (sessions w) = true ->
  SessionManager.is_cancelled sid (sessions (run_ops l w)) = true.
Proof.
  revert w. induction l as [|op l IH]; intros w H; [exact H|].
  change (run_ops (op :: l) w) with (run_ops l (run_op w op)).
  apply IH. now apply run_op_cancelled.
Qed.

Lemma cancel_is_permanent_witness :
  let w := Sample.paused_state in
  let w1 := run_ops [OpCancel "run"] w in
  SessionManager.is_cancelled "run" (sessions w1) = true
  /\ SessionManager.is_cancelled "run"
       (sessions (run_ops [OpResume "run"; OpCreate "run"; OpPause "run"] w1)) = true.
Proof.
  cbv zeta.
  assert (H : SessionManager.is_cancelled "run"
                (sessions (run_ops [OpCancel "run"] Sample.paused_state)) = true)
    by (vm_compute; reflexivity).
  split; [exact H|].
  exact (cancel_is_permanent "run" [OpResume "run"; OpCreate "run"; OpPause "run"] _ H).
Defined.

Lemma run_op_other sid w op :
  names_session sid op = false -> sessions (run_op w op) !! sid = sessions w !! sid.
Proof.
  destruct op as [x|x|x|x| | |pg rs]; cbn; intros H; try reflexivity;
    apply String.eqb_neq in H.
  - unfold SessionManager.create_session.
    destruct (sessions w !! x); [reflexivity | now apply lookup_insert_ne].
  - unfold SessionManager.pause.
    destruct (sessions w !! x); [now apply lookup_insert_ne | reflexivity].
  - unfold SessionManager.resume.
    destruct (sessions w !! x); [now apply lookup_insert_ne | reflexivity].
  - unfold SessionManager.cancel.
    destruct (sessions w !! x); [now apply lookup_insert_ne | reflexivity].
Qed.

(** X3. The operations on other sessions, and the traffic on the limiter,
    leave a session as it is: its flags and its gate change only through
    calls that name it. *)
Theorem session_untouched_by_others (sid : string) (l : list EnvOp) (w : State) :
  forallb (fun op => negb (names_session sid op)) l = true ->
  sessions (run_ops l w) !! sid = sessions w !! sid.
Proof.
  revert w. induction l as [|op l IH]; intros w H; [reflexivity|].
  change (run_ops (op :: l) w) with (run_ops l (run_op w op)).
  cbn in H. apply andb_true_iff in H as [Hop Hl].
  rewrite IH by exact Hl. apply run_op_other. now apply negb_true_iff.
Qed.

Lemma session_untouched_by_others_witness :
  let l := [OpCreate "other"; OpCancel "other"; OpSemAcquire; OpPause "third"] in
  forallb (fun op => negb (names_session "run" op)) l = true
  /\ sessions (run_ops l Sample.paused_state) !! "run" = sessions Sample.paused_state !! "run".
Proof.
  cbv zeta. split; [reflexivity|].
  exact (session_untouched_by_others "run"
           [OpCreate "other"; OpCancel "other"; OpSemAcquire; OpPause "third"]
           Sample.paused_state eq_refl).
Defined.

Lemma run_op_gate_matches w op :
  map_Forall (fun _ s => gate_matches_paused s) (sessions w) ->
  map_Forall (fun _ s => gate_matches_paused s) (sessions (run_op w op)).
Proof.
  intros H. destruct op as [x|x|x|x| | |pg rs]; cbn; try exact H.
  - unfold SessionManager.create_session.
    destruct (sessions w !! x) eqn:Hx; [exact H|].
    apply map_Forall_insert_2; [|exact H]. split; cbn; intros; congruence.
  - unfold SessionManager.pause.
    destruct (sessions w !! x) as [s|] eqn:Hx; [|exact H].
    apply map_Forall_insert_2; [|exact H]. split; cbn; intros; reflexivity.
  - unfold SessionManager.resume.
    destruct (sessions w !! x) as [s|] eqn:Hx; [|exact H].
    apply map_Forall_insert_2; [|exact H]. unfold Event.set.
    split; cbn; destruct (ev_value (pause_event s)) eqn:E; cbn; intros; congruence.
  - unfold SessionManager.cancel.
    destruct (sessions w !! x) as [s|] eqn:Hx; [|exact H].
    apply map_Forall_insert_2; [|exact H]. destruct (H x s Hx) as [H1 H2].
    unfold Event.set.
    split; cbn; destruct (ev_value (pause_event s)) eqn:E; cbn; intros; congruence.
Qed.

(** X4. In a registry that starts empty, after any operations: a session
    whose gate is closed is flagged paused, and a session flagged paused
    that was not cancelled has its gate closed. Only [cancel] on a paused
    session leaves the flag up with the gate open. *)
Theorem paused_flag_matches_gate (l : list EnvOp) (w : State) (sid : string) (s : Session) :
  sessions w = ∅ ->
  sessions (run_ops l w) !! sid = Some s ->
  gate_matches_paused s.
Proof.
  intros Hempty.
  assert (H : map_Forall (fun _ s => gate_matches_paused s) (sessions w)).
  { rewrite Hempty. apply map_Forall_empty. }
  clear Hempty. revert w H. induction l as [|op l IH]; intros w H Hs.
  - exact (H sid s Hs).
  - change (run_ops (op :: l) w) with (run_ops l (run_op w op)) in Hs.
    apply (IH (run_op w op)); [now apply run_op_gate_matches | exact Hs].
Qed.

Lemma paused_flag_matches_gate_witness :
  exists s,
    sessions (run_ops [OpCreate "run"; OpPause "run"; OpCancel "run"] Sample.state) !! "run"
    = Some s
    /\ gate_matches_paused s
    /\ paused s = true /\ ev_value (pause_event s) = true.
Proof.
  eexists. split; [vm_compute; reflexivity|]. split; [|split; reflexivity].
  apply (paused_flag_matches_gate [OpCreate "run"; OpPause "run"; OpCancel "run"]
           Sample.state "run"); [reflexivity | vm_compute; reflexivity].
Defined.

End Registry.

(* ===================================================================== *)
(** * The retrying executor: attempts, calls and payloads *)
(* ===================================================================== *)

Section Attempts.

Context (cfg : Config) (label payload_str : string) (sound : bool).

Lemma attempt_starts a r tr :
  AttemptTrace cfg label payload_str sound a r tr ->
  (starts tr = [] /\ calls tr = [] /\ sleeps tr = [] /\ forall msg, r <> Ok (Continue msg))
  \/ (starts tr = [a] /\ calls tr = [payload_str] /\ (length (sleeps tr) <= 1)%nat).
Proof.
  intros H. inversion H; subst; cbn; auto.
  left. repeat split; auto. destruct H0 as [-> | ->]; discriminate.
Qed.

Lemma loop_starts a n r tr a' :
  LoopTrace cfg label payload_str sound a n r tr a' ->
  starts tr = seq (S a) (length (starts tr))
  /\ calls tr = repeat payload_str (length (starts tr))
  /\ (length (sleeps tr) <= length (starts tr) <= n)%nat.
Proof.
  intros H; induction H as [a lst | a n v tr Hat | a n tr Hat | a n tr Hat
                           | a n msg tr1 r tr2 a' Hat Hl IH].
  - cbn. auto with lia.
  - apply attempt_starts in Hat as [(-> & -> & -> & _) | (-> & -> & Hs)]; cbn; auto with lia.
  - apply attempt_starts in Hat as [(-> & -> & -> & _) | (-> & -> & Hs)]; cbn; auto with lia.
  - apply attempt_starts in Hat as [(-> & -> & -> & _) | (-> & -> & Hs)]; cbn; auto with lia.
  - apply attempt_starts in Hat as [(_ & _ & _ & Hno) | (Hst & Hc & Hs)].
    + now destruct (Hno msg).
    + destruct IH as (IH1 & IH2 & IH3).
      rewrite starts_app, calls_app, sleeps_app, Hst, Hc, !length_app. cbn.
      rewrite <- IH1, <- IH2. auto with lia.
Qed.

Lemma run_starts semaphore d a r tr :
  RunTrace cfg label payload_str sound semaphore d a r tr ->
  starts tr = seq 1 (length (starts tr))
  /\ calls tr = repeat payload_str (length (starts tr))
  /\ (length (sleeps tr) <= length (starts tr) <= Z.to_nat (MAX_RETRIES cfg))%nat.
Proof.
  assert (Hlim : starts (acquired semaphore) = [] /\ calls (acquired semaphore) = []
                 /\ sleeps (acquired semaphore) = [] /\ starts (released semaphore) = []
                 /\ calls (released semaphore) = [] /\ sleeps (released semaphore) = []).
  { destruct semaphore; cbn; auto 10. }
  destruct Hlim as (A1 & A2 & A3 & R1 & R2 & R3).
  intros H. inversion H as [r0 Hsem Hr | body Hl | r0 body Hne Hl]; subst.
  - cbn. auto with lia.
  - apply loop_starts in Hl. rewrite starts_app, calls_app, sleeps_app, A1, A2, A3. exact Hl.
  - apply loop_starts in Hl.
    rewrite !starts_app, !calls_app, !sleeps_app, A1, A2, A3, R1, R2, R3. cbn.
    rewrite !app_nil_r. exact Hl.
Qed.

End Attempts.

(** X5. In every invocation of the executor the attempts are made one
    after the other and numbered from 1: the [start_attempt] records carry
    the numbers 1, 2, ..., k in this order, and k calls are made. *)
Theorem attempts_numbered_in_order cfg ext runner payload label session_id semaphore w :
  let tr := trace_of (observe_run cfg ext runner payload label session_id semaphore w) in
  starts tr = seq 1 (length (calls tr)).
Proof.
  cbv zeta.
  destruct (observe_run _ _ _ _ _ _ _ _) as [[r w'] tr] eqn:E.
  apply observe_run_trace, run_starts in E as (H1 & H2 & _). unfold trace_of. cbn [snd].
  rewrite H2, repeat_length. exact H1.
Qed.

(** X6. An invocation never calls the runner more than [MAX_RETRIES]
    times, and never sleeps more often than it has called. *)
Theorem calls_bounded_by_max_retries cfg ext runner payload label session_id semaphore w :
  let tr := trace_of (observe_run cfg ext runner payload label session_id semaphore w) in
  (length (sleeps tr) <= length (calls tr) <= Z.to_nat (MAX_RETRIES cfg))%nat.
Proof.
  cbv zeta.
  destruct (observe_run _ _ _ _ _ _ _ _) as [[r w'] tr] eqn:E.
  apply observe_run_trace, run_starts in E as (H1 & H2 & H3). unfold trace_of. cbn [snd].
  rewrite H2, repeat_length. exact H3.
Qed.

(** X7. The runner gets the same text at every call: the payload
    compacted with a budget of 4000, a string as it is and anything else
    through [json.dumps]. A string of at most 4000 characters is passed
    unchanged. *)
Theorem runner_gets_compacted_payload cfg ext runner payload label session_id semaphore w :
  let tr := trace_of (observe_run cfg ext runner payload label session_id semaphore w) in
  Forall (fun p => p = payload_string ext payload) (calls tr)
  /\ (forall s, payload = PStr s -> (String.length s <= 4000)%nat ->
                payload_string ext payload = s).
Proof.
  cbv zeta. split.
  - destruct (observe_run _ _ _ _ _ _ _ _) as [[r w'] tr] eqn:E.
    apply observe_run_trace, run_starts in E as (_ & H2 & _). unfold trace_of. cbn [snd].
    rewrite H2. apply Forall_forall. intros p Hp. apply list_elem_of_In in Hp. now apply repeat_spec in Hp.
  - intros s -> Hs. unfold payload_string. cbn. unfold compact_str.
    destruct (Z.leb_spec (Z.of_nat (String.length s)) 4000); [reflexivity | lia].
Qed.

Lemma runner_gets_compacted_payload_witness :
  (String.length "users.xhtml" <= 4000)%nat
  /\ payload_string Sample.ext (PStr "users.xhtml") = "users.xhtml".
Proof.
  assert (H : (String.length "users.xhtml" <= 4000)%nat) by (cbn; lia).
  split; [exact H|].
  exact (proj2 (runner_gets_compacted_payload default_config Sample.ext Sample.quota_then_ok
                  (PStr "users.xhtml") "Bootstrap" None None Sample.state)
               "users.xhtml" eq_refl H).
Defined.

(** X8. With [MAX_RETRIES] at zero or below the executor makes no call and
    no attempt: it logs [max_retries_exceeded] and returns the exhaustion
    result whose last error is the text of [None]. *)
Theorem no_retries_no_call cfg ext runner payload label session_id semaphore w :
  (MAX_RETRIES cfg <= 0)%Z ->
  semaphore = None \/ (0 < sem_value w)%nat ->
  let run := observe_run cfg ext runner payload label session_id semaphore w in
  result_of run = Ok (ErrorResult "Max retries exceeded: None")
  /\ calls (trace_of run) = []
  /\ In (EvLog (max_retries_exceeded label "None")) (trace_of run)
  /\ attempt (state_of run) = 0%nat.
Proof.
  intros Hmax Hsem. cbv zeta.
  unfold observe_run, try_finally, sem_acquire, sem_release, now_ts, write_log, emit,
    bind, get, modify, ret, result_of, trace_of, state_of.
  replace (Z.to_nat (MAX_RETRIES cfg)) with 0%nat by lia.
  destruct semaphore as [[]|]; cbn.
  - destruct Hsem as [|Hpos]; [discriminate|].
    destruct (sem_value w) as [|k]; [lia|]. cbn. auto 10.
  - auto 10.
Qed.

Lemma no_retries_no_call_witness :
  let cfg := {| MAX_RETRIES := 0; BASE_RETRY_DELAY := 5; QUOTA_BACKOFF_INITIAL := 30 |} in
  (MAX_RETRIES cfg <= 0)%Z
  /\ result_of (observe_run cfg Sample.ext Sample.quota_then_ok Sample.page_payload
                  "Migration:users.xhtml" (Some "run") None Sample.state)
     = Ok (ErrorResult "Max retries exceeded: None").
Proof.
  cbv zeta.
  assert (H : (MAX_RETRIES {| MAX_RETRIES := 0; BASE_RETRY_DELAY := 5;
                              QUOTA_BACKOFF_INITIAL := 30 |} <= 0)%Z) by (cbn; lia).
  split; [exact H|].
  exact (proj1 (no_retries_no_call _ Sample.ext Sample.quota_then_ok Sample.page_payload
                  "Migration:users.xhtml" (Some "run") None Sample.state H
                  (or_introl eq_refl))).
Defined.

(* ===================================================================== *)
(** * The retrying executor: the success counter *)
(* ===================================================================== *)

Section Counter.

Context (cfg : Config) (ext : Externals) (runner : Runner) (label : string).

Lemma retry_loop_metrics payload_str session n : forall last w r w' tr,
  retry_loop cfg ext runner payload_str label session n last w = (r, w', tr) ->
  match r with
  | Ok (RunnerResult _) => bump (metrics w) = Done (metrics w')
  | _ => metrics w' = metrics w
  end.
Proof.
  induction n as [|n IH]; intros last w r w' tr; cbn [retry_loop].
  - unfold bind, write_log, emit, ret. cbn. intros [= <- <- <-]. reflexivity.
  - unfold bind at 1.
    destruct (attempt_once _ _ _ _ _ _ w) as [[[ctl|e|] w1] t1] eqn:E1;
      apply attempt_once_trace in E1 as (_ & _ & E1); unfold counted in E1.
    + destruct ctl as [v|msg].
      * unfold ret. cbn. intros [= <- <- <-]. exact E1.
      * destruct (retry_loop _ _ _ _ _ _ n (Some msg) w1) as [[r2 w2] t2] eqn:E2.
        intros [= <- <- <-]. apply IH in E2. now rewrite E1 in E2.
    + intros [= <- <- <-]. exact E1.
    + intros [= <- <- <-]. exact E1.
Qed.

End Counter.

Lemma bump_counter items :
  (forall v, dict_get "successful_runs" items = Some v -> exists z, v = PAtom (AInt z)) ->
  bump (PDict items)
  = Done (PDict (dict_set "successful_runs"
                   (PAtom (AInt (match dict_get "successful_runs" items with
                                 | Some (PAtom (AInt z)) => z
                                 | _ => 0
                                 end + 1)))
                   items)).
Proof.
  intros H. unfold bump.
  destruct (dict_get "successful_runs" items) as [v|]; [|reflexivity].
  destruct (H v eq_refl) as [z ->]. reflexivity.
Qed.

(** X9. An invocation of the executor changes the metrics in one case
    only: when it returns the runner's result, the metrics document is
    the one before with the success counted in it; for a mapping whose
    [successful_runs] is an integer or is not there, [successful_runs] is
    then one more than before (1 when it was not there) and every other
    metric is as before. An invocation that returns an error result, is
    aborted or stays suspended leaves the metrics alone, whatever its
    failed attempts were. *)
Theorem success_counted_once cfg ext runner payload label session_id semaphore w :
  let run := observe_run cfg ext runner payload label session_id semaphore w in
  match result_of run with
  | Ok (RunnerResult _) =>
      bump (metrics w) = Done (metrics (state_of run))
      /\ forall items,
           metrics w = PDict items ->
           (forall v, dict_get "successful_runs" items = Some v ->
                      exists z, v = PAtom (AInt z)) ->
           metrics (state_of run)
           = PDict (dict_set "successful_runs"
                      (PAtom (AInt (match dict_get "successful_runs" items with
                                    | Some (PAtom (AInt z)) => z
                                    | _ => 0
                                    end + 1)))
                      items)
  | _ => metrics (state_of run) = metrics w
  end.
Proof.
  cbv zeta.
  assert (Hloop : forall w0 r w1 t1,
            metrics w0 = metrics w ->
            retry_loop cfg ext runner (payload_string ext payload) label
              (session_or_default session_id) (Z.to_nat (MAX_RETRIES cfg)) None w0
            = (r, w1, t1) ->
            match r with
            | Ok (RunnerResult _) =>
                bump (metrics w) = Done (metrics w1)
                /\ forall items,
                     metrics w = PDict items ->
                     (forall v, dict_get "successful_runs" items = Some v ->
                                exists z, v = PAtom (AInt z)) ->
                     metrics w1
                     = PDict (dict_set "successful_runs"
                                (PAtom (AInt (match dict_get "successful_runs" items with
                                              | Some (PAtom (AInt z)) => z
                                              | _ => 0
                                              end + 1)))
                                items)
            | _ => metrics w1 = metrics w
            end).
  { intros w0 r w1 t1 Hm E. apply retry_loop_metrics in E. rewrite Hm in E.
    destruct r as [[text|msg]|e|]; try exact E.
    split; [exact E|]. intros items Hi Hz. rewrite Hi, (bump_counter _ Hz) in E.
    now injection E as <-. }
  unfold observe_run, try_finally, sem_acquire, sem_release, now_ts, write_log, emit,
    bind, get, modify, ret, result_of, state_of.
  destruct semaphore as [[]|]; cbn.
  - destruct (sem_value w) as [|k] eqn:Hs; cbn.
    + match goal with |- context [block_on ?r ?sc ?w] =>
        destruct (block_on r sc w) as [[?| ? |] ?] eqn:Eb;
        apply block_on_metrics in Eb as [Hm [?|[?|?]]]; simplify_eq end; cbn in *;
        try exact Hm.
      match goal with |- context [retry_loop ?x1 ?x2 ?x3 ?x4 ?x5 ?x6 ?x7 ?x8 ?x9] =>
        destruct (retry_loop x1 x2 x3 x4 x5 x6 x7 x8 x9) as [[r1 w1] t1] eqn:E end.
      apply Hloop in E; [|exact Hm]. destruct r1 as [[?|?]|?|]; cbn; exact E.
    + match goal with |- context [retry_loop ?x1 ?x2 ?x3 ?x4 ?x5 ?x6 ?x7 ?x8 ?x9] =>
        destruct (retry_loop x1 x2 x3 x4 x5 x6 x7 x8 x9) as [[r1 w1] t1] eqn:E end.
      apply Hloop in E; [|reflexivity]. destruct r1 as [[?|?]|?|]; cbn; exact E.
  - match goal with |- context [retry_loop ?x1 ?x2 ?x3 ?x4 ?x5 ?x6 ?x7 ?x8 ?x9] =>
      destruct (retry_loop x1 x2 x3 x4 x5 x6 x7 x8 x9) as [[r1 w1] t1] eqn:E end.
    apply Hloop in E; [|reflexivity]. destruct r1 as [[?|?]|?|]; cbn; exact E.
Qed.

Lemma success_counted_once_witness :
  let run := observe_run default_config Sample.ext Sample.quota_then_ok Sample.page_payload
               "Migration:users.xhtml" (Some "run") (Some Limiter) Sample.state in
  result_of run = Ok (RunnerResult "ok")
  /\ metrics Sample.state = PDict []
  /\ metrics (state_of run) = PDict [("successful_runs", PAtom (AInt 1))].
Proof.
  cbv zeta.
  pose proof (success_counted_once default_config Sample.ext Sample.quota_then_ok
                Sample.page_payload "Migration:users.xhtml" (Some "run") (Some Limiter)
                Sample.state) as H.
  cbv zeta in H.
  assert (Hres : result_of (observe_run default_config Sample.ext Sample.quota_then_ok
                   Sample.page_payload "Migration:users.xhtml" (Some "run") (Some Limiter)
                   Sample.state) = Ok (RunnerResult "ok")) by (vm_compute; reflexivity).
  rewrite Hres in H. destruct H as [_ H].
  split; [exact Hres|]. split; [reflexivity|].
  apply (H [] eq_refl). intros v Hv. discriminate Hv.
Defined.

(* ===================================================================== *)
(** * The retrying executor: the outcome when nobody interferes *)
(* ===================================================================== *)

Section Policy.

Context (sid : string).

Lemma run_op_running w op :
  op <> OpPause sid -> op <> OpCancel sid ->
  running sid (sessions w) -> running sid (sessions (run_op w op)).
Proof.
  intros Hp Hc (s & Hs & Hv & Hcs).
  destruct op as [x|x|x|x| | |pg rs]; cbn; try (exists s; now auto).
  - unfold SessionManager.create_session.
    destruct (sessions w !! x) eqn:Hx; [exists s; now auto|].
    destruct (decide (x = sid)) as [->|Hne]; [congruence|].
    exists s. rewrite lookup_insert_ne by exact Hne. auto.
  - assert (x <> sid) by congruence. unfold SessionManager.pause.
    destruct (sessions w !! x) as [sx|] eqn:Hx; [|exists s; now auto].
    exists s. rewrite lookup_insert_ne by assumption. auto.
  - unfold SessionManager.resume.
    destruct (sessions w !! x) as [sx|] eqn:Hx; [|exists s; now auto].
    destruct (decide (x = sid)) as [->|Hne].
    + rewrite Hs in Hx. injection Hx as <-.
      eexists. rewrite lookup_insert_eq. split; [reflexivity|]. cbn.
      unfold Event.set. rewrite Hv. auto.
    + exists s. rewrite lookup_insert_ne by exact Hne. auto.
  - assert (x <> sid) by congruence. unfold SessionManager.cancel.
    destruct (sessions w !! x) as [sx|] eqn:Hx; [|exists s; now auto].
    exists s. rewrite lookup_insert_ne by assumption. auto.
Qed.

Lemma run_ops_running l : forall w,
  (forall op, In op l -> op <> OpPause sid /\ op <> OpCancel sid) ->
  running sid (sessions w) -> running sid (sessions (run_ops l w)).
Proof.
  induction l as [|op l IH]; intros w Hl Hr; [exact Hr|].
  change (run_ops (op :: l) w) with (run_ops l (run_op w op)).
  apply IH; [intros o Ho; apply Hl; now right|].
  destruct (Hl op (or_introl eq_refl)). now apply run_op_running.
Qed.

Lemma suspend_at_work w :
  at_work sid w ->
  exists w', suspend w = (Ok tt, w', []) /\ at_work sid w'
             /\ attempt w' = attempt w /\ ticks w' = ticks w /\ metrics w' = metrics w.
Proof.
  intros [Hr Hu]. unfold suspend.
  destruct (script w) as [|b rest] eqn:E.
  - exists w. split; [reflexivity|]. split; [|auto]. split; [exact Hr|]. rewrite E. constructor.
  - inversion Hu as [|? ? [Hi Ho] Hrest]; subst. rewrite Hi.
    eexists. split; [reflexivity|]. split; [split|]; cbn.
    + now apply run_ops_running.
    + exact Hrest.
    + rewrite run_ops_attempt, run_ops_metrics. split; [reflexivity|]. split; [|reflexivity].
      clear. generalize (ops b). intros l. revert w.
      induction l as [|op l IH]; intros w; [reflexivity|].
      change (run_ops (op :: l) w) with (run_ops l (run_op w op)).
      rewrite IH. destruct op; reflexivity.
Qed.

Lemma attempt_once_policy cfg ext runner payload_str label w :
  at_work sid w ->
  exists r w' tr,
    attempt_once cfg ext runner payload_str label sid w = (r, w', tr)
    /\ attempt w' = S (attempt w)
    /\ match runner (S (attempt w)) payload_str with
       | Returns text => r = Ok (Return (counted_result (metrics w) (RunnerResult text)))
       | Raises msg =>
           at_work sid w' /\ metrics w' = metrics w /\
           r = Ok (if retriable msg then Continue msg else Return (ErrorResult msg))
       | Aborts => r = Raise BaseException
       | Stalls => r = Hang
       end.
Proof.
  intros [(s & Hs & Hv & Hc) Hu].
  unfold attempt_once, try_except, call_runner, handle_failure, run_debug,
    wait_pause_event, sleep, now_ts, write_log, emit, raise,
    bind, get, modify, ret, SessionManager.get_event, SessionManager.is_cancelled, retriable,
    counted_result.
  cbn -[suspend wait_forever]. rewrite Hs, Hv. cbn -[suspend wait_forever].
  rewrite Hs, Hc. cbn -[suspend wait_forever].
  match goal with |- context [suspend ?x] =>
    destruct (suspend_at_work x) as (w1 & E1 & H1 & Ha1 & Ht1 & Hm1);
      [split; [exists s; auto | exact Hu]|]; rewrite E1 end.
  cbn -[suspend wait_forever] in *.
  destruct (runner (S (attempt w)) payload_str) as [text|msg| |] eqn:Er;
    cbn -[suspend wait_forever].
  - rewrite record_success_spec. cbn [metrics with_ticks]. rewrite Hm1.
    destruct (bump (metrics w)) as [m|e] eqn:Eb; cbn -[suspend].
    + eexists _, _, _. split; [reflexivity|]. cbn. auto.
    + destruct (bump_fails_fatal _ _ Eb) as [-> ->]. cbn.
      eexists _, _, _. split; [reflexivity|]. cbn. auto.
  - destruct (quota_signature (PyStr.lower msg)) eqn:Eq;
      [|destruct (transient_signature (PyStr.lower msg)) eqn:Et]; cbn -[suspend].
    + match goal with |- context [suspend ?x] =>
        destruct (suspend_at_work x) as (w2 & E2 & H2 & Ha2 & _ & Hm2);
          [exact H1|]; rewrite E2 end.
      eexists _, _, _. split; [reflexivity|]. cbn in *. split; [congruence|].
      split; [exact H2|]. split; [congruence | reflexivity].
    + match goal with |- context [suspend ?x] =>
        destruct (suspend_at_work x) as (w2 & E2 & H2 & Ha2 & _ & Hm2);
          [exact H1|]; rewrite E2 end.
      eexists _, _, _. split; [reflexivity|]. cbn in *. split; [congruence|].
      split; [exact H2|]. split; [congruence | reflexivity].
    + eexists _, _, _. split; [reflexivity|]. cbn in *. split; [congruence|]. auto.
  - eexists _, _, _. split; [reflexivity|]. cbn. auto.
  - destruct H1 as [_ Hu1].
    assert (Hun : uninterrupted (script w1)).
    { eapply Forall_impl; [exact Hu1|]. now intros b [Hb _]. }
    destruct (@wait_forever_uninterrupted string _ Hun) as (w2 & E2 & _).
    unfold bind. cbn -[wait_forever].
    match goal with |- context [@wait_forever ?A ?x] =>
      change (@wait_forever A x) with (@wait_forever string w1) end.
    rewrite E2. eexists _, _, _. split; [reflexivity|]. cbn.
    split; [|reflexivity].
    unfold wait_forever in E2.
    destruct (block_on _ (script w1) w1) as [rb wb] eqn:Eb.
    apply block_on_keeps in Eb as (Hab & _ & _).
    destruct rb as [[]|e|]; simplify_eq; cbn in *; congruence.
Qed.

Lemma retry_loop_policy cfg ext runner payload_str label n : forall last w v,
  at_work sid w ->
  policy_outcome runner payload_str n (attempt w) last = Some v ->
  result_of (retry_loop cfg ext runner payload_str label sid n last w)
  = Ok (counted_result (metrics w) v).
Proof.
  induction n as [|n IH]; intros last w v Hw Hp; cbn [retry_loop policy_outcome] in *.
  - injection Hp as <-. reflexivity.
  - destruct (attempt_once_policy cfg ext runner payload_str label w Hw)
      as (r & w' & tr & E & Ha & Hr).
    unfold bind, result_of. rewrite E.
    destruct (runner (S (attempt w)) payload_str) as [text|msg| |];
      [| |discriminate|discriminate].
    + subst r. injection Hp as <-. reflexivity.
    + destruct Hr as (Hw' & Hm' & ->). destruct (retriable msg).
      * rewrite <- Ha in Hp. specialize (IH (Some msg) w' v Hw' Hp).
        unfold result_of in IH. rewrite Hm' in IH.
        destruct (retry_loop _ _ _ _ _ _ n (Some msg) w') as [[r2 w2] t2]. cbn in *. exact IH.
      * injection Hp as <-. reflexivity.
Qed.

End Policy.

(** X10. When nobody interferes with a session that is not paused and not
    cancelled, the executor does what its retry policy says of the runner:
    it returns the result of the first call that returns, when the success
    can be counted in the metrics document, and the message of the
    exception of the bookkeeping when it cannot; it returns the message of
    the first failure that has neither a quota-class nor a transient-class
    signature; and after [MAX_RETRIES] failures that it retried it returns
    the exhaustion result, which carries the message of the last
    failure. *)
Theorem executor_follows_policy cfg ext runner payload label session_id semaphore w v :
  let sid := session_or_default session_id in
  undisturbed sid (script w) ->
  (forall s, sessions w !! sid = Some s -> ev_value (pause_event s) = true /\ cancel s = false) ->
  semaphore = None \/ (0 < sem_value w)%nat ->
  policy_outcome runner (payload_string ext payload) (Z.to_nat (MAX_RETRIES cfg)) 0 None
  = Some v ->
  result_of (observe_run cfg ext runner payload label session_id semaphore w)
  = Ok (counted_result (metrics w) v)
  /\ (metrics_sound (metrics w) = true ->
      result_of (observe_run cfg ext runner payload label session_id semaphore w) = Ok v).
Proof.
  intros sid Hu Hs Hsem Hp.
  assert (Hst : forall w0, sessions w0 = sessions w -> script w0 = script w ->
                at_work sid (with_sessions (SessionManager.create_session sid) w0)).
  { intros w0 E1 E2. split; cbn; [|now rewrite E2].
    unfold SessionManager.create_session. rewrite E1.
    destruct (sessions w !! sid) as [s|] eqn:E.
    - destruct (Hs s eq_refl). exists s. auto.
    - eexists. rewrite lookup_insert_eq. split; [reflexivity|]. split; reflexivity. }
  assert (Hres : result_of (observe_run cfg ext runner payload label session_id semaphore w)
                 = Ok (counted_result (metrics w) v)).
  { unfold observe_run, try_finally, sem_acquire, sem_release, now_ts, write_log, emit,
      bind, get, modify, ret, result_of. fold sid.
    destruct semaphore as [[]|]; cbn.
    - destruct Hsem as [|Hpos]; [discriminate|].
      destruct (sem_value w) as [|k]; [lia|]. cbn.
      match goal with |- context [retry_loop ?x1 ?x2 ?x3 ?x4 ?x5 ?x6 ?x7 ?x8 ?x9] =>
        pose proof (retry_loop_policy sid x1 x2 x3 x4 x5 x7 x8 x9 v) as Hl end.
      cbn in Hl. specialize (Hl (Hst _ eq_refl eq_refl) Hp). unfold result_of in Hl.
      match goal with |- context [retry_loop ?x1 ?x2 ?x3 ?x4 ?x5 ?x6 ?x7 ?x8 ?x9] =>
        destruct (retry_loop x1 x2 x3 x4 x5 x6 x7 x8 x9) as [[r1 w1] t1] end.
      cbn in *. subst r1. reflexivity.
    - match goal with |- context [retry_loop ?x1 ?x2 ?x3 ?x4 ?x5 ?x6 ?x7 ?x8 ?x9] =>
        pose proof (retry_loop_policy sid x1 x2 x3 x4 x5 x7 x8 x9 v) as Hl end.
      cbn in Hl. specialize (Hl (Hst _ eq_refl eq_refl) Hp). unfold result_of in Hl.
      match goal with |- context [retry_loop ?x1 ?x2 ?x3 ?x4 ?x5 ?x6 ?x7 ?x8 ?x9] =>
        destruct (retry_loop x1 x2 x3 x4 x5 x6 x7 x8 x9) as [[r1 w1] t1] end.
      cbn in *. subst r1. reflexivity. }
  split; [exact Hres|]. intros Hm. rewrite Hres. f_equal.
  unfold counted_result, metrics_sound in *.
  destruct v; [|reflexivity]. now destruct (bump (metrics w)).
Qed.

Lemma executor_follows_policy_witness :
  undisturbed "run" (script Sample.state)
  /\ metrics_sound (metrics Sample.state) = true
  /\ policy_outcome Sample.always_internal (payload_string Sample.ext Sample.page_payload)
       (Z.to_nat (MAX_RETRIES default_config)) 0 None
     = Some (ErrorResult "Max retries exceeded: Internal error")
  /\ result_of (observe_run default_config Sample.ext Sample.always_internal
                  Sample.page_payload "Migration:users.xhtml" (Some "run") (Some Limiter)
                  Sample.state)
     = Ok (ErrorResult "Max retries exceeded: Internal error").
Proof.
  assert (Hu : undisturbed "run" (script Sample.state)) by constructor.
  assert (Hm : metrics_sound (metrics Sample.state) = true) by reflexivity.
  assert (Hp : policy_outcome Sample.always_internal
                 (payload_string Sample.ext Sample.page_payload)
                 (Z.to_nat (MAX_RETRIES default_config)) 0 None
               = Some (ErrorResult "Max retries exceeded: Internal error"))
    by (vm_compute; reflexivity).
  split; [exact Hu|]. split; [exact Hm|]. split; [exact Hp|].
  destruct (executor_follows_policy default_config Sample.ext Sample.always_internal
              Sample.page_payload "Migration:users.xhtml" (Some "run") (Some Limiter)
              Sample.state (ErrorResult "Max retries exceeded: Internal error") Hu)
    as [_ H]; [|right; cbn; lia | exact Hp | exact (H Hm)].
  intros s Hl. vm_compute in Hl. discriminate Hl.
Defined.

(* ===================================================================== *)
(** * A paused session holds its task *)
(* ===================================================================== *)




(* ===================================================================== *)
(** * Payload compaction: bounds, fixed points *)
(* ===================================================================== *)

Section Compaction.

Lemma take_length n s : String.length (PyStr.take n s) = Nat.min n (String.length s).
Proof.
  revert s. induction n as [|n IH]; intros [|c s]; simpl; try reflexivity.
  f_equal. apply IH.
Qed.

Lemma string_app_length a b :
  String.length (a +:+ b) = (String.length a + String.length b)%nat.
Proof. induction a as [|c a IH]; [reflexivity|]. simpl. f_equal. exact IH. Qed.

Lemma take_app_exact a b : PyStr.take (String.length a) (a +:+ b) = a.
Proof. induction a as [|c a IH]; [now destruct b|]. simpl. f_equal. exact IH. Qed.

Lemma compact_str_length s m :
  (0 <= m)%Z ->
  exists t, compact_str s m = PStr t /\ (Z.of_nat (String.length t) <= m + 14)%Z.
Proof.
  intros Hm. unfold compact_str.
  destruct (Z.leb_spec (Z.of_nat (String.length s)) m) as [H|H].
  - exists s. split; [reflexivity | lia].
  - eexists. split; [reflexivity|].
    unfold PyStr.slice_to. destruct (Z.leb_spec 0 m); [|lia].
    rewrite string_app_length, take_length. cbn. lia.
Qed.

Lemma compact_str_idem s m :
  (0 <= m)%Z ->
  compact_context (compact_str s m) m = compact_str s m.
Proof.
  intros Hm. unfold compact_str at 1.
  destruct (Z.leb_spec (Z.of_nat (String.length s)) m) as [H|H]; cbn [compact_context].
  - reflexivity.
  - unfold compact_str at 1.
    assert (Hl : String.length (PyStr.slice_to m s) = Z.to_nat m).
    { unfold PyStr.slice_to. destruct (Z.leb_spec 0 m); [|lia]. rewrite take_length. lia. }
    destruct (Z.leb_spec (Z.of_nat (String.length (PyStr.slice_to m s +:+ TRUNCATED))) m)
      as [H'|H'].
    + rewrite string_app_length, Hl in H'. cbn in H'. lia.
    + unfold compact_str. destruct (Z.leb_spec (Z.of_nat (String.length s)) m); [lia|].
      f_equal. f_equal.
      unfold PyStr.slice_to at 1. destruct (Z.leb_spec 0 m); [|lia].
      rewrite <- Hl. apply take_app_exact.
Qed.

Lemma bounded_dict m items :
  bounded m (PDict items) <-> Forall (fun kv => bounded m (snd kv)) items.
Proof.
  cbn. induction items as [|[k v] r IH].
  - split; [constructor | auto].
  - rewrite Forall_cons, IH. reflexivity.
Qed.

Lemma bounded_list m xs :
  bounded m (PList xs) <-> (List.length xs <= 51)%nat /\ Forall (bounded m) xs.
Proof.
  cbn. apply and_iff_compat_l. induction xs as [|x r IH].
  - split; [constructor | auto].
  - rewrite Forall_cons, IH. reflexivity.
Qed.

Lemma fits_dict m items :
  fits m (PDict items) <-> Forall (fun kv => fits (budget (fst kv) m) (snd kv)) items.
Proof.
  cbn. induction items as [|[k v] r IH].
  - split; [constructor | auto].
  - rewrite Forall_cons, IH. reflexivity.
Qed.

Lemma fits_list m xs :
  fits m (PList xs) <-> (List.length xs <= 50)%nat /\ Forall (fits m) xs.
Proof.
  cbn. apply and_iff_compat_l. induction xs as [|x r IH].
  - split; [constructor | auto].
  - rewrite Forall_cons, IH. reflexivity.
Qed.

Lemma bounded_mono v : forall m m', (m <= m')%Z -> bounded m v -> bounded m' v.
Proof.
  induction v as [s|items IH|xs IH|a] using PyVal_nested_ind; intros m m' Hm.
  - cbn. lia.
  - rewrite !bounded_dict. intros H. rewrite Forall_forall in IH, H |- *.
    intros kv Hin. exact (IH kv Hin m m' Hm (H kv Hin)).
  - rewrite !bounded_list. intros [Hl H]. split; [exact Hl|].
    rewrite Forall_forall in IH, H |- *.
    intros x Hin. exact (IH x Hin m m' Hm (H x Hin)).
  - auto.
Qed.

Lemma budget_range k m : (0 <= m)%Z -> (0 <= budget k m <= m)%Z.
Proof.
  intros Hm. unfold budget. destruct (PyStr.endswith _ _); [|lia].
  split; [apply Z.div_pos; lia | apply Z.div_le_upper_bound; lia].
Qed.

Lemma dict_set_Forall {V} (P : string * V -> Prop) k v d :
  P (k, v) -> Forall P d -> Forall P (dict_set k v d).
Proof.
  intros Hv. induction d as [|[k' v'] r IH]; cbn; intros H.
  - constructor; [apply Hv | constructor].
  - apply Forall_cons in H as [H1 H2].
    destruct (String.eqb_spec k k') as [<-|Hne]; apply Forall_cons; auto.
Qed.

Lemma dict_loop_Forall (P : string * PyVal -> Prop) f items : forall out,
  (forall k v, In (k, v) items -> P (k, f k v)) ->
  Forall P out -> Forall P (dict_loop f items out).
Proof.
  induction items as [|[k v] r IH]; intros out Hf Ho; cbn; [exact Ho|].
  apply IH; [intros; apply Hf; now right|].
  apply dict_set_Forall; [|exact Ho]. apply Hf. now left.
Qed.

Lemma dict_set_keys {V} k (v : V) d :
  List.NoDup (map fst d) -> List.NoDup (map fst (dict_set k v d)).
Proof.
  induction d as [|[k' v'] r IH]; cbn; intros H.
  - constructor; [intros [] | constructor].
  - destruct (String.eqb_spec k k') as [->|Hne]; [exact H|].
    inversion H as [|? ? Hn Hr]; subst. cbn. constructor; [|now apply IH].
    intros Hin. apply Hn. clear - Hin Hne.
    induction r as [|[k2 v2] r IH]; cbn in *.
    + destruct Hin as [E|[]]. congruence.
    + destruct (String.eqb_spec k k2) as [->|Hne2]; cbn in Hin; [exact Hin|].
      destruct Hin as [E|Hin]; [now left | right; now apply IH].
Qed.

Lemma dict_loop_keys f items : forall out,
  List.NoDup (map fst out) -> List.NoDup (map fst (dict_loop f items out)).
Proof.
  induction items as [|[k v] r IH]; intros out H; cbn; [exact H|].
  apply IH. now apply dict_set_keys.
Qed.

Lemma dict_loop_fixed f d :
  List.NoDup (map fst d) ->
  Forall (fun kv => f (fst kv) (snd kv) = snd kv) d ->
  dict_loop f d [] = d.
Proof.
  intros Hk Hf. rewrite dict_loop_fresh by exact Hk. cbn.
  induction d as [|[k v] r IH]; cbn; [reflexivity|].
  apply Forall_cons in Hf as [H1 H2]. cbn in H1. rewrite H1. f_equal.
  apply IH; [now inversion Hk | exact H2].
Qed.

Lemma dict_set_key_set {V} k (v : V) d k' :
  In k' (map fst (dict_set k v d)) <-> k' = k \/ In k' (map fst d).
Proof.
  induction d as [|[k2 v2] r IH]; cbn; [intuition congruence|].
  destruct (String.eqb_spec k k2) as [->|Hne]; cbn; [intuition congruence|].
  rewrite IH. intuition congruence.
Qed.

Lemma dict_loop_key_set f items k : forall out,
  In k (map fst (dict_loop f items out)) <-> In k (map fst out) \/ In k (map fst items).
Proof.
  induction items as [|[k2 v2] r IH]; intros out; cbn; [tauto|].
  rewrite IH, dict_set_key_set. intuition congruence.
Qed.

(** X12. For a budget that is not negative, every string that is a value
    of a compacted payload (the payload itself, an element of a list, the
    value under a key, at any depth) has at most the budget plus the 14
    characters of the truncation suffix, and every list of it at most 51
    elements. The keys of a mapping are not cut: the compacted mapping has
    the keys of the mapping it was made from. *)
Theorem compact_context_bounded (obj : PyVal) (max_chars : Z) :
  ((0 <= max_chars)%Z -> bounded max_chars (compact_context obj max_chars))
  /\ (forall items, obj = PDict items ->
        exists items',
          compact_context obj max_chars = PDict items'
          /\ forall k, In k (map fst items') <-> In k (map fst items)).
Proof.
  split.
  - revert max_chars.
    induction obj as [s|items IH|xs IH|a] using PyVal_nested_ind; intros m Hm.
    + cbn [compact_context]. destruct (compact_str_length s m Hm) as (t & -> & Ht). exact Ht.
    + cbn [compact_context]. apply bounded_dict.
      apply dict_loop_Forall; [|constructor].
      intros k v Hin. cbn. rewrite Forall_forall in IH.
      apply list_elem_of_In in Hin.
      apply bounded_mono with (m := budget k m); [apply budget_range, Hm|].
      apply (IH (k, v) Hin). apply budget_range, Hm.
    + cbn [compact_context]. apply bounded_list. split.
      * rewrite length_app, map_first_firstn, length_map, length_firstn.
        destruct (50 <? List.length xs)%nat; cbn [List.length]; lia.
      * apply Forall_app. split.
        -- rewrite map_first_firstn. apply Forall_map.
           apply Forall_take. rewrite Forall_forall in IH |- *.
           intros x Hin. now apply IH.
        -- destruct (50 <? List.length xs)%nat; constructor; [|constructor].
           destruct (compact_str_length TRUNCATED_ITEMS m Hm) as (t & -> & Ht). exact Ht.
    + exact I.
  - intros items ->. cbn [compact_context]. eexists. split; [reflexivity|].
    intros k. rewrite dict_loop_key_set. cbn. tauto.
Qed.

(** X13. A payload that is within the budget comes back unchanged: no
    string longer than the budget of its place (a quarter of it under a
    key that ends in [content]), no list of more than 50 elements. *)
Theorem compact_context_keeps_small_payloads (obj : PyVal) (max_chars : Z) :
  well_formed obj -> fits max_chars obj -> compact_context obj max_chars = obj.
Proof.
  revert max_chars.
  induction obj as [s|items IH|xs IH|a] using PyVal_nested_ind; intros m Hw Hf.
  - cbn in *. unfold compact_str.
    destruct (Z.leb_spec (Z.of_nat (String.length s)) m); [reflexivity | lia].
  - cbn [compact_context]. f_equal.
    apply well_formed_dict in Hw as [Hk Hw]. apply fits_dict in Hf.
    apply dict_loop_fixed; [exact Hk|].
    rewrite Forall_forall in IH, Hw, Hf |- *.
    intros kv Hin. apply IH; auto.
  - cbn [compact_context]. apply well_formed_list in Hw. apply fits_list in Hf as [Hl Hf].
    destruct (Nat.ltb_spec 50 (List.length xs)); [lia|].
    rewrite app_nil_r, map_first_firstn, firstn_all2 by lia. f_equal.
    rewrite Forall_forall in IH, Hw, Hf.
    rewrite <- (map_id xs) at 2. apply map_ext_in.
    intros x Hin. apply list_elem_of_In in Hin. apply IH; auto.
  - reflexivity.
Qed.

(** X14. Compacting twice is compacting once, for a budget that is not
    negative: the suffix of a truncated string and the marker at the end of
    a truncated list are not counted against the budget a second time. *)
Theorem compact_context_idempotent (obj : PyVal) (max_chars : Z) :
  (0 <= max_chars)%Z ->
  compact_context (compact_context obj max_chars) max_chars = compact_context obj max_chars.
Proof.
  revert max_chars.
  induction obj as [s|items IH|xs IH|a] using PyVal_nested_ind; intros m Hm.
  - cbn [compact_context]. now apply compact_str_idem.
  - cbn [compact_context]. f_equal.
    apply dict_loop_fixed; [apply dict_loop_keys; constructor|].
    apply dict_loop_Forall; [|constructor].
    intros k v Hin. cbn.
    rewrite Forall_forall in IH. apply list_elem_of_In in Hin.
    apply (IH (k, v) Hin). apply budget_range, Hm.
  - cbn [compact_context].
    set (f := fun x => compact_context x m) in *.
    set (c := compact_str TRUNCATED_ITEMS m).
    assert (Hc : f c = c) by (apply compact_str_idem, Hm).
    assert (Hff : map f (map f (firstn 50 xs)) = map f (firstn 50 xs)).
    { rewrite map_map. apply map_ext_in. intros x Hin.
      apply (Forall_take _ 50) in IH. rewrite Forall_forall in IH.
      apply list_elem_of_In in Hin. now apply IH. }
    rewrite !map_first_firstn. f_equal.
    destruct (Nat.ltb_spec 50 (List.length xs)) as [Hl|Hl].
    + assert (Hlen : List.length (firstn 50 xs) = 50%nat) by (rewrite length_firstn; lia).
      rewrite firstn_app, length_map, Hlen, Nat.sub_diag. cbn [firstn].
      rewrite app_nil_r, firstn_all2 by (rewrite length_map; lia).
      rewrite length_app, length_map, Hlen. cbn. now rewrite Hff.
    + rewrite !app_nil_r.
      rewrite (firstn_all2 (n := 50) (map f (firstn 50 xs)))
        by (rewrite length_map, length_firstn; lia).
      rewrite length_map, length_firstn.
      destruct (Nat.ltb_spec 50 (Nat.min 50 (List.length xs))); [lia|].
      now rewrite app_nil_r.
  - reflexivity.
Qed.

End Compaction.

Lemma compact_context_bounded_witness :
  bounded 4 (compact_context (PDict [("content", PStr "0123456789")]) 4)
  /\ exists items',
       compact_context (PDict [("content", PStr "0123456789")]) 4 = PDict items'
       /\ forall k, In k (map fst items') <-> In k ["content"].
Proof.
  destruct (compact_context_bounded (PDict [("content", PStr "0123456789")]) 4) as [H1 H2].
  split; [apply H1; lia | exact (H2 _ eq_refl)].
Defined.

Lemma compact_context_keeps_small_payloads_witness :
  compact_context Sample.page_source 4000 = Sample.page_source.
Proof.
  apply (compact_context_keeps_small_payloads Sample.page_source 4000).
  - apply well_formed_dict. split.
    + repeat (apply List.NoDup_cons; [cbn; intuition discriminate|]). apply List.NoDup_nil.
    + repeat (apply Forall_cons; split; [exact I|]). apply Forall_nil. reflexivity.
  - apply fits_dict.
    repeat (apply Forall_cons; split; [vm_compute; discriminate|]). apply Forall_nil. reflexivity.
Defined.

Lemma compact_context_idempotent_witness :
  compact_context (compact_context (PList [PStr "0123456789"; PAtom ANone]) 4) 4
  = compact_context (PList [PStr "0123456789"; PAtom ANone]) 4.
Proof.
  apply (compact_context_idempotent (PList [PStr "0123456789"; PAtom ANone]) 4). lia.
Defined.

(** X15. The bootstrap run gets the list of the project's pages as its
    payload, and the executor compacts it: of more than 50 pages (with
    paths of at most 4000 characters) every call of the bootstrap runner
    carries the first 50 and the truncation marker only. *)
Theorem bootstrap_sees_fifty_files cfg ext runner (rel_files : list string) session_id w :
  (50 < List.length rel_files)%nat ->
  Forall (fun f => (String.length f <= 4000)%nat) rel_files ->
  let tr := trace_of (observe_run cfg ext runner (PList (map PStr rel_files)) "Bootstrap"
                        session_id None w) in
  Forall (fun p => p = json_dumps ext
                         (PList (map PStr (firstn 50 rel_files) ++ [PStr TRUNCATED_ITEMS])))
         (calls tr).
Proof.
  intros Hlen Hshort. cbv zeta.
  assert (Hp : payload_string ext (PList (map PStr rel_files))
               = json_dumps ext
                   (PList (map PStr (firstn 50 rel_files) ++ [PStr TRUNCATED_ITEMS]))).
  { unfold payload_string. cbn [compact_context]. rewrite length_map.
    destruct (Nat.ltb_spec 50 (List.length rel_files)); [|lia].
    rewrite map_first_firstn. f_equal. f_equal. f_equal.
    rewrite firstn_map, map_map. apply map_ext_in. intros f Hin.
    apply (Forall_take _ 50) in Hshort. rewrite Forall_forall in Hshort.
    apply list_elem_of_In in Hin. specialize (Hshort f Hin).
    cbn. unfold compact_str.
    destruct (Z.leb_spec (Z.of_nat (String.length f)) 4000); [reflexivity | lia]. }
  destruct (observe_run _ _ _ _ _ _ _ _) as [[r w'] tr] eqn:E.
  apply observe_run_trace, run_starts in E as (_ & H2 & _). unfold trace_of. cbn [snd].
  rewrite H2, Hp. apply Forall_forall. intros p Hin.
  apply list_elem_of_In in Hin. now apply repeat_spec in Hin.
Qed.

Lemma bootstrap_sees_fifty_files_witness :
  let files := repeat "users.xhtml" 51 in
  (50 < List.length files)%nat
  /\ calls (trace_of (observe_run default_config Sample.ext Sample.quota_then_ok
                        (PList (map PStr files)) "Bootstrap" None None Sample.state))
     <> []
  /\ Forall (fun p => p = json_dumps Sample.ext
                            (PList (map PStr (firstn 50 files) ++ [PStr TRUNCATED_ITEMS])))
       (calls (trace_of (observe_run default_config Sample.ext Sample.quota_then_ok
                           (PList (map PStr files)) "Bootstrap" None None Sample.state))).
Proof.
  cbv zeta.
  assert (H : (50 < List.length (repeat "users.xhtml" 51))%nat) by (cbn; lia).
  split; [exact H|]. split; [vm_compute; discriminate|].
  apply (bootstrap_sees_fifty_files default_config Sample.ext Sample.quota_then_ok
           (repeat "users.xhtml" 51) None Sample.state H).
  apply Forall_forall. intros f Hin. apply list_elem_of_In, repeat_spec in Hin. subst f.
  cbn. lia.
Defined.

(* ===================================================================== *)
(** * MemoryBank and the metrics file: reading back what was set *)
(* ===================================================================== *)

(** X16. What [set] stores under a key, [get] returns for that key,
    whatever the default; for every other key [get] answers as before. *)
Theorem memory_bank_set_then_get (self self' : MemoryBank.t) (key : string) (value : PyVal) :
  MemoryBank.set self key value = Done self' ->
  MemoryBank.path self' = MemoryBank.path self
  /\ (forall default, MemoryBank.get self' key default = Done value)
  /\ (forall other default, other <> key ->
        MemoryBank.get self' other default = MemoryBank.get self other default).
Proof.
  unfold MemoryBank.set, MemoryBank.get.
  destruct (MemoryBank._store self) as [s|items|xs|a] eqn:E; cbn; try discriminate.
  intros [= <-]. cbn. split; [reflexivity|]. split.
  - intros d. now rewrite dict_get_set_eq.
  - intros other d Hne. now rewrite dict_get_set_ne.
Qed.

Lemma memory_bank_set_then_get_witness :
  let bank := {| MemoryBank.path := "memory/project_memory.json";
                 MemoryBank._store := Sample.project_memory |} in
  exists bank',
    MemoryBank.set bank "styles" (PList [PStr "main.css"]) = Done bank'
    /\ MemoryBank.get bank' "styles" (PAtom ANone) = Done (PList [PStr "main.css"]).
Proof.
  cbv zeta. eexists. split; [reflexivity|].
  exact (proj1 (proj2 (memory_bank_set_then_get
                         {| MemoryBank.path := "memory/project_memory.json";
                            MemoryBank._store := Sample.project_memory |} _ "styles"
                         (PList [PStr "main.css"]) eq_refl)) (PAtom ANone)).
Defined.

(** X17. [load] takes whatever JSON value the snapshot holds, without
    looking at its type: after loading a snapshot that parses to something
    other than a mapping, [get] and [set] both raise. *)
Theorem memory_bank_snapshot_not_a_mapping ext (self : MemoryBank.t)
    (fs : gmap string string) (text : string) (v : PyVal) :
  fs !! MemoryBank.path self = Some text ->
  json_loads ext text = Some v ->
  (forall items, v <> PDict items) ->
  let loaded := MemoryBank.load ext self fs in
  (forall key default, exists e, MemoryBank.get loaded key default = Fails e)
  /\ (forall key value, exists e, MemoryBank.set loaded key value = Fails e).
Proof.
  intros Hf Hj Hv. cbv zeta. unfold MemoryBank.load, MemoryBank.get, MemoryBank.set.
  rewrite Hf, Hj. cbn.
  destruct v as [s|items|xs|a]; [| now destruct (Hv items) | |]; cbn; eauto.
Qed.

Lemma memory_bank_snapshot_not_a_mapping_witness :
  let ext := {| json_dumps := Sample.dumps;
                json_loads := fun _ => Some (PList []);
                clock := fun _ => 0%Q |} in
  exists e,
    MemoryBank.get (MemoryBank.load ext (MemoryBank.init "memory/project_memory.json")
                      {["memory/project_memory.json" := "[]"]})
                   "styles" (PAtom ANone) = Fails e.
Proof.
  cbv zeta.
  refine (proj1 (memory_bank_snapshot_not_a_mapping
                   {| json_dumps := Sample.dumps;
                      json_loads := fun _ => Some (PList []);
                      clock := fun _ => 0%Q |}
                   (MemoryBank.init "memory/project_memory.json")
                   {["memory/project_memory.json" := "[]"]} "[]" (PList [])
                   _ eq_refl _) "styles" (PAtom ANone)).
  - apply lookup_singleton_eq.
  - intros items. discriminate.
Defined.



(** X19. [update_metric] on a metrics file that is missing or does not
    parse starts from the empty mapping: afterwards the file holds the one
    key just written, and whatever it held before is gone. *)
Theorem metric_update_resets_unreadable_file ext (path k : string) (v : PyVal)
    (fs : gmap string string) :
  (forall text, fs !! path = Some text -> json_loads ext text = None) ->
  MetricsFile.update_metric ext path k v fs
  = Done (<[path := json_dumps ext (PDict [(k, v)])]> fs).
Proof.
  intros H. unfold MetricsFile.update_metric, MetricsFile.load_metrics.
  destruct (fs !! path) as [text|] eqn:E; [rewrite (H text eq_refl)|]; reflexivity.
Qed.

Lemma metric_update_resets_unreadable_file_witness :
  MetricsFile.update_metric Sample.ext "logs/metrics.json" "successful_runs" (PAtom (AInt 1))
    {["logs/metrics.json" := "{'successful_runs': 41"]}
  = Done (<["logs/metrics.json" :=
              json_dumps Sample.ext (PDict [("successful_runs", PAtom (AInt 1))])]>
            {["logs/metrics.json" := "{'successful_runs': 41"]}).
Proof.
  apply (metric_update_resets_unreadable_file Sample.ext "logs/metrics.json"
           "successful_runs" (PAtom (AInt 1))
           {["logs/metrics.json" := "{'successful_runs': 41"]}).
  intros text H. rewrite lookup_singleton_eq in H. injection H as <-.
  vm_compute. reflexivity.
Defined.

(* ===================================================================== *)
(** * A2AMessenger: order of delivery *)
(* ===================================================================== *)

Section Queues.

Import A2AMessenger.

Lemma items_get_queue name name' self : items name' (get_queue name self) = items name' self.
Proof.
  unfold get_queue, items. destruct (self !! name) eqn:E; [reflexivity|].
  destruct (decide (name' = name)) as [->|Hne].
  - now rewrite lookup_insert_eq, E.
  - now rewrite lookup_insert_ne by auto.
Qed.

Lemma items_send_eq name msg self : items name (send name msg self) = items name self ++ [msg].
Proof.
  unfold send. unfold items at 1. rewrite lookup_insert_eq. cbn.
  now rewrite items_get_queue.
Qed.

Lemma items_send_ne name name' msg self :
  name' <> name -> items name' (send name msg self) = items name' self.
Proof.
  intros Hne. unfold send. unfold items at 1. rewrite lookup_insert_ne by auto.
  apply items_get_queue.
Qed.

Lemma items_sends name sends : forall self,
  items name (fold_left (fun s nm => send (fst nm) (snd nm) s) sends self)
  = items name self ++ map snd (List.filter (fun nm => String.eqb (fst nm) name) sends).
Proof.
  induction sends as [|[n m] r IH]; intros self; cbn [fold_left].
  - cbn. now rewrite app_nil_r.
  - rewrite IH. cbn [List.filter fst snd].
    destruct (String.eqb_spec n name) as [->|Hne].
    + rewrite items_send_eq, <- app_assoc. reflexivity.
    + rewrite items_send_ne by auto. reflexivity.
Qed.

Lemma recv_many_ready name timeout script xs : forall self rest,
  negative timeout = false ->
  items name self = xs ++ rest ->
  exists self',
    recv_many name timeout (List.length xs) script self = (map Message xs, self', script)
    /\ items name self' = rest.
Proof.
  induction xs as [|x xs IH]; intros self rest Hneg H; cbn [recv_many List.length map].
  - eauto.
  - unfold recv. rewrite Hneg, items_get_queue, H. cbn [app].
    destruct (IH (<[name := xs ++ rest]> (get_queue name self)) rest) as (self' & E & Hi).
    + exact Hneg.
    + unfold items. now rewrite lookup_insert_eq.
    + rewrite E. eauto.
Qed.

Lemma await_item_untimed name script : forall self,
  fst (fst (await_item name false script self)) <> NoMessage.
Proof.
  induction script as [|w rest IH]; intros self; cbn [await_item]; [discriminate|].
  cbn [andb]. destruct (items name _); [apply IH | discriminate].
Qed.

End Queues.

(** X20. Messages arrive in the order they were sent, each on the queue
    it was sent to: after any sequence of [send]s on a new messenger, a
    task that calls [recv(name)] once for every message sent to [name] gets
    exactly those, in the order of sending, without ever waiting; the queue
    is empty afterwards. *)
Theorem messages_arrive_in_order (sends : list (string * PyVal)) (name : string)
    (script : list A2AMessenger.Wait) :
  let mine := map snd (List.filter (fun nm => String.eqb (fst nm) name) sends) in
  let self := fold_left (fun s nm => A2AMessenger.send (fst nm) (snd nm) s) sends ∅ in
  let run := A2AMessenger.recv_many name None (List.length mine) script self in
  fst (fst run) = map A2AMessenger.Message mine
  /\ snd run = script
  /\ A2AMessenger.items name (snd (fst run)) = [].
Proof.
  cbv zeta.
  destruct (recv_many_ready name None script
              (map snd (List.filter (fun nm => String.eqb (fst nm) name) sends))
              (fold_left (fun s nm => A2AMessenger.send (fst nm) (snd nm) s) sends ∅) [])
    as (self' & E & Hi).
  - reflexivity.
  - rewrite items_sends, app_nil_r. reflexivity.
  - rewrite E. cbn. auto.
Qed.

(** X21. A timeout of zero is no timeout: [recv] tests [if timeout:], so
    with [0] as with [None] it waits for an item without a limit, and never
    returns [None] for want of a message. *)
Theorem recv_zero_timeout_waits_forever (name : string) (timeout : Q)
    (script : list A2AMessenger.Wait) (self : A2AMessenger.t) :
  timeout == 0 ->
  A2AMessenger.recv name (Some timeout) script self = A2AMessenger.recv name None script self
  /\ fst (fst (A2AMessenger.recv name (Some timeout) script self)) <> A2AMessenger.NoMessage.
Proof.
  intros Hz.
  assert (Ht : A2AMessenger.truthy (Some timeout) = false).
  { cbn. apply Qeq_bool_iff in Hz. now rewrite Hz. }
  assert (Hn : A2AMessenger.negative (Some timeout) = false).
  { cbn. apply Qeq_bool_iff in Hz. rewrite Hz. apply andb_false_r. }
  unfold A2AMessenger.recv. rewrite Ht, Hn. cbn [A2AMessenger.truthy A2AMessenger.negative].
  split; [reflexivity|].
  destruct (A2AMessenger.items name _); [apply await_item_untimed | discriminate].
Qed.

Lemma recv_zero_timeout_waits_forever_witness :
  let script := [{| A2AMessenger.others := []; A2AMessenger.timer := true |}] in
  A2AMessenger.recv "planner" (Some 0%Q) script ∅ = A2AMessenger.recv "planner" None script ∅
  /\ fst (fst (A2AMessenger.recv "planner" (Some 0%Q) script ∅)) <> A2AMessenger.NoMessage.
Proof.
  cbv zeta.
  apply (recv_zero_timeout_waits_forever "planner" 0%Q
           [{| A2AMessenger.others := []; A2AMessenger.timer := true |}] ∅).
  reflexivity.
Defined.

(* ===================================================================== *)
(** * The aggregation pass: how long it waits *)
(* ===================================================================== *)

Section Delays.

Lemma Qsum_app a b : (Qsum (a ++ b) == Qsum a + Qsum b)%Q.
Proof.
  induction a as [|x a IH].
  - change (Qsum ([] ++ b)) with (Qsum b). change (Qsum []) with 0%Q. ring.
  - change (Qsum ((x :: a) ++ b)) with (x + Qsum (a ++ b))%Q.
    change (Qsum (x :: a)) with (x + Qsum a)%Q. rewrite IH. ring.
Qed.

Lemma item_delay_values result :
  item_delay result == 930 \/ item_delay result == 3165 # 8 \/ item_delay result == 0.
Proof.
  unfold item_delay, backoff_factor.
  destruct (eval_quota_signature _); [left; reflexivity|].
  destruct (eval_overloaded_signature _); [right; left; reflexivity | right; right; reflexivity].
Qed.

Lemma evaluate_page_delay page result evs w :
  uninterrupted (script w) ->
  exists evs' w' tr,
    evaluate_page page result evs w = (Ok evs', w', tr)
    /\ uninterrupted (script w')
    /\ Qsum (sleeps tr) == item_delay result.
Proof.
  intros Hu. unfold item_delay. destruct (backoff_factor result) as [f|] eqn:Hf.
  - destruct (evaluate_page_backoff page result evs f w Hf Hu) as (w' & tr & He & Hu' & Hs).
    eexists _, w', tr. split; [exact He|]. split; [exact Hu'|]. rewrite Hs. reflexivity.
  - rewrite (evaluate_page_clean _ _ _ _ Hf). eexists _, w, []. split; [reflexivity|].
    split; [exact Hu | reflexivity].
Qed.

Lemma aggregate_delay items : forall evs w,
  uninterrupted (script w) ->
  exists evs' w' tr,
    aggregate_items items evs w = (Ok evs', w', tr)
    /\ Qsum (sleeps tr) == Qsum (map (fun pr => item_delay (snd pr)) items).
Proof.
  induction items as [|[page result] rest IH]; intros evs w Hu; cbn [aggregate_items].
  - exists evs, w, []. split; reflexivity.
  - destruct (evaluate_page_delay page result evs w Hu) as (evs1 & w1 & t1 & He & Hu1 & Hs1).
    destruct (IH evs1 w1 Hu1) as (evs2 & w2 & t2 & Ha & Hs2).
    exists evs2, w2, (t1 ++ t2). split; [exact (bind_ok _ _ _ _ _ _ _ _ _ He Ha)|].
    rewrite sleeps_app, Qsum_app, Hs1, Hs2. reflexivity.
Qed.

End Delays.

(** X22. The aggregation pass, when nothing is thrown into it and no task
    stores a result meanwhile, always comes to an end, and the time it
    sleeps is the sum over the pages of a delay that depends on the text of
    the page's result alone: 930 seconds for a quota-class text, 395.625
    seconds for an overloaded-class text, none for any other. *)
Theorem aggregation_delay (w : State) :
  uninterrupted (script w) ->
  no_late_result (script w) ->
  let run := aggregation_pass w in
  (exists evaluations, result_of run = Ok evaluations)
  /\ Qsum (sleeps (trace_of run))
     == Qsum (map (fun pr => item_delay (snd pr)) (migration_results w))
  /\ Forall (fun pr => item_delay (snd pr) == 930 \/ item_delay (snd pr) == 3165 # 8
                       \/ item_delay (snd pr) == 0) (migration_results w).
Proof.
  intros Hu Hn. cbv zeta. rewrite (aggregation_pass_items w Hn).
  destruct (aggregate_delay (migration_results w) ∅ w Hu) as (evs & w' & tr & E & Hs).
  unfold result_of, trace_of. rewrite E. cbn [fst snd].
  split; [eauto|]. split; [exact Hs|].
  apply Forall_forall. intros pr _. apply item_delay_values.
Qed.

Lemma aggregation_delay_witness :
  let w := with_results
             (fun _ => [("users.xhtml", ErrorResult "429 RESOURCE_EXHAUSTED");
                        ("login.xhtml", RunnerResult "migrated");
                        ("home.xhtml", ErrorResult "503 UNAVAILABLE")]) Sample.state in
  uninterrupted (script w)
  /\ no_late_result (script w)
  /\ Qsum (sleeps (trace_of (aggregation_pass w))) == 10605 # 8.
Proof.
  cbv zeta.
  assert (Hu : uninterrupted (script (with_results
             (fun _ => [("users.xhtml", ErrorResult "429 RESOURCE_EXHAUSTED");
                        ("login.xhtml", RunnerResult "migrated");
                        ("home.xhtml", ErrorResult "503 UNAVAILABLE")]) Sample.state)))
    by constructor.
  assert (Hn : no_late_result (script (with_results
             (fun _ => [("users.xhtml", ErrorResult "429 RESOURCE_EXHAUSTED");
                        ("login.xhtml", RunnerResult "migrated");
                        ("home.xhtml", ErrorResult "503 UNAVAILABLE")]) Sample.state)))
    by constructor.
  split; [exact Hu|]. split; [exact Hn|].
  destruct (aggregation_delay _ Hu Hn) as (_ & H & _).
  rewrite H. vm_compute. reflexivity.
Defined.

(* ===================================================================== *)
(** * The aggregation pass: when no task stores a result meanwhile *)
(* ===================================================================== *)

(** X23. When the dict of results has no page twice, nothing is thrown
    into the task and no task stores a result while the pass runs, the
    aggregation pass returns an evaluation map whose pages are exactly the
    pages with a recorded result, each with the record that the text of
    its result calls for. An item whose inspected text holds 429 goes
    through 5 delays and ends with the record of score 5.0 whose issues
    hold the deferred-evaluation marker. *)
Theorem aggregation_degrades_when_undisturbed (w : State) page result :
  List.NoDup (map fst (migration_results w)) ->
  In (page, result) (migration_results w) ->
  PyStr.contains "429" (result_summary result) = true ->
  uninterrupted (script w) ->
  no_late_result (script w) ->
  exists evaluations,
    result_of (aggregation_pass w) = Ok evaluations
    /\ (exists rec, evaluations !! page = Some rec
                    /\ score rec = 5%Q
                    /\ In "Evaluation deferred due to quota exhaustion" (issues rec))
    /\ dom evaluations = list_to_set (map fst (migration_results w))
    /\ (forall p r, In (p, r) (migration_results w) -> evaluations !! p = Some (verdict r))
    /\ (forall evs w0, uninterrupted (script w0) ->
          length (sleeps (trace_of (evaluate_page page result evs w0))) = 5%nat).
Proof.
  intros Hnd Hin H429 Hu Hn. rewrite (aggregation_pass_items w Hn).
  destruct (aggregate_verdicts (migration_results w) ∅ w Hnd)
    as (evs & w' & tr & Ha & Hv & Hout);
    [intros p _; apply lookup_empty | exact Hu |].
  assert (Hq : eval_quota_signature (result_summary result) = true).
  { unfold eval_quota_signature. rewrite H429. apply orb_true_r. }
  exists evs. rewrite Ha. split; [reflexivity|]. split; [|split; [|split]].
  - exists (deferred result). split.
    + rewrite (Hv page result Hin). f_equal.
      apply (verdict_backoff result 2%Q), backoff_factor_quota, Hq.
    + split; [reflexivity | now left].
  - apply set_eq. intros p. rewrite elem_of_dom, elem_of_list_to_set, list_elem_of_In. split.
    + intros [rec Hrec].
      destruct (In_dec string_dec p (map fst (migration_results w))) as [|Hnin];
        [assumption|]. rewrite (Hout p Hnin), lookup_empty in Hrec. discriminate.
    + intros Hp. apply in_map_iff in Hp as ([p' r] & <- & Hr). cbn. rewrite (Hv p' r Hr). eauto.
  - exact Hv.
  - intros evs0 w0 Hu0.
    destruct (evaluate_page_backoff page result evs0 2%Q w0 (backoff_factor_quota _ Hq) Hu0)
      as (w1 & t1 & He & _ & Hs). rewrite He. unfold trace_of. cbn [snd]. now rewrite Hs.
Qed.

Lemma aggregation_degrades_when_undisturbed_witness :
  let w := with_results
             (fun _ => [("users.xhtml",
                         ErrorResult "Max retries exceeded: 429 Too Many Requests");
                        ("dashboard.xhtml", RunnerResult "ok")]) Sample.state in
  List.NoDup (map fst (migration_results w))
  /\ PyStr.contains "429"
       (result_summary (ErrorResult "Max retries exceeded: 429 Too Many Requests")) = true
  /\ uninterrupted (script w)
  /\ no_late_result (script w)
  /\ exists evaluations,
       result_of (aggregation_pass w) = Ok evaluations
       /\ (exists rec, evaluations !! "users.xhtml" = Some rec /\ score rec = 5%Q)
       /\ dom evaluations = list_to_set (map fst (migration_results w)).
Proof.
  cbv zeta.
  assert (Hnd : List.NoDup (map fst (migration_results (with_results
             (fun _ => [("users.xhtml",
                         ErrorResult "Max retries exceeded: 429 Too Many Requests");
                        ("dashboard.xhtml", RunnerResult "ok")]) Sample.state)))).
  { repeat constructor; cbn; intuition discriminate. }
  assert (H429 : PyStr.contains "429"
                   (result_summary (ErrorResult "Max retries exceeded: 429 Too Many Requests"))
                 = true) by (vm_compute; reflexivity).
  assert (Hu : uninterrupted (script (with_results
             (fun _ => [("users.xhtml",
                         ErrorResult "Max retries exceeded: 429 Too Many Requests");
                        ("dashboard.xhtml", RunnerResult "ok")]) Sample.state)))
    by constructor.
  assert (Hn : no_late_result (script (with_results
             (fun _ => [("users.xhtml",
                         ErrorResult "Max retries exceeded: 429 Too Many Requests");
                        ("dashboard.xhtml", RunnerResult "ok")]) Sample.state)))
    by constructor.
  split; [exact Hnd|]. split; [exact H429|]. split; [exact Hu|]. split; [exact Hn|].
  destruct (aggregation_degrades_when_undisturbed _ "users.xhtml" _ Hnd
              (or_introl eq_refl) H429 Hu Hn) as (evs & H1 & (rec & H2 & H3 & _) & H4 & _).
  exists evs. split; [exact H1|]. split; [exists rec; split; assumption | exact H4].
Defined.
